(** * DataSync: the real-time table synchronisation core and its collaborators

    A shallow embedding of [server/storage.ts] (the [PostgresStorage] class)
    and of the route file that follows it in the same source file
    ([registerRoutes]: the WebSocket registry, the subscription router, the
    broadcast helper, the Google Sheets fetcher and the table routes).

    Maps and sets of the source ([Map], [Set]) are [gmap] and [gset];
    handlers that run inside [try]/[catch] are written in a small
    state-and-exception monad, so that what a handler has already mutated
    when it throws is kept, as in JavaScript. *)

From Stdlib Require Import ZArith QArith Qcanon Ascii String.
From stdpp Require Import base tactics option numbers list gmap sets strings pretty.

Local Open Scope Z_scope.

(** ** JavaScript values *)

Module Js.

(** A JavaScript [number] that [JSON.parse] can produce, or that counts table
    rows: an exact rational.  The rounding of decimal literals to doubles is
    not modelled; only equality of numbers (as [Map]/[Set] keys) is used. *)
Abbreviation number := Qc.

Definition num (z : Z) : number := Qc_of_Z z.

(** [Number.isInteger] *)
Definition isInteger (n : number) : bool := bool_decide (Qden (this n) = 1%positive).

(** The result of [JSON.parse]. *)
#[local] Unset Elimination Schemes.
Inductive Json : Type :=
| JNull
| JBool (b : bool)
| JNum (n : number)
| JStr (s : string)
| JArr (items : list Json)
| JObj (fields : list (string * Json)).
#[local] Set Elimination Schemes.

Inductive Error : Type :=
| SyntaxError                 (* JSON.parse on a text that is not JSON *)
| TypeError                   (* property read on null or undefined, call of a non-function *)
| ErrorMsg (message : string) (* new Error(message) *)
| ApiError (code : option Z) (response_status : option (option Z))
                              (* what the Google client rejects with: [code], and
                                 [response.status] when there is a [response] *)
| DatabaseError.              (* what the database rejects a query with *)

(** How an expression or a statement block ends. *)
Inductive Completion (A : Type) : Type :=
| Normal (a : A)
| Throw (e : Error).
Arguments Normal {A} a.
Arguments Throw {A} e.

(** The last binding of a key wins, as in [JSON.parse] of a text with a
    repeated key. *)
Fixpoint lookup_field (k : string) (fields : list (string * Json)) : option Json :=
  match fields with
  | [] => None
  | (k', v) :: rest =>
      match lookup_field k rest with
      | Some v' => Some v'
      | None => if decide (k' = k) then Some v else None
      end
  end.

(** [data.k] for a key [k] that is no built-in property ("type", "tableId"):
    [None] is [undefined]; reading a property of [null] throws. *)
Definition get (data : Json) (k : string) : Completion (option Json) :=
  match data with
  | JNull => Throw TypeError
  | JObj fields => Normal (lookup_field k fields)
  | _ => Normal None
  end.

(** [v === s] for a string literal [s] *)
Definition strict_eq_str (v : option Json) (s : string) : bool :=
  match v with
  | Some (JStr s') => bool_decide (s' = s)
  | _ => false
  end.

(** [typeof v === 'number'], with the number when it holds *)
Definition as_number (v : option Json) : option number :=
  match v with
  | Some (JNum n) => Some n
  | _ => None
  end.

(** *** The state-and-exception monad of handlers *)

Definition M (S A : Type) : Type := S → Completion A * S.

Definition ret {S A} (a : A) : M S A := λ s, (Normal a, s).

Definition bind {S A B} (m : M S A) (f : A → M S B) : M S B :=
  λ s, match m s with
       | (Normal a, s') => f a s'
       | (Throw e, s') => (Throw e, s')
       end.

Definition throw {S A} (e : Error) : M S A := λ s, (Throw e, s).

Definition lift {S A} (c : Completion A) : M S A := λ s, (c, s).

Definition gets {S A} (f : S → A) : M S A := λ s, (Normal (f s), s).

Definition modify {S} (f : S → S) : M S unit := λ s, (Normal tt, f s).

(** [try { m } catch (e) { h e }] *)
Definition try_catch {S A} (m : M S A) (h : Error → M S A) : M S A :=
  λ s, match m s with
       | (Throw e, s') => h e s'
       | r => r
       end.

(** [xs.forEach(f)] *)
Fixpoint forEach {S A} (xs : list A) (f : A → M S unit) : M S unit :=
  match xs with
  | [] => ret tt
  | x :: rest => bind (f x) (λ _, forEach rest f)
  end.

(** *** [async] methods

    An [async] method runs in steps: what it does up to and including an
    awaited query is one step on the state, and the steps of other calls
    can come in between two of its steps. *)
Inductive Async (S A : Type) : Type :=
| Return (a : A)
| Raise (e : Error)
| Await {X : Type} (query : M S X) (k : X → Async S A).
Arguments Return {S A} a.
Arguments Raise {S A} e.
Arguments Await {S A X} query k.

(** The call run to its end with no step of another call in between; an
    awaited query that throws makes the method throw. *)
Fixpoint alone {S A} (call : Async S A) : M S A :=
  match call with
  | Return a => ret a
  | Raise e => throw e
  | Await query k =>
      λ s, match query s with
           | (Normal x, s') => alone (k x) s'
           | (Throw e, s') => (Throw e, s')
           end
  end.



End Js.

Import Js.

Notation "'let*' x := m 'in' k" := (Js.bind m (λ x, k))
  (at level 10, x name, m at level 100, k at level 200).
Notation "m ;;; k" := (Js.bind m (λ _, k))
  (at level 100, k at level 200, right associativity).

(** ** The rows of [shared/schema.ts] *)

(** A [Date], as milliseconds since the epoch. *)
Abbreviation Date := Z (only parsing).

(** [SheetData] *)
Record SheetData : Type := { headers : list string; rows : list (list string) }.

Module Table.
Record t : Type := mk {
    id : Z;
    userId : Z;
    name : string;
    googleSheetUrl : string;
    columns : Json;
    createdAt : option Date;
    lastUpdatedAt : option Date }.
End Table.
Abbreviation Table := Table.t.

Module CustomColumn.
Record t : Type := mk {
    id : Z;
    tableId : Z;
    name : string;
    type : string;
    createdAt : option Date }.
End CustomColumn.
Abbreviation CustomColumn := CustomColumn.t.

Module ColumnValue.
Record t : Type := mk {
    id : Z;
    columnId : Z;
    rowIndex : Z;
    value : string;
    createdAt : option Date;
    updatedAt : option Date }.
End ColumnValue.
Abbreviation ColumnValue := ColumnValue.t.

Global Instance ColumnValue_eq_dec : EqDecision ColumnValue.
Proof. solve_decision. Defined.

(** [InsertColumnValue], with integers for the two keys: a number that is no
    integer is rejected by the first query it is given to, which is modelled
    where the number enters (the route). *)
Record InsertColumnValue : Type := {
  ins_columnId : Z;
  ins_rowIndex : Z;
  ins_value : string }.

(** ** Objects sent to clients *)

Module Wire.

(** The value of a property of an object literal built by the server. *)
Inductive Value : Type :=
| VUndefined
| VBool (b : bool)
| VStr (s : string)
| VNum (n : number)
| VDate (d : Date)
| VSheetData (sd : SheetData)
| VTable (t : Table)
| VColumn (c : CustomColumn)
| VColumns (cs : list CustomColumn).

(** An object literal: its own properties in creation order. *)
Abbreviation JsObject := (list (string * Value)).

(** [o[k] = v]: an existing property keeps its place. *)
Fixpoint set_prop (k : string) (v : Value) (o : JsObject) : JsObject :=
  match o with
  | [] => [(k, v)]
  | (k', v') :: rest =>
      if decide (k' = k) then (k, v) :: rest else (k', v') :: set_prop k v rest
  end.

(** [{ ...o, ...data }] *)
Definition spread (o data : JsObject) : JsObject :=
  foldl (λ acc kv, set_prop kv.1 kv.2 acc) o data.

(** [o.k] *)
Fixpoint prop (k : string) (o : JsObject) : Value :=
  match o with
  | [] => VUndefined
  | (k', v) :: rest => if decide (k' = k) then v else prop k rest
  end.

Definition is_undefined (v : Value) : bool :=
  match v with VUndefined => true | _ => false end.

(** [JSON.stringify(o)], kept as the object it denotes: properties whose
    value is [undefined] are left out. *)
Definition JSON_stringify (o : JsObject) : JsObject :=
  filter (λ kv, is_undefined kv.2 = false) o.

End Wire.

Import Wire.

(** ** The WebSocket registry and the subscription router *)

Module Realtime.

(** A connection handle: the identity of one [ExtendedWebSocket] object. *)
Abbreviation Conn := nat (only parsing).

Inductive ReadyState : Type := CONNECTING | OPEN | CLOSING | CLOSED.

Global Instance ReadyState_eq_dec : EqDecision ReadyState.
Proof. solve_decision. Defined.

(** [interface ExtendedWebSocket]: the fields the server reads and writes. *)
Record ExtendedWebSocket : Type := mkWs {
  readyState : ReadyState;
  isAlive : bool;
  subscribedTables : gset number }.

(** What the server hands to a socket. *)
Inductive Frame : Type :=
| PingFrame                      (* ws.ping() *)
| TextFrame (message : JsObject) (* ws.send(JSON.stringify(message)) *).

(** The state [registerRoutes] closes over: [wss.clients] with the fields of
    each tracked socket, the [tableSubscriptions] map, and, as the observable
    output, every call of [send] and [ping] in call order, each with the
    socket it was made on. *)
Record Server : Type := mkServer {
  clients : gmap Conn ExtendedWebSocket;
  tableSubscriptions : gmap number (gset Conn);
  sent : list (Conn * Frame) }.

Definition init : Server := mkServer ∅ ∅ [].

Abbreviation H := (Js.M Server).

(** [client.readyState]; a socket that has left [wss.clients] is closed. *)
Definition readyState_of (s : Server) (c : Conn) : ReadyState :=
  match clients s !! c with
  | Some ws => readyState ws
  | None => CLOSED
  end.

Definition update_client (c : Conn) (f : ExtendedWebSocket → ExtendedWebSocket) : H unit :=
  modify (λ s, mkServer (alter f c (clients s)) (tableSubscriptions s) (sent s)).

Definition update_subscriptions (f : gmap number (gset Conn) → gmap number (gset Conn)) : H unit :=
  modify (λ s, mkServer (clients s) (f (tableSubscriptions s)) (sent s)).

(** [c.send(JSON.stringify(o))] *)
Definition send (c : Conn) (o : JsObject) : H unit :=
  modify (λ s, mkServer (clients s) (tableSubscriptions s)
                        (sent s ++ [(c, TextFrame (JSON_stringify o))])).

(** [c.ping()] *)
Definition ping (c : Conn) : H unit :=
  modify (λ s, mkServer (clients s) (tableSubscriptions s) (sent s ++ [(c, PingFrame)])).

(** [wss.on('connection', ...)]: the socket is tracked, alive, with no
    subscription. *)
Definition onConnection (c : Conn) : H unit :=
  modify (λ s, mkServer (<[c := mkWs OPEN true ∅]> (clients s)) (tableSubscriptions s) (sent s)).

(** [extWs.on('pong', ...)] *)
Definition onPong (c : Conn) : H unit :=
  update_client c (λ ws, mkWs (readyState ws) true (subscribedTables ws)).

(** The subscribe branch: both sides, then the confirmation. *)
Definition subscribe (c : Conn) (tableId : number) : H unit :=
  update_client c (λ ws, mkWs (readyState ws) (isAlive ws) ({[tableId]} ∪ subscribedTables ws)) ;;;
  update_subscriptions (λ m, if decide (is_Some (m !! tableId)) then m else <[tableId := ∅]> m) ;;;
  update_subscriptions (alter (λ subscribers, {[c]} ∪ subscribers) tableId) ;;;
  send c [("type", VStr "subscribed"); ("tableId", VNum tableId);
          ("message", VStr "Successfully subscribed to real-time updates")].

(** [tableSubscriptions.get(tableId)?.delete(c)], then the entry is dropped
    when its set has become empty. *)
Definition remove_subscriber (c : Conn) (tableId : number)
    (m : gmap number (gset Conn)) : gmap number (gset Conn) :=
  let m' := alter (λ subscribers, subscribers ∖ {[c]}) tableId m in
  match m' !! tableId with
  | Some subscribers => if decide (size subscribers = 0%nat) then delete tableId m' else m'
  | None => m'
  end.

(** The unsubscribe branch. *)
Definition unsubscribe (c : Conn) (tableId : number) : H unit :=
  update_client c (λ ws, mkWs (readyState ws) (isAlive ws) (subscribedTables ws ∖ {[tableId]})) ;;;
  update_subscriptions (remove_subscriber c tableId) ;;;
  send c [("type", VStr "unsubscribed"); ("tableId", VNum tableId)].

(** [data.type === tag && typeof data.tableId === 'number'], with the table
    identifier when the test holds; [data.tableId] is read only when the
    first operand holds. *)
Definition request (data : Json) (tag : string) : H (option number) :=
  let* type := lift (get data "type") in
  if strict_eq_str type tag then
    let* tableId := lift (get data "tableId") in
    ret (as_number tableId)
  else ret None.

(** [extWs.on('message', ...)]; [message] is how [JSON.parse] of the frame's
    text ends. *)
Definition onMessage (c : Conn) (message : Completion Json) : H unit :=
  try_catch
    (let* data := lift message in
     let* subscribing := request data "subscribe" in
     match subscribing with
     | Some tableId => subscribe c tableId
     | None =>
         let* unsubscribing := request data "unsubscribe" in
         match unsubscribing with
         | Some tableId => unsubscribe c tableId
         | None => ret tt
         end
     end)
    (λ error, ret tt).

(** [extWs.on('close', ...)], followed by the server's own listener, which
    takes the socket out of [wss.clients]. *)
Definition onClose (c : Conn) : H unit :=
  let* tables := gets (λ s, match clients s !! c with
                            | Some ws => elements (subscribedTables ws)
                            | None => []
                            end) in
  forEach tables (λ tableId, update_subscriptions (remove_subscriber c tableId)) ;;;
  modify (λ s, mkServer (delete c (clients s)) (tableSubscriptions s) (sent s)).

(** [ws.terminate()] *)
Definition terminate (ws : ExtendedWebSocket) : ExtendedWebSocket :=
  match readyState ws with
  | CLOSED => ws
  | _ => mkWs CLOSING (isAlive ws) (subscribedTables ws)
  end.

(** One round of the [pingInterval] callback on one socket. *)
Definition sweep_client (c : Conn) : H unit :=
  let* alive := gets (λ s, isAlive <$> clients s !! c) in
  match alive with
  | Some false => update_client c terminate
  | _ => update_client c (λ ws, mkWs (readyState ws) false (subscribedTables ws)) ;;;
         ping c
  end.

(** The [pingInterval] callback: [wss.clients.forEach]. *)
Definition sweep : H unit :=
  let* tracked := gets (λ s, elements (dom (clients s))) in
  forEach tracked sweep_client.

(** [broadcastTableUpdate] *)
Definition broadcastTableUpdate (tableId : number) (data : JsObject) : H unit :=
  let* subscribers := gets (λ s, tableSubscriptions s !! tableId) in
  match subscribers with
  | None => ret tt
  | Some subscribers =>
      if decide (size subscribers = 0%nat) then ret tt
      else
        let message := spread [("type", VStr "tableUpdate"); ("tableId", VNum tableId)] data in
        forEach (elements subscribers) (λ client,
          let* state := gets (λ s, readyState_of s client) in
          if decide (state = OPEN) then send client message else ret tt)
  end.

(** The end of the [DELETE /api/tables/:id] route, once the table is
    deleted from storage. *)
Definition tableDeleted (tableId : number) : H unit :=
  broadcastTableUpdate tableId [("type", VStr "tableDeleted"); ("message", VStr "Table was deleted")] ;;;
  update_subscriptions (delete tableId).

(** *** The events the server reacts to *)

Inductive Event : Type :=
| EvConnection (c : Conn)
| EvPong (c : Conn)
| EvMessage (c : Conn) (message : Completion Json)
| EvClose (c : Conn)
| EvPingInterval
| EvBroadcast (tableId : number) (data : JsObject)
| EvTableDeleted (tableId : number).

Definition handler (e : Event) : H unit :=
  match e with
  | EvConnection c => onConnection c
  | EvPong c => onPong c
  | EvMessage c message => onMessage c message
  | EvClose c => onClose c
  | EvPingInterval => sweep
  | EvBroadcast tableId data => broadcastTableUpdate tableId data
  | EvTableDeleted tableId => tableDeleted tableId
  end.

(** The state a handler leaves. *)
Definition exec (h : H unit) (s : Server) : Server := (h s).2.

(** A new socket is a new object; the other socket events come from a
    tracked socket. *)
Definition enabled (e : Event) (s : Server) : Prop :=
  match e with
  | EvConnection c => clients s !! c = None
  | EvPong c | EvMessage c _ | EvClose c => is_Some (clients s !! c)
  | _ => True
  end.

Global Instance enabled_dec e s : Decision (enabled e s).
Proof. destruct e; simpl; apply _. Defined.

Fixpoint run (events : list Event) (s : Server) : option Server :=
  match events with
  | [] => Some s
  | e :: rest => if decide (enabled e s) then run rest (exec (handler e) s) else None
  end.

Definition reachable (s : Server) : Prop := ∃ events, run events init = Some s.

(** *** The two sides of a subscription *)

Definition subscribers_of (s : Server) (tableId : number) : gset Conn :=
  default ∅ (tableSubscriptions s !! tableId).

Definition in_router (s : Server) (c : Conn) (tableId : number) : Prop :=
  c ∈ subscribers_of s tableId.

Definition in_local (s : Server) (c : Conn) (tableId : number) : Prop :=
  ∃ ws, clients s !! c = Some ws ∧ tableId ∈ subscribedTables ws.

Definition symmetric (s : Server) : Prop :=
  ∀ c tableId, in_router s c tableId ↔ in_local s c tableId.

Definition no_empty_entry (s : Server) : Prop :=
  ∀ tableId subscribers, tableSubscriptions s !! tableId = Some subscribers → subscribers ≠ ∅.

(** The frames handed to one socket, in call order. *)
Definition received (s : Server) (c : Conn) : list Frame :=
  (filter (λ cf, cf.1 = c) (sent s)).*2.

End Realtime.

(** ** The Google Sheets fetcher *)

Module Sheets.

(** A cell of the [values] matrix the Sheets API answers with. *)
Inductive Cell : Type :=
| CNull
| CBool (b : bool)
| CNum (n : number)
| CStr (s : string).

(** An element of [values]: an array of cells, or, defensively, anything
    else ([truthy] tells how it converts to a boolean). *)
Inductive SheetRow : Type :=
| RowArray (cells : list Cell)
| RowOther (truthy : bool).

(** What the fetcher reads from outside the program. *)
Record World : Type := {
  (** [process.env.GOOGLE_SHEETS_API_KEY] *)
  GOOGLE_SHEETS_API_KEY : option string;
  (** [sheets.spreadsheets.values.get] for a spreadsheet id and a key, once
      awaited: [response.data.values], or the error it rejects with *)
  spreadsheets_values_get : string → string → Completion (option (list SheetRow));
  (** [Number.prototype.toString] *)
  Number_toString : number → string }.

(** The class [[-\w]] of the sheet-id pattern. *)
Definition word_or_hyphen (a : ascii) : bool :=
  let n := nat_of_ascii a in
  ((48 <=? n) && (n <=? 57) || (65 <=? n) && (n <=? 90) || (97 <=? n) && (n <=? 122)
   || (n =? 95) || (n =? 45))%nat.

(** [sheetUrl.match(/[-\w]{25,}/)]: the leftmost run of at least 25
    characters of the class, taken as long as it goes; [run] is the run
    being read. *)
Fixpoint match_from (run : string) (rest : string) : option string :=
  match rest with
  | EmptyString => if (25 <=? String.length run)%nat then Some run else None
  | String a rest' =>
      if word_or_hyphen a then match_from (run +:+ String a EmptyString) rest'
      else if (25 <=? String.length run)%nat then Some run
      else match_from EmptyString rest'
  end.

Definition match_sheet_id (sheetUrl : string) : option string := match_from EmptyString sheetUrl.

Section Fetch.
Context {S : Type} (world : World).

(** [h?.toString() || ''] *)
Definition header_text (h : Cell) : string :=
  match h with
  | CNull => EmptyString
  | CBool b => if b then "true" else "false"
  | CNum n => Number_toString world n
  | CStr s => s
  end.

(** [cell === null || cell === undefined ? '' : cell.toString()] for
    [cell = row[i]] *)
Definition cell_text (cell : option Cell) : string :=
  match cell with
  | None | Some CNull => EmptyString
  | Some (CBool b) => if b then "true" else "false"
  | Some (CNum n) => Number_toString world n
  | Some (CStr s) => s
  end.

(** [values[0] ? values[0].map(h => ...) : []] *)
Definition first_row_headers (values : list SheetRow) : Completion (list string) :=
  match values with
  | RowArray cells :: _ => Normal (header_text <$> cells)
  | RowOther true :: _ => Throw TypeError
  | _ => Normal []
  end.

(** [values.reduce((max, row) => Array.isArray(row) ? Math.max(max, row.length) : max, 0)] *)
Definition maxColumns (values : list SheetRow) : nat :=
  foldl (λ max row, match row with RowArray cells => Nat.max max (length cells) | RowOther _ => max end)
        0%nat values.

(** The loop that pushes ["Column 1"], ["Column 2"], ... *)
Definition generic_headers (n : nat) : list string :=
  (λ i, "Column " +:+ pretty (i + 1)%nat) <$> seq 0 n.

Definition data_row (headers : list string) (row : SheetRow) : list string :=
  match row with
  | RowOther _ => replicate (length headers) EmptyString
  | RowArray cells =>
      (λ i, cell_text (cells !! i)) <$> seq 0 (Nat.max (length headers) (length cells))
  end.

(** The body of the inner [try]. *)
Definition read_sheet (spreadsheetId apiKey : string) : M S SheetData :=
  let* data_values := lift (spreadsheets_values_get world spreadsheetId apiKey) in
  let values := default [] data_values in
  if decide (length values = 0%nat) then ret {| headers := []; rows := [] |}
  else
    let* headers := lift (first_row_headers values) in
    let headers :=
      if decide (length headers = 0%nat) then headers ++ generic_headers (maxColumns values)
      else headers in
    let rows := data_row headers <$> drop 1 values in
    let rows :=
      if decide (length rows = 0%nat ∧ (0 < length headers)%nat)
      then rows ++ [replicate (length headers) EmptyString] else rows in
    ret {| headers := headers; rows := rows |}.

(** [googleError.code === n || (googleError.response && googleError.response.status === n)] *)
Definition has_status (googleError : Error) (n : Z) : bool :=
  match googleError with
  | ApiError code response =>
      bool_decide (code = Some n) || bool_decide (response = Some (Some n))
  | _ => false
  end.

Definition fetchGoogleSheetData (sheetUrl : string) : M S SheetData :=
  try_catch
    (match match_sheet_id sheetUrl with
     | None => throw (ErrorMsg "Invalid Google Sheet URL")
     | Some spreadsheetId =>
         let apiKey := default EmptyString (GOOGLE_SHEETS_API_KEY world) in
         if decide (apiKey = EmptyString) then throw (ErrorMsg "Google Sheets API key is missing")
         else
           try_catch (read_sheet spreadsheetId apiKey)
             (λ googleError,
               if has_status googleError 404 then
                 ret {| headers := ["Data not found"];
                        rows := [["Please check your Google Sheet URL and permissions"]] |}
               else if has_status googleError 403 then
                 ret {| headers := ["Access denied"];
                        rows := [["Google Sheet requires public access or sharing with service account"]] |}
               else throw googleError)
     end)
    (λ error,
      ret {| headers := ["Error"];
             rows := [["Failed to load data. Please check the Google Sheet URL and try again."]] |}).

End Fetch.

End Sheets.

(** ** [PostgresStorage] *)

Module Storage.

(** The three tables the table routes use, each as its rows in storage
    order, and the sequence behind the [serial] key of [columnValues]. *)
Record Database : Type := mkDb {
  tables : list Table;
  customColumns : list CustomColumn;
  columnValues : list ColumnValue;
  columnValues_id_seq : Z }.

(** The column type [integer] of the schema: 32 bits. *)
Definition int4 (z : Z) : Prop := -2147483648 ≤ z ≤ 2147483647.

Global Instance int4_dec z : Decision (int4 z).
Proof. unfold int4. apply _. Defined.

(** An integer of the request handed to a query as a parameter of a column
    of type [integer]: the database rejects the query when it is out of the
    range of the type. *)
Definition integer_param {S} (z : Z) : M S unit :=
  if decide (int4 z) then ret tt else throw DatabaseError.

(** [Partial<Table>], for the fields the routes patch. *)
Record TablePatch : Type := {
  patch_name : option string;
  patch_googleSheetUrl : option string;
  patch_lastUpdatedAt : option Date }.

Definition apply_patch (p : TablePatch) (lastUpdatedAt : Date) (t : Table) : Table :=
  Table.mk (Table.id t) (Table.userId t)
           (default (Table.name t) (patch_name p))
           (default (Table.googleSheetUrl t) (patch_googleSheetUrl p))
           (Table.columns t) (Table.createdAt t) (Some lastUpdatedAt).

(** [UPDATE ... WHERE p RETURNING *]: the rows after the update, and the
    updated rows. *)
Definition update_returning {A} (p : A → bool) (f : A → A) (rows : list A) : list A * list A :=
  ((λ r, if p r then f r else r) <$> rows, f <$> filter (λ r, p r = true) rows).

Section Queries.
Context {S : Type} (db : S → Database) (set_db : Database → S → S).

Definition getUserTable (id userId : Z) : M S (option Table) :=
  gets (λ s, head (filter (λ t, Table.id t = id ∧ Table.userId t = userId) (tables (db s)))).

(** [lastUpdatedAt] is the [new Date()] taken inside the method; it replaces
    the one of the patch. *)
Definition updateTable (id : Z) (tableData : TablePatch) (lastUpdatedAt : Date) : M S (option Table) :=
  let* d := gets db in
  let result := update_returning (λ t, bool_decide (Table.id t = id))
                                 (apply_patch tableData lastUpdatedAt) (tables d) in
  modify (set_db (mkDb result.1 (customColumns d) (columnValues d) (columnValues_id_seq d))) ;;;
  ret (head result.2).

Definition getCustomColumns (tableId : Z) : M S (list CustomColumn) :=
  gets (λ s, filter (λ c, CustomColumn.tableId c = tableId) (customColumns (db s))).

(** Both parameters come from the caller as they are. *)
Definition getColumnValue (columnId rowIndex : Z) : M S (option ColumnValue) :=
  integer_param columnId ;;; integer_param rowIndex ;;;
  gets (λ s, head (filter (λ v, ColumnValue.columnId v = columnId ∧ ColumnValue.rowIndex v = rowIndex)
                          (columnValues (db s)))).

Definition with_value (value : string) (updatedAt : Date) (v : ColumnValue) : ColumnValue :=
  ColumnValue.mk (ColumnValue.id v) (ColumnValue.columnId v) (ColumnValue.rowIndex v)
                 value (ColumnValue.createdAt v) (Some updatedAt).

(** [UPDATE columnValues SET value, updatedAt WHERE id = ... RETURNING *],
    awaited: [result[0]]. *)
Definition update_existing (existingValue : ColumnValue) (value : string) (updatedAt : Date)
    : M S (option ColumnValue) :=
  let* d := gets db in
  let result := update_returning
                  (λ v, bool_decide (ColumnValue.id v = ColumnValue.id existingValue))
                  (with_value value updatedAt) (columnValues d) in
  modify (set_db (mkDb (tables d) (customColumns d) result.1 (columnValues_id_seq d))) ;;;
  ret (head result.2).

(** [INSERT INTO columnValues ... RETURNING *], awaited: [result[0]].  The
    [serial] key takes the next value of its sequence, which ends at the
    largest [integer]; the value is taken before the row is checked, so a
    rejected row leaves the sequence advanced.  The row is rejected when no
    custom column has its [columnId] (the foreign key of the schema) or a
    stored value has its [id] already (the primary key). *)
Definition insert_value (insertColumnValue : InsertColumnValue) (createdAt updatedAt : Date)
    : M S (option ColumnValue) :=
  let* d := gets db in
  let id := columnValues_id_seq d + 1 in
  if decide (int4 id) then
    let row := ColumnValue.mk id (ins_columnId insertColumnValue) (ins_rowIndex insertColumnValue)
                              (ins_value insertColumnValue) (Some createdAt) (Some updatedAt) in
    if decide (ins_columnId insertColumnValue ∈ CustomColumn.id <$> customColumns d ∧
               id ∉ (ColumnValue.id <$> columnValues d)) then
      modify (set_db (mkDb (tables d) (customColumns d) (columnValues d ++ [row]) id)) ;;;
      ret (Some row)
    else
      modify (set_db (mkDb (tables d) (customColumns d) (columnValues d) id)) ;;;
      throw DatabaseError
  else throw DatabaseError.

(** [createdAt] and [updatedAt] are the two [new Date()] of the method.  The
    lookup and the write are two awaited queries, outside any transaction. *)
Definition saveColumnValue (insertColumnValue : InsertColumnValue) (createdAt updatedAt : Date)
    : Async S (option ColumnValue) :=
  Await (getColumnValue (ins_columnId insertColumnValue) (ins_rowIndex insertColumnValue))
    (λ existingValue,
      match existingValue with
      | Some existingValue =>
          Await (update_existing existingValue (ins_value insertColumnValue) updatedAt) Return
      | None =>
          Await (insert_value insertColumnValue createdAt updatedAt) Return
      end).

End Queries.

(** The storage on its own: one call of [saveColumnValue], and the same call
    when no query of another call comes between its lookup and its write. *)
Definition save_call (insertColumnValue : InsertColumnValue) (createdAt updatedAt : Date)
    : Async Database (option ColumnValue) :=
  saveColumnValue (λ d, d) (λ d _, d) insertColumnValue createdAt updatedAt.

Definition save (insertColumnValue : InsertColumnValue) (createdAt updatedAt : Date)
    : M Database (option ColumnValue) :=
  alone (save_call insertColumnValue createdAt updatedAt).


(** What the [serial] primary key gives: the keys issued so far are below
    the sequence, and no two rows share one. *)
Definition serial_key (d : Database) : Prop :=
  (∀ v, v ∈ columnValues d → ColumnValue.id v ≤ columnValues_id_seq d) ∧
  (∀ i j v w, columnValues d !! i = Some v → columnValues d !! j = Some w →
     ColumnValue.id v = ColumnValue.id w → i = j).

End Storage.

(** ** The table routes that resynchronise *)

Module Routes.
Import Realtime Sheets Storage.

Record App : Type := mkApp { db : Database; server : Server }.

Definition set_db (d : Database) (a : App) : App := mkApp d (server a).

(** A route handler runs a helper of the real-time layer on its part of the
    state. *)
Definition realtime {A} (h : M Server A) : M App A :=
  λ a, let r := h (server a) in (r.1, mkApp (db a) r.2).

(** What a route reads of the request: [req.user?.id], [parseInt(req.params.id)]
    ([None] is [NaN]) and [req.query.refresh]. *)
Record Request : Type := {
  user : option Z;
  parsed_id : option Z;
  query_refresh : option string }.

(** A number of the path as a query takes it for a column of type
    [integer]: [None] when it is [NaN] or out of the range of the type, in
    which case the query throws. *)
Definition as_integer (parsed : option Z) : option Z :=
  match parsed with
  | Some z => if decide (int4 z) then Some z else None
  | None => None
  end.

(** [tableId], the [parseInt] of [req.params.id], as the queries of the
    routes take it. *)
Definition params_id (req : Request) : option Z := as_integer (parsed_id req).

Record Response : Type := { status : Z; body : JsObject }.

Definition lastUpdatedAt_of (t : option Table) : Value :=
  match t with
  | Some t => match Table.lastUpdatedAt t with Some d => VDate d | None => VUndefined end
  | None => VUndefined
  end.

Definition table_value (t : option Table) : Value :=
  match t with Some t => VTable t | None => VUndefined end.

(** The routes are written as they run when no query of another request
    comes between their awaits. *)
Section Handlers.
Context (world : World).

(** [storage.getUserTable(tableId, userId)] with the [tableId] of the path:
    the query throws when [tableId] is [NaN] or out of range. *)
Definition lookup_user_table (tableId : option Z) (userId : Z) : M App (option Table) :=
  match tableId with
  | Some tableId => getUserTable db tableId userId
  | None => throw DatabaseError
  end.

Definition update_timestamp (tableId : Z) (lastUpdatedAt : Date) : M App (option Table) :=
  updateTable db set_db tableId
    {| patch_name := None; patch_googleSheetUrl := None; patch_lastUpdatedAt := Some lastUpdatedAt |}
    lastUpdatedAt.

Definition not_authenticated : Response :=
  {| status := 401; body := [("message", VStr "Not authenticated")] |}.

Definition table_not_found : Response :=
  {| status := 404; body := [("message", VStr "Table not found")] |}.

(** The [catch] block of the two routes: the table is read again and an
    answer with an in-band note is sent; [preamble] is what the answer of the
    route starts with.  The block is outside any [try]: when the query in it
    throws, the handler throws and no answer is sent. *)
Definition answer_after_error (req : Request) (preamble : JsObject) (label note : string)
    : M App Response :=
  match user req with
  | None => ret not_authenticated
  | Some 0 => ret not_authenticated  (* [!userId] *)
  | Some userId =>
      let* table := lookup_user_table (params_id req) userId in
      match table, params_id req with
      | Some table, Some tableId =>
          let* customColumns := getCustomColumns db tableId in
          ret {| status := 200;
                 body := preamble ++
                         [("table", VTable table); ("customColumns", VColumns customColumns);
                          ("sheetData", VSheetData {| headers := [label]; rows := [[note]] |})] |}
      | _, _ => ret table_not_found
      end
  end.

(** [GET /api/tables/:id/data]; [now] is the [new Date()] that reaches
    storage.  A table is found only under a key the database takes, so the
    rest of the route runs with one. *)
Definition get_table_data (now : Date) (req : Request) : M App Response :=
  try_catch
    (match user req with
     | None => ret not_authenticated
     | Some userId =>
         let* table := lookup_user_table (params_id req) userId in
         match table, params_id req with
         | Some table, Some tableId =>
             let* sheetData := fetchGoogleSheetData world (Table.googleSheetUrl table) in
             let* updatedTable := update_timestamp tableId now in
             let* customColumns := getCustomColumns db tableId in
             (if decide (query_refresh req = Some "true") then
                realtime (broadcastTableUpdate (num tableId)
                  [("type", VStr "dataRefreshed"); ("message", VStr "Data refreshed");
                   ("sheetData", VSheetData sheetData); ("customColumns", VColumns customColumns);
                   ("table", table_value updatedTable)])
              else ret tt) ;;;
             ret {| status := 200;
                    body := [("table", table_value updatedTable);
                             ("customColumns", VColumns customColumns);
                             ("sheetData", VSheetData sheetData)] |}
         | _, _ => ret table_not_found
         end
     end)
    (λ error, answer_after_error req [] "Error"
                "An error occurred while fetching the data. Please try again.").

(** [POST /api/tables/:id/sync]; [now] is the [new Date()] that reaches
    storage, [timestamp] the one put in the message. *)
Definition post_table_sync (now timestamp : Date) (req : Request) : M App Response :=
  try_catch
    (match user req with
     | None => ret not_authenticated
     | Some userId =>
         let* table := lookup_user_table (params_id req) userId in
         match table, params_id req with
         | Some table, Some tableId =>
             let* sheetData := fetchGoogleSheetData world (Table.googleSheetUrl table) in
             let* updatedTable := update_timestamp tableId now in
             let* customColumns := getCustomColumns db tableId in
             realtime (broadcastTableUpdate (num tableId)
               [("message", VStr "Data synced"); ("timestamp", VDate timestamp);
                ("sheetData", VSheetData sheetData); ("customColumns", VColumns customColumns);
                ("table", table_value updatedTable)]) ;;;
             ret {| status := 200;
                    body := [("success", VBool true); ("table", table_value updatedTable);
                             ("sheetData", VSheetData sheetData);
                             ("customColumns", VColumns customColumns);
                             ("lastUpdated", lastUpdatedAt_of updatedTable)] |}
         | _, _ => ret table_not_found
         end
     end)
    (λ error, answer_after_error req
                [("success", VBool false);
                 ("message", VStr "Data sync encountered an issue, but the application is still functioning")]
                "Note" "Unable to sync with Google Sheets. Please check the URL and try again.").

End Handlers.

End Routes.

(** ** Vocabulary of the properties *)

Module Vocabulary.
Import Realtime.

(** What [remove_subscriber] leaves under a key. *)
Definition pruned (c : Conn) (entry : option (gset Conn)) : option (gset Conn) :=
  match entry with
  | Some subscribers =>
      if decide (subscribers ∖ {[c]} = ∅) then None else Some (subscribers ∖ {[c]})
  | None => None
  end.

(** What one round of the liveness sweep does to a socket. *)
Definition swept (ws : ExtendedWebSocket) : ExtendedWebSocket :=
  if isAlive ws then mkWs (readyState ws) false (subscribedTables ws) else terminate ws.

(** The text a broadcast of [data] for [tableId] carries. *)
Definition update_message (tableId : number) (data : JsObject) : JsObject :=
  JSON_stringify (spread [("type", VStr "tableUpdate"); ("tableId", VNum tableId)] data).

(** The sockets a broadcast for [tableId] reaches in state [s]: the
    subscribers that are open. *)
Definition recipients (s : Server) (tableId : number) : list Conn :=
  filter (λ c, readyState_of s c = OPEN) (elements (subscribers_of s tableId)).

Definition deliveries (s : Server) (tableId : number) (data : JsObject) : list (Conn * Frame) :=
  (λ c, (c, TextFrame (update_message tableId data))) <$> recipients s tableId.

(** [data.type] is the string [tag]. *)
Definition type_is (data : Json) (tag : string) : Prop :=
  get data "type" = Normal (Some (JStr tag)).

(** [data.tableId] is a number. *)
Definition tableId_is_number (data : Json) : Prop :=
  ∃ n, get data "tableId" = Normal (Some (JNum n)).

(** [data.tableId] is an integer. *)
Definition tableId_is_integer (data : Json) : Prop :=
  ∃ n, get data "tableId" = Normal (Some (JNum n)) ∧ isInteger n = true.

(** One direction of the symmetry: whoever the router lists for a table is
    a tracked socket that has the table in its own set. *)
Definition router_sound (s : Server) : Prop :=
  ∀ c tableId, in_router s c tableId → in_local s c tableId.

(** What every reachable state satisfies. *)
Definition inv (s : Server) : Prop := router_sound s ∧ no_empty_entry s.

(** The other direction, for one table. *)
Definition local_sound_at (s : Server) (tableId : number) : Prop :=
  ∀ c, in_local s c tableId → in_router s c tableId.

(** A message that asks to subscribe to table 42, and the trace on which a
    socket subscribes to it and the table is then deleted. *)
Definition subscribe_42 : Json := JObj [("type", JStr "subscribe"); ("tableId", JNum (num 42))].

Definition deletion_trace : list Event :=
  [EvConnection 1%nat; EvMessage 1%nat (Normal subscribe_42); EvTableDeleted (num 42)].

(** The trace on which a socket connects and subscribes to table 42. *)
Definition subscribed_trace : list Event :=
  [EvConnection 1%nat; EvMessage 1%nat (Normal subscribe_42)].

Definition subscribed_state : Server :=
  exec (subscribe 1%nat (num 42)) (exec (onConnection 1%nat) init).

(** A message that asks to unsubscribe from table 42. *)
Definition unsubscribe_42 : Json := JObj [("type", JStr "unsubscribe"); ("tableId", JNum (num 42))].

(** Every tracked socket is open or closing. *)
Definition tracked_not_closed (s : Server) : Prop :=
  ∀ c ws, clients s !! c = Some ws → readyState ws = OPEN ∨ readyState ws = CLOSING.

(** No event of [events] is a probe acknowledgment or the closure of [c],
    or a round of the sweep. *)
Definition quiet_for (c : Conn) (events : list Event) : Prop :=
  ∀ e, e ∈ events → e ≠ EvPong c ∧ e ≠ EvClose c ∧ e ≠ EvPingInterval.

(** A message the handler has nothing to do for: its text is not JSON, or
    its type is neither of the two requests, or its [tableId] is no number. *)
Definition malformed (message : Completion Json) : Prop :=
  match message with
  | Throw _ => True
  | Normal data =>
      (¬ type_is data "subscribe" ∧ ¬ type_is data "unsubscribe") ∨ ¬ tableId_is_number data
  end.

(** A subscribe message whose [tableId] is the number 1.5. *)
Definition subscribe_fraction : Json :=
  JObj [("type", JStr "subscribe"); ("tableId", JNum (Q2Qc (3 # 2)))].

(** One tracked socket and no subscription. *)
Definition connected_state : Server := exec (onConnection 1%nat) init.

(** The confirmation the subscribe branch sends. *)
Definition subscribed_message (tableId : number) : JsObject :=
  [("type", VStr "subscribed"); ("tableId", VNum tableId);
   ("message", VStr "Successfully subscribed to real-time updates")].

(** Sockets 1, 2 and 4 subscribed to table 42 and socket 3 to table 7;
    socket 4 misses a probe and is terminated by the next sweep, the other
    three answer it and stay open. *)
Definition subscribe_7 : Json := JObj [("type", JStr "subscribe"); ("tableId", JNum (num 7))].

Definition fan_out_trace : list Event :=
  [EvConnection 1%nat; EvConnection 2%nat; EvConnection 3%nat; EvConnection 4%nat;
   EvMessage 1%nat (Normal subscribe_42); EvMessage 2%nat (Normal subscribe_42);
   EvMessage 3%nat (Normal subscribe_7); EvMessage 4%nat (Normal subscribe_42);
   EvPingInterval; EvPong 1%nat; EvPong 2%nat; EvPong 3%nat; EvPingInterval].

Definition fan_out_state : Server := default init (run fan_out_trace init).

(** The three in-band error snapshots of the fetcher. *)
Definition error_snapshot : SheetData :=
  {| headers := ["Error"];
     rows := [["Failed to load data. Please check the Google Sheet URL and try again."]] |}.

Definition not_found_snapshot : SheetData :=
  {| headers := ["Data not found"];
     rows := [["Please check your Google Sheet URL and permissions"]] |}.

Definition access_denied_snapshot : SheetData :=
  {| headers := ["Access denied"];
     rows := [["Google Sheet requires public access or sharing with service account"]] |}.

(** A world with an API key in which the Sheets API rejects every call
    with status 403, and a URL that carries a sheet id. *)
Definition forbidding_world : Sheets.World :=
  {| Sheets.GOOGLE_SHEETS_API_KEY := Some "key";
     Sheets.spreadsheets_values_get := λ _ _, Throw (ApiError (Some 403) None);
     Sheets.Number_toString := λ _, "0" |}.

Definition sheet_url : string :=
  "https://docs.google.com/spreadsheets/d/1BxiMVs0XRA5nFMdKvBdBZjgmUUqptlbs74OgvE2upms/edit".

(** The stored value of a cell: what [getColumnValue] finds when the
    database takes the two keys. *)
Definition stored (d : Storage.Database) (columnId rowIndex : Z) : option ColumnValue :=
  head (filter (λ v, ColumnValue.columnId v = columnId ∧ ColumnValue.rowIndex v = rowIndex)
               (Storage.columnValues d)).




(** User 7 owns table 42, which socket 1 is subscribed to. *)
Definition sync_app : Routes.App :=
  Routes.mkApp
    (Storage.mkDb [Table.mk 42 7 "Orders" sheet_url JNull (Some 10) (Some 10)] [] [] 0)
    subscribed_state.

Definition sync_request : Routes.Request :=
  {| Routes.user := Some 7; Routes.parsed_id := Some 42; Routes.query_refresh := None |}.

Definition refresh_request : Routes.Request :=
  {| Routes.user := Some 7; Routes.parsed_id := Some 42; Routes.query_refresh := Some "true" |}.

(** The payload of a resynchronisation: the snapshot, the custom columns
    and the table record, next to the table identifier. *)
Definition carries (message : JsObject) (tableId : Z) (sheetData : SheetData)
    (customColumns : list CustomColumn) (updatedTable : Table) : Prop :=
  prop "tableId" message = VNum (num tableId) ∧
  prop "sheetData" message = VSheetData sheetData ∧
  prop "customColumns" message = VColumns customColumns ∧
  prop "table" message = VTable updatedTable.

(** From [s] to [s'], [message] has been handed once to every open
    subscriber of [tableId] and nothing to any other socket, and the registry
    and the router are as they were. *)
Definition broadcast_between (s s' : Server) (tableId : number) (message : JsObject) : Prop :=
  clients s' = clients s ∧ tableSubscriptions s' = tableSubscriptions s ∧
  ∀ c, received s' c =
       received s c ++ if decide (c ∈ subscribers_of s tableId ∧ readyState_of s c = OPEN)
                       then [TextFrame message] else [].

(** A world in which the sheet has a header row and one data row, and one
    in which its first row is empty. *)
Definition sheet_world (values : list Sheets.SheetRow) : Sheets.World :=
  {| Sheets.GOOGLE_SHEETS_API_KEY := Some "key";
     Sheets.spreadsheets_values_get := λ _ _, Normal (Some values);
     Sheets.Number_toString := λ n, if bool_decide (n = num 3) then "3" else "?" |}.

End Vocabulary.

Import Vocabulary.

(** ** [PostgresStorage]: the other table, column and value methods *)


Module StorageOps.
Import Storage.

(** [DELETE FROM ... WHERE p]: the rows that stay, and [result.count]. *)
Definition delete_where {A} (p : A → bool) (rows : list A) : list A * nat :=
  (filter (λ r, p r = false) rows, length (filter (λ r, p r = true) rows)).

(** [a INNER JOIN b ON on]: the pairs, row by row of the left table. *)
Definition innerJoin {A B} (on : A → B → bool) (left : list A) (right : list B) : list (A * B) :=
  a ← left; (λ b, (a, b)) <$> filter (λ b, on a b = true) right.

Section Queries.
Context {S : Type} (db : S → Database) (set_db : Database → S → S).

Definition set_columnValues (rows : list ColumnValue) : M S unit :=
  modify (λ s, set_db (mkDb (tables (db s)) (customColumns (db s)) rows
                            (columnValues_id_seq (db s))) s).





(** [result[0]?.column] of the join of the columns with their tables. *)
Definition getUserCustomColumn (id userId : Z) : M S (option CustomColumn) :=
  gets (λ s,
    fst <$> head (filter (λ ct, CustomColumn.id ct.1 = id ∧ Table.userId ct.2 = userId)
                    (innerJoin (λ c t, bool_decide (CustomColumn.tableId c = Table.id t))
                               (customColumns (db s)) (tables (db s))))).

(** The join of the values with their columns and the tables of these. *)
Definition values_with_owner (d : Database) : list ((ColumnValue * CustomColumn) * Table) :=
  innerJoin (λ vc t, bool_decide (CustomColumn.tableId vc.2 = Table.id t))
    (innerJoin (λ v c, bool_decide (ColumnValue.columnId v = CustomColumn.id c))
               (columnValues d) (customColumns d))
    (tables d).

Definition getUserColumnValues (columnId userId : Z) : M S (list ColumnValue) :=
  gets (λ s,
    (λ r, r.1.1) <$>
    filter (λ r, ColumnValue.columnId r.1.1 = columnId ∧ Table.userId r.2 = userId)
           (values_with_owner (db s))).

Definition getUserColumnValue (columnId rowIndex userId : Z) : M S (option ColumnValue) :=
  gets (λ s,
    (λ r, r.1.1) <$>
    head (filter (λ r, ColumnValue.columnId r.1.1 = columnId ∧
                       ColumnValue.rowIndex r.1.1 = rowIndex ∧ Table.userId r.2 = userId)
                 (values_with_owner (db s)))).

(** [updatedAt] is the [new Date()] of the method. *)
Definition updateColumnValue (id : Z) (value : string) (updatedAt : Date)
    : M S (option ColumnValue) :=
  let* values := gets (λ s, columnValues (db s)) in
  let result := update_returning (λ v, bool_decide (ColumnValue.id v = id))
                                 (with_value value updatedAt) values in
  set_columnValues result.1 ;;;
  ret (head result.2).

(** The result of the delete is never [undefined], so the answer is
    [true] whether or not a row had the key. *)
Definition deleteColumnValue (id : Z) : M S bool :=
  let* values := gets (λ s, columnValues (db s)) in
  set_columnValues (delete_where (λ v, bool_decide (ColumnValue.id v = id)) values).1 ;;;
  ret true.

End Queries.







Definition update_value (id : Z) (value : string) (updatedAt : Date)
    : M Database (option ColumnValue) :=
  updateColumnValue (λ d, d) (λ d _, d) id value updatedAt.

End StorageOps.

(** ** The routes that delete a table and that read and write column values *)

Module RoutesOps.
Import Realtime Sheets Storage StorageOps Routes.

(** What these routes read of the request: [req.user?.id]; the [parseInt] of
    [req.params.id], [req.params.columnId] and [req.params.rowIndex] ([None]
    is [NaN]); and of [req.body] the [columnId] and the [rowIndex] when they
    are numbers and the [value] when it is a string ([None] otherwise). *)
Record Request : Type := {
  user : option Z;
  parsed_id : option Z;
  parsed_columnId : option Z;
  parsed_rowIndex : option Z;
  body_columnId : option number;
  body_rowIndex : option number;
  body_value : option string }.

(** [req.params.id] as the first query of a route takes it: [None] when it
    is [NaN] or out of the range of [integer], in which case that query
    throws. *)
Definition params_id (req : Request) : option Z := as_integer (parsed_id req).

Definition params_columnId (req : Request) : option Z := as_integer (parsed_columnId req).

(** A number of the body as a query takes it for a column of type
    [integer]: [None] when it is a fraction or out of the range of the type,
    in which case the query throws. *)
Definition integer_of (n : number) : option Z :=
  if isInteger n then as_integer (Some (Qnum (this n))) else None.

(** What [res.json] is given. *)
Inductive Body : Type :=
| Message (o : JsObject)
| Failure (text : string) (error : Error)  (* { message: text, error } *)
| OneValue (v : ColumnValue)
| Values (vs : list ColumnValue)
| EmptyValue (columnId rowIndex : Z)  (* { columnId, rowIndex, value: "" } *)
| Success (deleted : bool).           (* { success: deleted } *)

Record Response : Type := { status : Z; body : Body }.

Definition message (code : Z) (key text : string) : Response :=
  {| status := code; body := Message [(key, VStr text)] |}.

Definition failure (text : string) (error : Error) : Response :=
  {| status := 500; body := Failure text error |}.

Definition sheetData_value (sheetData : option SheetData) : Value :=
  match sheetData with Some sd => VSheetData sd | None => VUndefined end.

(** The row with the id of the path; the query throws when the id is [NaN]
    or out of range. *)
Definition value_by_id (valueId : option Z) : M App (list ColumnValue) :=
  match valueId with
  | Some id => gets (λ a, take 1 (filter (λ v, ColumnValue.id v = id) (columnValues (db a))))
  | None => throw DatabaseError
  end.

(** The routes below are written as they run when no query of another
    request comes between their awaits. *)
Section Handlers.
Context (world : World).


(** [POST /api/columns/values]; [createdAt] and [updatedAt] are the two
    [new Date()] of [saveColumnValue].  The numbers of the body reach the
    queries as they are: the lookup of the column takes [columnId], the
    lookup inside [saveColumnValue] takes [rowIndex]. *)
Definition post_column_value (createdAt updatedAt : Date) (req : Request) : M App Response :=
  try_catch
    (match user req with
     | None => ret (message 401 "message" "Not authenticated")
     | Some userId =>
         match body_columnId req, body_rowIndex req, body_value req with
         | Some columnId, Some rowIndex, Some value =>
             let* column := match integer_of columnId with
                            | Some columnId => getUserCustomColumn db columnId userId
                            | None => throw DatabaseError
                            end in
             match column with
             | None => ret (message 404 "message" "Column not found or you don't have access to it")
             | Some column =>
                 let* columnValue :=
                   match integer_of columnId, integer_of rowIndex with
                   | Some columnId, Some rowIndex =>
                       alone (saveColumnValue db set_db
                                {| ins_columnId := columnId; ins_rowIndex := rowIndex;
                                   ins_value := value |}
                                createdAt updatedAt)
                   | _, _ => throw DatabaseError
                   end in
                 let tableId := CustomColumn.tableId column in
                 let* table := getUserTable db tableId userId in
                 let* customColumns := getCustomColumns db tableId in
                 let* sheetData :=
                   match table with
                   | Some table =>
                       if decide (Table.googleSheetUrl table = EmptyString) then ret None
                       else let* fetched := fetchGoogleSheetData world (Table.googleSheetUrl table) in
                            ret (Some fetched)
                   | None => ret None
                   end in
                 realtime (broadcastTableUpdate (num tableId)
                   [("type", VStr "columnValueUpdated"); ("columnId", VNum columnId);
                    ("rowIndex", VNum rowIndex); ("value", VStr value);
                    ("customColumns", VColumns customColumns);
                    ("sheetData", sheetData_value sheetData)]) ;;;
                 match columnValue with
                 | Some columnValue => ret {| status := 201; body := OneValue columnValue |}
                 | None => ret {| status := 201; body := Message [] |}
                 end
             end
         | _, _, _ => ret (message 400 "message" "Invalid request data")
         end
     end)
    (λ error, ret (failure "Failed to save column value" error)).

(** [PATCH /api/columns/values/:id]; [updatedAt] is the [new Date()] of
    [updateColumnValue]. *)
Definition patch_column_value (updatedAt : Date) (req : Request) : M App Response :=
  try_catch
    (match user req with
     | None => ret (message 401 "message" "Not authenticated")
     | Some userId =>
         match body_value req with
         | None => ret (message 400 "message" "Invalid value")
         | Some value =>
             let* columnValue := value_by_id (params_id req) in
             match columnValue, params_id req with
             | found :: _, Some valueId =>
                 let* column := getUserCustomColumn db (ColumnValue.columnId found) userId in
                 match column with
                 | None => ret (message 403 "message" "You don't have access to update this value")
                 | Some _ =>
                     let* updatedValue := updateColumnValue db set_db valueId value updatedAt in
                     match updatedValue with
                     | None => ret (message 404 "message" "Column value not found")
                     | Some updatedValue => ret {| status := 200; body := OneValue updatedValue |}
                     end
                 end
             | _, _ => ret (message 404 "message" "Column value not found")
             end
         end
     end)
    (λ error, ret (failure "Failed to update column value" error)).

(** [DELETE /api/columns/values/:id] *)
Definition delete_column_value (req : Request) : M App Response :=
  try_catch
    (match user req with
     | None => ret (message 401 "message" "Not authenticated")
     | Some userId =>
         let* columnValue := value_by_id (params_id req) in
         match columnValue, params_id req with
         | found :: _, Some valueId =>
             let* column := getUserCustomColumn db (ColumnValue.columnId found) userId in
             match column with
             | None => ret (message 403 "message" "You don't have access to delete this value")
             | Some _ =>
                 let* deleted := deleteColumnValue db set_db valueId in
                 ret {| status := 200; body := Success deleted |}
             end
         | _, _ => ret (message 404 "message" "Column value not found")
         end
     end)
    (λ error, ret (failure "Failed to delete column value" error)).

(** [GET /api/columns/:columnId/values] *)
Definition get_column_values (req : Request) : M App Response :=
  try_catch
    (match user req with
     | None => ret (message 401 "message" "Not authenticated")
     | Some userId =>
         let* column := match params_columnId req with
                        | Some columnId => getUserCustomColumn db columnId userId
                        | None => throw DatabaseError
                        end in
         match column, params_columnId req with
         | Some _, Some columnId =>
             let* columnValues := getUserColumnValues db columnId userId in
             ret {| status := 200; body := Values columnValues |}
         | _, _ => ret (message 404 "message" "Column not found or you don't have access to it")
         end
     end)
    (λ error, ret (failure "Failed to fetch column values" error)).

(** [GET /api/columns/:columnId/values/:rowIndex] *)
Definition get_column_value (req : Request) : M App Response :=
  try_catch
    (match user req with
     | None => ret (message 401 "message" "Not authenticated")
     | Some userId =>
         match parsed_columnId req, parsed_rowIndex req with
         | Some columnId, Some rowIndex =>
             let* column := integer_param columnId ;;; getUserCustomColumn db columnId userId in
             match column with
             | None => ret (message 404 "error" "Column not found or you don't have access to it")
             | Some _ =>
                 let* value := integer_param rowIndex ;;;
                               getUserColumnValue db columnId rowIndex userId in
                 match value with
                 | Some value => ret {| status := 200; body := OneValue value |}
                 | None => ret {| status := 200; body := EmptyValue columnId rowIndex |}
                 end
             end
         | _, _ => ret (message 400 "error" "Invalid column ID or row index")
         end
     end)
    (λ error, ret (message 500 "error" "Failed to fetch column value")).

End Handlers.

End RoutesOps.

(** ** Further vocabulary *)

Module Terms.
Import Realtime.

(** The confirmation the unsubscribe branch sends. *)
Definition unsubscribed_message (tableId : number) : JsObject :=
  [("type", VStr "unsubscribed"); ("tableId", VNum tableId)].

(** The message the deletion of a table sends. *)
Definition tableDeleted_message (tableId : number) : JsObject :=
  [("type", VStr "tableDeleted"); ("tableId", VNum tableId);
   ("message", VStr "Table was deleted")].

(** The last value a list of properties gives to a key. *)
Definition last_binding (k : string) (data : JsObject) : option Value :=
  foldl (λ found kv, if decide (kv.1 = k) then Some kv.2 else found) None data.

(** A tracked socket that has not been marked by the sweep. *)
Definition alive (s : Server) (c : Conn) : Prop :=
  isAlive <$> clients s !! c = Some true.

Global Instance alive_dec s c : Decision (alive s c).
Proof. unfold alive. apply _. Defined.

(** No event of [events] is the closure of [c] or a round of the sweep. *)
Definition undisturbed (c : Conn) (events : list Event) : Prop :=
  ∀ e, e ∈ events → e ≠ EvClose c ∧ e ≠ EvPingInterval.

(** Socket 1 subscribed to table 42, then marked by one round of the sweep. *)
Definition probed_state : Server := exec sweep subscribed_state.

End Terms.

Import Terms.

(** ** Vocabulary of the fetcher *)

Module SheetTerms.

(** Every character of the string is of the class of the sheet-id pattern. *)
Fixpoint all_in_class (s : string) : bool :=
  match s with
  | EmptyString => true
  | String a rest => Sheets.word_or_hyphen a && all_in_class rest
  end.

(** Every row has a cell under every header. *)
Definition rows_cover_headers (snapshot : SheetData) : Prop :=
  Forall (λ row, (length (headers snapshot) ≤ length row)%nat) (rows snapshot).

End SheetTerms.

Import SheetTerms.

(** ** Vocabulary of the store *)

Module StoreTerms.
Import Storage.



(** Table 42 of user 7 with column 5, which has a value for row 3; table 43
    of user 8 with column 6, which has a value for row 0. *)
Definition two_tables_db : Database :=
  mkDb [Table.mk 42 7 "Orders" sheet_url JNull (Some 10) (Some 10);
        Table.mk 43 8 "Stock" sheet_url JNull (Some 11) (Some 11)]
       [CustomColumn.mk 5 42 "Status" "text" (Some 12);
        CustomColumn.mk 6 43 "Due" "date" (Some 13)]
       [ColumnValue.mk 1 5 3 "todo" (Some 14) (Some 14);
        ColumnValue.mk 2 6 0 "soon" (Some 15) (Some 15)]
       2.


End StoreTerms.

Import StoreTerms.

(** ** Vocabulary of the routes *)

Module RouteTerms.
Import Storage StorageOps.

(** The table a request is about, when the requester owns it. *)
Definition table_of_request (d : Database) (user params_id : option Z) : option Table :=
  match user, params_id with
  | Some userId, Some tableId =>
      head (filter (λ t, Table.id t = tableId ∧ Table.userId t = userId) (tables d))
  | _, _ => None
  end.

(** What [getUserCustomColumn] finds. *)
Definition column_of_user (d : Database) (columnId userId : Z) : option CustomColumn :=
  fst <$> head (filter (λ ct, CustomColumn.id ct.1 = columnId ∧ Table.userId ct.2 = userId)
                  (innerJoin (λ c t, bool_decide (CustomColumn.tableId c = Table.id t))
                             (customColumns d) (tables d))).

(** The column is stored and its table is a stored table of the user. *)
Definition user_has_column (d : Database) (userId : Z) (c : CustomColumn) : Prop :=
  c ∈ customColumns d ∧
  ∃ t, t ∈ tables d ∧ Table.id t = CustomColumn.tableId c ∧ Table.userId t = userId.

(** The app with [two_tables_db] and socket 1 subscribed to table 42. *)
Definition two_tables_app : Routes.App := Routes.mkApp two_tables_db subscribed_state.

(** User 7 addresses the value with id [valueId], of column [columnId] and
    row [rowIndex], in the path and in the body, and sends the text "done". *)
Definition value_request (valueId columnId rowIndex : Z) : RoutesOps.Request :=
  {| RoutesOps.user := Some 7; RoutesOps.parsed_id := Some valueId;
     RoutesOps.parsed_columnId := Some columnId; RoutesOps.parsed_rowIndex := Some rowIndex;
     RoutesOps.body_columnId := Some (num columnId); RoutesOps.body_rowIndex := Some (num rowIndex);
     RoutesOps.body_value := Some "done" |}.

(** User 8 asks for table 42 to be read again. *)
Definition foreign_request : Routes.Request :=
  {| Routes.user := Some 8; Routes.parsed_id := Some 42; Routes.query_refresh := Some "true" |}.

End RouteTerms.

Import RouteTerms.

(** Case analysis on the membership in a list that is written out. *)
Ltac in_list H :=
  repeat (apply elem_of_cons in H as [H|H]; [subst|]); try (by apply elem_of_nil in H).
(** * Properties *)

(** ** The real-time layer, handler by handler *)

Section RealtimeHandlers.
Import Realtime.

Ltac run_handler :=
  unfold exec, subscribe, unsubscribe, onConnection, onPong, onClose, tableDeleted,
    update_client, update_subscriptions, send, ping,
    Js.bind, Js.ret, Js.modify, Js.gets, Js.lift, Js.throw, Js.try_catch; simpl.

Lemma lookup_remove_subscriber c t m t' :
  remove_subscriber c t m !! t' = if decide (t = t') then pruned c (m !! t) else m !! t'.
Proof.
  unfold remove_subscriber, pruned.
  rewrite lookup_alter_eq.
  destruct (m !! t) as [subs|] eqn:Hm; simpl.
  - destruct (decide (subs ∖ {[c]} = ∅)) as [He|He].
    + rewrite He, size_empty. simpl.
      destruct (decide (t = t')) as [->|Hne].
      * by rewrite lookup_delete_eq.
      * rewrite lookup_delete_ne by done. by rewrite lookup_alter_ne.
    + destruct (decide (size (subs ∖ {[c]}) = 0%nat)) as [Hz|Hz].
      { apply size_empty_inv in Hz. apply leibniz_equiv in Hz. done. }
      destruct (decide (t = t')) as [->|Hne].
      * by rewrite lookup_alter_eq, Hm.
      * by rewrite lookup_alter_ne.
  - destruct (decide (t = t')) as [->|Hne].
    + by rewrite lookup_alter_eq, Hm.
    + by rewrite lookup_alter_ne.
Qed.

Lemma pruned_idemp c entry : pruned c (pruned c entry) = pruned c entry.
Proof.
  unfold pruned. destruct entry as [subs|]; [|done].
  destruct (decide (subs ∖ {[c]} = ∅)) as [|Hne]; [done|].
  assert (subs ∖ {[c]} ∖ {[c]} = subs ∖ {[c]}) as -> by (apply set_eq; intros x; set_unfold; tauto).
  by rewrite decide_False.
Qed.

Lemma pruned_spec c entry subs :
  pruned c entry = Some subs ↔ ∃ old, entry = Some old ∧ subs = old ∖ {[c]} ∧ subs ≠ ∅.
Proof.
  unfold pruned. destruct entry as [old|].
  - destruct (decide (old ∖ {[c]} = ∅)) as [He|He]; split.
    + done.
    + intros (old' & [= <-] & -> & Hne). done.
    + intros [= <-]. eauto.
    + intros (old' & [= <-] & -> & _). done.
  - split; [done|]. by intros (? & ? & _).
Qed.

(** The state after the subscribe branch. *)
Lemma exec_subscribe c t s :
  exec (subscribe c t) s =
  mkServer
    (alter (λ ws, mkWs (readyState ws) (isAlive ws) ({[t]} ∪ subscribedTables ws)) c (clients s))
    (<[t := {[c]} ∪ subscribers_of s t]> (tableSubscriptions s))
    (sent s ++ [(c, TextFrame [("type", VStr "subscribed"); ("tableId", VNum t);
                               ("message", VStr "Successfully subscribed to real-time updates")])]).
Proof.
  run_handler. f_equal. apply map_eq. intros t'. unfold subscribers_of.
  destruct (decide (t = t')) as [->|Hne].
  - rewrite lookup_alter_eq, lookup_insert_eq.
    destruct (decide (is_Some (tableSubscriptions s !! t'))) as [[subs Hs]|Hn].
    + by rewrite Hs.
    + rewrite lookup_insert_eq. apply eq_None_not_Some in Hn. by rewrite Hn.
  - rewrite lookup_alter_ne, lookup_insert_ne by done.
    destruct (decide (is_Some (tableSubscriptions s !! t))); [done|].
    by rewrite lookup_insert_ne.
Qed.

(** The state after the unsubscribe branch. *)
Lemma exec_unsubscribe c t s :
  exec (unsubscribe c t) s =
  mkServer
    (alter (λ ws, mkWs (readyState ws) (isAlive ws) (subscribedTables ws ∖ {[t]})) c (clients s))
    (remove_subscriber c t (tableSubscriptions s))
    (sent s ++ [(c, TextFrame [("type", VStr "unsubscribed"); ("tableId", VNum t)])]).
Proof. reflexivity. Qed.

Lemma forEach_normal {A} (f : A → H unit) l s :
  (∀ x s', (f x s').1 = Normal tt) → (forEach l f s).1 = Normal tt.
Proof.
  intros Hf. revert s. induction l as [|x l IH]; intros s; simpl; [done|].
  unfold Js.bind. specialize (Hf x s). destruct (f x s) as [[[]|e] s']; simpl in *; [|done].
  apply IH.
Qed.

Lemma exec_forEach_cons {A} (f : A → H unit) x l s :
  (f x s).1 = Normal tt → exec (forEach (x :: l) f) s = exec (forEach l f) (exec (f x) s).
Proof.
  unfold exec. simpl. unfold Js.bind. destruct (f x s) as [[[]|e] s']; simpl; [done|done].
Qed.

Lemma exec_forEach_subscriptions {A} (g : A → gmap number (gset Conn) → gmap number (gset Conn)) l s :
  forEach l (λ x, update_subscriptions (g x)) s =
  (Normal tt, mkServer (clients s) (foldl (λ m x, g x m) (tableSubscriptions s) l) (sent s)).
Proof.
  revert s. induction l as [|x l IH]; intros s; simpl.
  - by destruct s.
  - unfold Js.bind. simpl. by rewrite IH.
Qed.

Lemma lookup_remove_all c l m t :
  foldl (λ m t, remove_subscriber c t m) m l !! t =
  if decide (t ∈ l) then pruned c (m !! t) else m !! t.
Proof.
  revert m. induction l as [|t0 l IH]; intros m; cbn [foldl].
  - rewrite decide_False; [done|]. by intros ?%elem_of_nil.
  - rewrite IH, lookup_remove_subscriber.
    destruct (decide (t0 = t)) as [->|Hne].
    + rewrite (decide_True (P := t ∈ t :: l)) by apply list_elem_of_here.
      destruct (decide (t ∈ l)); [apply pruned_idemp|done].
    + destruct (decide (t ∈ l)) as [Hin|Hnin].
      * by rewrite decide_True by (by apply list_elem_of_further).
      * rewrite decide_False; [done|]. intros [?|?]%elem_of_cons; done.
Qed.

(** The state after a socket has closed. *)
Lemma exec_onClose c s :
  exec (onClose c) s =
  mkServer (delete c (clients s))
    (foldl (λ m t, remove_subscriber c t m) (tableSubscriptions s)
       (match clients s !! c with Some ws => elements (subscribedTables ws) | None => [] end))
    (sent s).
Proof.
  unfold exec, onClose, Js.bind, Js.gets, Js.modify. simpl.
  by rewrite exec_forEach_subscriptions.
Qed.

Lemma lookup_onClose c s t :
  tableSubscriptions (exec (onClose c) s) !! t =
  match clients s !! c with
  | Some ws => if decide (t ∈ subscribedTables ws) then pruned c (tableSubscriptions s !! t)
               else tableSubscriptions s !! t
  | None => tableSubscriptions s !! t
  end.
Proof.
  rewrite exec_onClose. simpl. rewrite lookup_remove_all.
  destruct (clients s !! c) as [ws|].
  - destruct (decide (t ∈ subscribedTables ws)) as [Hin|Hnin].
    + by rewrite decide_True by (by apply elem_of_elements).
    + rewrite decide_False; [done|]. by intros ?%elem_of_elements.
  - rewrite decide_False; [done|]. by intros ?%elem_of_nil.
Qed.

(** One round of the sweep on the sockets of [l]. *)
Lemma sweep_client_normal c s : (sweep_client c s).1 = Normal tt.
Proof.
  unfold sweep_client, Js.bind, Js.gets. simpl.
  by destruct (isAlive <$> clients s !! c) as [[]|].
Qed.

Lemma exec_sweep_client c s :
  exec (sweep_client c) s =
  mkServer (alter swept c (clients s)) (tableSubscriptions s)
           (sent s ++ if decide (isAlive <$> clients s !! c = Some false) then [] else [(c, PingFrame)]).
Proof.
  unfold exec, sweep_client, Js.bind, Js.gets. simpl.
  destruct (clients s !! c) as [ws|] eqn:Hc; simpl.
  - destruct (isAlive ws) eqn:Ha; simpl; unfold update_client, ping, Js.bind, Js.modify; simpl.
    + f_equal. apply map_eq. intros c'. destruct (decide (c = c')) as [->|Hne].
      * rewrite !lookup_alter_eq, Hc. simpl. unfold swept. by rewrite Ha.
      * by rewrite !lookup_alter_ne.
    + rewrite app_nil_r. f_equal. apply map_eq. intros c'. destruct (decide (c = c')) as [->|Hne].
      * rewrite !lookup_alter_eq, Hc. simpl. unfold swept. by rewrite Ha.
      * by rewrite !lookup_alter_ne.
  - unfold update_client, ping, Js.bind, Js.modify; simpl. f_equal.
    apply map_eq. intros c'. destruct (decide (c = c')) as [->|Hne].
    + by rewrite !lookup_alter_eq, Hc.
    + by rewrite !lookup_alter_ne.
Qed.

Lemma sweep_list l s :
  NoDup l →
  (∀ c, clients (exec (forEach l sweep_client) s) !! c =
        if decide (c ∈ l) then swept <$> clients s !! c else clients s !! c) ∧
  tableSubscriptions (exec (forEach l sweep_client) s) = tableSubscriptions s.
Proof.
  intros Hnd. revert s. induction Hnd as [|c0 l Hnin Hnd IH]; intros s.
  - split; [|done]. intros c. rewrite decide_False; [done|]. by intros ?%elem_of_nil.
  - rewrite exec_forEach_cons by apply sweep_client_normal.
    destruct (IH (exec (sweep_client c0) s)) as [IHc IHt]. split.
    + intros c. rewrite IHc, exec_sweep_client. simpl.
      destruct (decide (c0 = c)) as [->|Hne].
      * rewrite decide_False by done. rewrite decide_True by apply list_elem_of_here.
        by rewrite lookup_alter_eq.
      * rewrite lookup_alter_ne by done.
        destruct (decide (c ∈ l)) as [Hin|Hn].
        -- by rewrite decide_True by (by apply list_elem_of_further).
        -- rewrite decide_False; [done|]. intros [?|?]%elem_of_cons; done.
    + rewrite IHt. by rewrite exec_sweep_client.
Qed.

(** The registry after a sweep: every tracked socket has had its round. *)
Lemma clients_sweep s : clients (exec sweep s) = swept <$> clients s.
Proof.
  unfold sweep. unfold exec at 1. unfold Js.bind, Js.gets. simpl.
  destruct (sweep_list (elements (dom (clients s))) s (NoDup_elements _)) as [Hc _].
  apply map_eq. intros c. unfold exec in Hc. rewrite Hc, lookup_fmap.
  destruct (decide (c ∈ elements (dom (clients s)))) as [|Hn]; [done|].
  rewrite elem_of_elements, elem_of_dom in Hn.
  apply eq_None_not_Some in Hn. by rewrite Hn.
Qed.

Lemma tableSubscriptions_sweep s : tableSubscriptions (exec sweep s) = tableSubscriptions s.
Proof.
  unfold sweep. unfold exec at 1. unfold Js.bind, Js.gets. simpl.
  by destruct (sweep_list (elements (dom (clients s))) s (NoDup_elements _)) as [_ Ht].
Qed.

(** A broadcast only hands frames over: one to each open subscriber. *)
Lemma send_all_open message l s :
  forEach l (λ client,
      let* state := Js.gets (λ s, readyState_of s client) in
      if decide (state = OPEN) then send client message else Js.ret tt) s =
  (Normal tt,
   mkServer (clients s) (tableSubscriptions s)
     (sent s ++ ((λ c, (c, TextFrame (JSON_stringify message))) <$>
                 filter (λ c, readyState_of s c = OPEN) l))).
Proof.
  revert s. induction l as [|c l IH]; intros s; cbn [forEach].
  - unfold Js.ret. rewrite filter_nil. simpl. rewrite app_nil_r. by destruct s.
  - unfold Js.bind at 1. unfold Js.bind at 1. unfold Js.gets. cbn [fst snd].
    rewrite filter_cons.
    destruct (decide (readyState_of s c = OPEN)) as [Ho|Hn].
    + unfold send at 1, Js.modify. rewrite IH. cbn [clients tableSubscriptions sent].
      rewrite fmap_cons, <- app_assoc. done.
    + unfold Js.ret at 1. by rewrite IH.
Qed.

Lemma exec_broadcast t data s :
  broadcastTableUpdate t data s =
  (Normal tt, mkServer (clients s) (tableSubscriptions s) (sent s ++ deliveries s t data)).
Proof.
  unfold broadcastTableUpdate, deliveries, recipients, subscribers_of, update_message.
  unfold Js.bind at 1. unfold Js.gets. cbn [fst snd].
  destruct (tableSubscriptions s !! t) as [subs|] eqn:Hs; simpl.
  - destruct (decide (size subs = 0%nat)) as [Hz|Hz].
    + apply size_empty_inv, leibniz_equiv in Hz. subst subs.
      rewrite elements_empty, filter_nil. simpl. rewrite app_nil_r. by destruct s.
    + by rewrite send_all_open.
  - rewrite elements_empty, filter_nil. simpl. rewrite app_nil_r. by destruct s.
Qed.

Lemma exec_tableDeleted t s :
  tableDeleted t s =
  (Normal tt,
   mkServer (clients s) (delete t (tableSubscriptions s))
     (sent s ++ deliveries s t [("type", VStr "tableDeleted"); ("message", VStr "Table was deleted")])).
Proof. unfold tableDeleted, Js.bind. by rewrite exec_broadcast. Qed.

(** *** The message handler, case by case *)

Lemma onMessage_subscribe c data t s :
  get data "type" = Normal (Some (JStr "subscribe")) →
  get data "tableId" = Normal (Some (JNum t)) →
  onMessage c (Normal data) s = subscribe c t s.
Proof.
  intros Hty Hid. unfold onMessage, request, Js.try_catch, Js.bind, Js.lift, Js.ret.
  rewrite Hty, Hid. simpl. done.
Qed.

Lemma onMessage_unsubscribe c data t s :
  get data "type" = Normal (Some (JStr "unsubscribe")) →
  get data "tableId" = Normal (Some (JNum t)) →
  onMessage c (Normal data) s = unsubscribe c t s.
Proof.
  intros Hty Hid. unfold onMessage, request, Js.try_catch, Js.bind, Js.lift, Js.ret.
  rewrite Hty, Hid. simpl. done.
Qed.

Lemma onMessage_unparsed c e s : onMessage c (Throw e) s = (Normal tt, s).
Proof. reflexivity. Qed.

Lemma onMessage_other_type c data s :
  ¬ type_is data "subscribe" → ¬ type_is data "unsubscribe" →
  onMessage c (Normal data) s = (Normal tt, s).
Proof.
  unfold type_is. intros Hs Hu.
  unfold onMessage, request, Js.try_catch, Js.bind, Js.lift, Js.ret.
  destruct (get data "type") as [[[| | |ty| |]|]|e]; simpl; try done.
  repeat case_bool_decide; subst; simpl; try done.
Qed.

Lemma onMessage_no_number c data s :
  ¬ tableId_is_number data → onMessage c (Normal data) s = (Normal tt, s).
Proof.
  unfold tableId_is_number. intros Hn.
  unfold onMessage, request, Js.try_catch, Js.bind, Js.lift, Js.ret.
  destruct (get data "type") as [ty|e]; simpl; [|done].
  destruct (get data "tableId") as [[[| |n| | |]|]|e]; simpl;
    try (by destruct (strict_eq_str ty "subscribe"), (strict_eq_str ty "unsubscribe")).
  destruct Hn. eauto.
Qed.

(** Every message is one of the three cases. *)
Lemma onMessage_cases c message s :
  onMessage c message s = (Normal tt, s) ∨
  (∃ t, onMessage c message s = subscribe c t s) ∨
  (∃ t, onMessage c message s = unsubscribe c t s).
Proof.
  destruct message as [data|e]; [|by left].
  destruct (get data "tableId") as [[[| |n| | |]|]|err] eqn:Hid;
    try (left; apply onMessage_no_number; intros [n' Hn']; congruence).
  destruct (get data "type") as [[[| | |ty| |]|]|err] eqn:Hty;
    try (left; apply onMessage_other_type; unfold type_is; congruence).
  destruct (decide (ty = "subscribe")) as [->|Hs].
  { right. left. exists n. by apply onMessage_subscribe. }
  destruct (decide (ty = "unsubscribe")) as [->|Hu].
  { right. right. exists n. by apply onMessage_unsubscribe. }
  left. apply onMessage_other_type; unfold type_is; congruence.
Qed.

(** No handler ends by throwing. *)
Lemma handler_normal e s : (handler e s).1 = Normal tt.
Proof.
  destruct e as [c|c|c message|c| |t data|t]; simpl; try done.
  - destruct (onMessage_cases c message s) as [->|[[t ->]|[t ->]]]; done.
  - unfold onClose, Js.bind, Js.gets. simpl. by rewrite exec_forEach_subscriptions.
  - unfold sweep, Js.bind, Js.gets. simpl. apply forEach_normal. intros; apply sweep_client_normal.
  - by rewrite exec_broadcast.
  - by rewrite exec_tableDeleted.
Qed.

End RealtimeHandlers.

(** ** Invariants of the reachable states *)

Section RealtimeInvariants.
Import Realtime.

Lemma in_router_lookup s c t :
  in_router s c t ↔ ∃ subs, tableSubscriptions s !! t = Some subs ∧ c ∈ subs.
Proof.
  unfold in_router, subscribers_of. destruct (tableSubscriptions s !! t) as [subs|]; simpl.
  - split; [eauto|]. by intros (? & [= <-] & ?).
  - split; [by intros ?%not_elem_of_empty|]. by intros (? & ? & _).
Qed.

Lemma elem_of_pruned c c' entry :
  c' ∈ default ∅ (pruned c entry) ↔ c' ≠ c ∧ c' ∈ default (∅ : gset Conn) entry.
Proof.
  unfold pruned. destruct entry as [subs|]; simpl.
  - destruct (decide (subs ∖ {[c]} = ∅)) as [He|He]; simpl.
    + split; [by intros ?%not_elem_of_empty|]. intros [Hne Hin].
      assert (c' ∈ subs ∖ {[c]}) as Hd.
      { apply elem_of_difference. split; [done|]. by rewrite elem_of_singleton. }
      rewrite He in Hd. by apply not_elem_of_empty in Hd.
    + rewrite elem_of_difference, elem_of_singleton. tauto.
  - split; [by intros ?%not_elem_of_empty|]. by intros [_ ?%not_elem_of_empty].
Qed.

Lemma pruned_not_empty c entry subs : pruned c entry = Some subs → subs ≠ ∅.
Proof. intros (old & _ & _ & ?)%pruned_spec. done. Qed.

Lemma inv_init : inv init.
Proof.
  split.
  - intros c t Hr. apply in_router_lookup in Hr as (subs & Hl & _). simpl in Hl. by rewrite lookup_empty in Hl.
  - intros t subs Hl. simpl in Hl. by rewrite lookup_empty in Hl.
Qed.

Lemma inv_subscribe c t s :
  is_Some (clients s !! c) → inv s → inv (exec (subscribe c t) s).
Proof.
  intros [ws Hc] [Hr He]. rewrite exec_subscribe. split.
  - intros c' t' Hin. unfold in_router, subscribers_of in Hin. simpl in Hin.
    unfold in_local. simpl.
    destruct (decide (t = t')) as [<-|Hne].
    + rewrite lookup_insert_eq in Hin. simpl in Hin.
      apply elem_of_union in Hin as [->%elem_of_singleton|Hin].
      * rewrite lookup_alter_eq, Hc. simpl. eexists. split; [done|]. simpl. set_solver.
      * destruct (Hr c' t Hin) as (ws' & Hc' & Ht).
        destruct (decide (c = c')) as [<-|Hnc].
        -- rewrite lookup_alter_eq, Hc. simpl. eexists. split; [done|]. simpl. set_solver.
        -- rewrite lookup_alter_ne by done. eauto.
    + rewrite lookup_insert_ne in Hin by done.
      destruct (Hr c' t' Hin) as (ws' & Hc' & Ht).
      destruct (decide (c = c')) as [<-|Hnc].
      * rewrite lookup_alter_eq, Hc'. simpl. eexists. split; [done|]. simpl. set_solver.
      * rewrite lookup_alter_ne by done. eauto.
  - intros t' subs. simpl. destruct (decide (t = t')) as [<-|Hne].
    + rewrite lookup_insert_eq. intros [= <-]. set_solver.
    + rewrite lookup_insert_ne by done. apply He.
Qed.

Lemma inv_unsubscribe c t s : inv s → inv (exec (unsubscribe c t) s).
Proof.
  intros [Hr He]. rewrite exec_unsubscribe. split.
  - intros c' t' Hin. unfold in_router, subscribers_of in Hin. simpl in Hin.
    rewrite lookup_remove_subscriber in Hin. unfold in_local. simpl.
    destruct (decide (t = t')) as [<-|Hne].
    + apply elem_of_pruned in Hin as [Hnc Hin].
      destruct (Hr c' t Hin) as (ws' & Hc' & Ht).
      rewrite lookup_alter_ne by done. eauto.
    + destruct (Hr c' t' Hin) as (ws' & Hc' & Ht).
      destruct (decide (c = c')) as [<-|Hnc].
      * rewrite lookup_alter_eq, Hc'. simpl. eexists. split; [done|]. simpl. set_solver.
      * rewrite lookup_alter_ne by done. eauto.
  - intros t' subs. simpl. rewrite lookup_remove_subscriber.
    destruct (decide (t = t')) as [<-|Hne]; [apply pruned_not_empty|apply He].
Qed.

Lemma inv_onClose c s : inv s → inv (exec (onClose c) s).
Proof.
  intros [Hr He]. split.
  - intros c' t' Hin. unfold in_router, subscribers_of in Hin.
    rewrite lookup_onClose in Hin. unfold in_local. rewrite exec_onClose. simpl.
    assert (c' ≠ c ∧ in_router s c' t') as [Hnc Hin'].
    { destruct (clients s !! c) as [ws|] eqn:Hc.
      - destruct (decide (t' ∈ subscribedTables ws)) as [Ht|Ht].
        + by apply elem_of_pruned in Hin.
        + split; [|done]. intros ->. destruct (Hr c t' Hin) as (ws' & Hc' & Ht'). naive_solver.
      - split; [|done]. intros ->. destruct (Hr c t' Hin) as (ws' & Hc' & Ht'). naive_solver. }
    destruct (Hr c' t' Hin') as (ws' & Hc' & Ht).
    rewrite lookup_delete_ne by done. eauto.
  - intros t' subs. rewrite lookup_onClose.
    destruct (clients s !! c) as [ws|]; [|apply He].
    destruct (decide (t' ∈ subscribedTables ws)); [apply pruned_not_empty|apply He].
Qed.

Lemma inv_step e s : enabled e s → inv s → inv (exec (handler e) s).
Proof.
  intros Hen Hinv. destruct e as [c|c|c message|c| |t data|t]; simpl in *.
  - (* connection *)
    destruct Hinv as [Hr He]. split; [|done].
    intros c' t' Hin. destruct (Hr c' t' Hin) as (ws' & Hc' & Ht).
    exists ws'. split; [|done]. unfold exec, onConnection, Js.modify. simpl.
    rewrite lookup_insert_ne; [done|]. intros <-. congruence.
  - (* pong *)
    destruct Hinv as [Hr He]. split; [|done].
    intros c' t' Hin. destruct (Hr c' t' Hin) as (ws' & Hc' & Ht).
    unfold in_local, exec, onPong, update_client, Js.modify. simpl.
    destruct (decide (c = c')) as [<-|Hnc].
    + rewrite lookup_alter_eq, Hc'. simpl. eauto.
    + rewrite lookup_alter_ne by done. eauto.
  - (* message *)
    unfold exec.
    destruct (onMessage_cases c message s) as [->|[[t ->]|[t ->]]]; simpl; [done| |].
    + by apply inv_subscribe.
    + by apply inv_unsubscribe.
  - by apply inv_onClose.
  - (* sweep *)
    destruct Hinv as [Hr He]. split.
    + intros c' t' Hin. unfold in_router, subscribers_of in Hin.
      rewrite tableSubscriptions_sweep in Hin.
      destruct (Hr c' t' Hin) as (ws' & Hc' & Ht).
      exists (swept ws'). rewrite clients_sweep, lookup_fmap, Hc'. split; [done|].
      unfold swept, terminate. by destruct (isAlive ws'), (readyState ws').
    + intros t' subs. rewrite tableSubscriptions_sweep. apply He.
  - unfold exec. by rewrite exec_broadcast.
  - (* table deleted *)
    unfold exec. rewrite exec_tableDeleted. simpl.
    destruct Hinv as [Hr He]. split.
    + intros c' t' Hin. apply in_router_lookup in Hin as (subs & Hl & Hin). simpl in Hl.
      apply lookup_delete_Some in Hl as [_ Hl].
      apply (Hr c' t'). apply in_router_lookup. eauto.
    + intros t' subs Hl. simpl in Hl. apply lookup_delete_Some in Hl as [_ Hl]. by apply (He t').
Qed.

Lemma run_snoc events e s s' :
  run (events ++ [e]) s = Some s' ↔
  ∃ s0, run events s = Some s0 ∧ enabled e s0 ∧ s' = exec (handler e) s0.
Proof.
  revert s. induction events as [|e0 events IH]; intros s; simpl.
  - destruct (decide (enabled e s)) as [Hen|Hen].
    + split; [intros [= <-]; eauto|]. by intros (? & [= <-] & _ & ->).
    + split; [done|]. by intros (? & [= <-] & ? & _).
  - destruct (decide (enabled e0 s)); [apply IH|].
    split; [done|]. by intros (? & ? & _).
Qed.

Lemma inv_run events s : run events init = Some s → inv s.
Proof.
  revert s. induction events as [|e events IH] using rev_ind; intros s.
  - intros [= <-]. apply inv_init.
  - intros (s0 & Hrun & Hen & ->)%run_snoc. apply inv_step; auto.
Qed.

Lemma inv_reachable s : reachable s → inv s.
Proof. intros [events Hrun]. by apply inv_run in Hrun. Qed.

(** The direction from a socket's own set to the router survives every
    event except the deletion of that very table. *)
Lemma local_sound_step e s t :
  e ≠ EvTableDeleted t → enabled e s → local_sound_at s t →
  local_sound_at (exec (handler e) s) t.
Proof.
  intros Hdel Hen Hl c' (ws' & Hc' & Ht'). unfold in_router, subscribers_of.
  destruct e as [c|c|c message|c| |t0 data|t0]; simpl in *.
  - (* connection *)
    unfold exec, onConnection, Js.modify in *. simpl in *.
    destruct (decide (c = c')) as [<-|Hnc].
    + rewrite lookup_insert_eq in Hc'. injection Hc' as <-. simpl in Ht'. set_solver.
    + rewrite lookup_insert_ne in Hc' by done. apply (Hl c'). by exists ws'.
  - (* pong *)
    unfold exec, onPong, update_client, Js.modify in *. simpl in *.
    apply (Hl c').
    destruct (decide (c = c')) as [<-|Hnc].
    + rewrite lookup_alter_eq in Hc'. destruct (clients s !! c) as [ws|] eqn:Hc; [|done].
      injection Hc' as <-. by exists ws.
    + rewrite lookup_alter_ne in Hc' by done. by exists ws'.
  - (* message *)
    unfold exec in *.
    destruct (onMessage_cases c message s) as [Heq|[[t0 Heq]|[t0 Heq]]];
      rewrite Heq in *; clear Heq.
    + apply (Hl c'). by exists ws'.
    + fold (exec (subscribe c t0) s) in *. rewrite exec_subscribe in *. simpl in *.
      destruct (decide (c = c')) as [<-|Hnc].
      * rewrite lookup_alter_eq in Hc'. destruct (clients s !! c) as [ws|] eqn:Hc; [|done].
        injection Hc' as <-. simpl in Ht'.
        destruct (decide (t0 = t)) as [->|Hnt].
        -- rewrite lookup_insert_eq. simpl. apply elem_of_union. left.
           by apply elem_of_singleton.
        -- rewrite lookup_insert_ne by done. apply (Hl c).
           exists ws. split; [done|].
           apply elem_of_union in Ht' as [Ht'|Ht']; [|done].
           apply elem_of_singleton in Ht'. congruence.
      * rewrite lookup_alter_ne in Hc' by done.
        assert (in_router s c' t) as Hin by (apply Hl; by exists ws').
        destruct (decide (t0 = t)) as [->|Hnt].
        -- rewrite lookup_insert_eq. simpl. apply elem_of_union. by right.
        -- by rewrite lookup_insert_ne by done.
    + fold (exec (unsubscribe c t0) s) in *. rewrite exec_unsubscribe in *. simpl in *.
      rewrite lookup_remove_subscriber.
      destruct (decide (c = c')) as [<-|Hnc].
      * rewrite lookup_alter_eq in Hc'. destruct (clients s !! c) as [ws|] eqn:Hc; [|done].
        injection Hc' as <-. simpl in Ht'. apply elem_of_difference in Ht' as [Ht' Hnt].
        rewrite decide_False by set_solver. apply (Hl c). by exists ws.
      * rewrite lookup_alter_ne in Hc' by done.
        assert (in_router s c' t) as Hin by (apply Hl; by exists ws').
        destruct (decide (t0 = t)) as [->|Hnt]; [|done].
        apply elem_of_pruned. split; [done|apply Hin].
  - (* close *)
    rewrite exec_onClose in Hc'. simpl in Hc'.
    apply lookup_delete_Some in Hc' as [Hnc Hc'].
    assert (in_router s c' t) as Hin by (apply Hl; by exists ws').
    rewrite lookup_onClose.
    destruct (clients s !! c) as [ws|]; [|done].
    destruct (decide (t ∈ subscribedTables ws)); [|done].
    apply elem_of_pruned. split; [done|apply Hin].
  - (* sweep *)
    rewrite clients_sweep, lookup_fmap in Hc'. rewrite tableSubscriptions_sweep.
    destruct (clients s !! c') as [ws|] eqn:Hc; [|done]. injection Hc' as <-.
    apply (Hl c'). exists ws. split; [done|].
    unfold swept, terminate in Ht'. by destruct (isAlive ws), (readyState ws).
  - (* broadcast *)
    unfold exec in *. rewrite exec_broadcast in *. simpl in *.
    apply (Hl c'). by exists ws'.
  - (* another table deleted *)
    unfold exec in *. rewrite exec_tableDeleted in *. simpl in *.
    rewrite lookup_delete_ne by congruence.
    apply (Hl c'). by exists ws'.
Qed.

Lemma local_sound_run events s t :
  EvTableDeleted t ∉ events → run events init = Some s → local_sound_at s t.
Proof.
  revert s. induction events as [|e events IH] using rev_ind; intros s Hnd.
  - intros [= <-] c (ws & Hc & _). simpl in Hc. by rewrite lookup_empty in Hc.
  - intros (s0 & Hrun & Hen & ->)%run_snoc.
    apply local_sound_step; [|done|].
    + intros ->. apply Hnd, elem_of_app. right. apply list_elem_of_here.
    + apply IH; [|done]. intros Hin. apply Hnd, elem_of_app. by left.
Qed.

(** C1, as stated, fails: on [deletion_trace] socket 1 still has table 42
    in its own set, while the router no longer lists anyone for that table. *)
Lemma symmetry_broken_by_table_deletion :
  ∃ s, run deletion_trace init = Some s ∧
       in_local s 1%nat (num 42) ∧ ¬ in_router s 1%nat (num 42) ∧ ¬ symmetric s.
Proof.
  assert (run deletion_trace init =
          Some (exec (tableDeleted (num 42))
                  (exec (subscribe 1%nat (num 42)) (exec (onConnection 1%nat) init)))) as Hrun.
  { unfold deletion_trace. cbn [run].
    rewrite decide_True by (simpl; apply lookup_empty).
    rewrite decide_True.
    2:{ simpl. unfold exec, onConnection, Js.modify. simpl. rewrite lookup_insert_eq. eauto. }
    rewrite decide_True by done. cbn [run handler]. unfold exec.
    by rewrite (onMessage_subscribe _ _ (num 42)). }
  eexists. split; [exact Hrun|].
  assert (in_local (exec (tableDeleted (num 42))
             (exec (subscribe 1%nat (num 42)) (exec (onConnection 1%nat) init))) 1%nat (num 42)) as Hloc.
  { unfold exec at 1. rewrite exec_tableDeleted. rewrite exec_subscribe.
    unfold in_local. simpl. unfold exec, onConnection, Js.modify. simpl.
    rewrite lookup_alter_eq, lookup_insert_eq. simpl. eexists. split; [done|]. simpl. set_solver. }
  assert (¬ in_router (exec (tableDeleted (num 42))
             (exec (subscribe 1%nat (num 42)) (exec (onConnection 1%nat) init))) 1%nat (num 42)) as Hrt.
  { unfold exec at 1. rewrite exec_tableDeleted. unfold in_router, subscribers_of. simpl.
    rewrite lookup_delete_eq. simpl. apply not_elem_of_empty. }
  split; [done|]. split; [done|]. intros Hsym. apply Hrt, Hsym, Hloc.
Qed.

(** C1, amended: on every reachable state, whoever the router lists for a
    table is a tracked socket with that table in its own subscribed set; and
    for every table that has not been deleted on the way, a tracked socket
    that has the table in its own set is listed by the router, so the two
    sides agree on that table. *)
Theorem subscription_symmetry events s :
  run events init = Some s →
  (∀ c t, in_router s c t → in_local s c t) ∧
  (∀ t, EvTableDeleted t ∉ events → ∀ c, in_router s c t ↔ in_local s c t).
Proof.
  intros Hrun. destruct (inv_run _ _ Hrun) as [Hr _]. split; [exact Hr|].
  intros t Hnd c. split; [apply Hr|]. by apply (local_sound_run events).
Qed.

Lemma subscription_symmetry_witness :
  (∀ c t, in_router subscribed_state c t → in_local subscribed_state c t) ∧
  (∀ t, EvTableDeleted t ∉ subscribed_trace →
        ∀ c, in_router subscribed_state c t ↔ in_local subscribed_state c t).
Proof. apply (subscription_symmetry subscribed_trace subscribed_state). vm_compute. reflexivity. Defined.

End RealtimeInvariants.

(** ** Pruning and the liveness sweep *)

Section RealtimeLifecycle.
Import Realtime.

Lemma reachable_init : reachable init.
Proof. by exists []. Qed.

Lemma reachable_step e s : reachable s → enabled e s → reachable (exec (handler e) s).
Proof. intros [events Hrun] Hen. exists (events ++ [e]). apply run_snoc. eauto. Qed.

Lemma reachable_run events s s' : reachable s → run events s = Some s' → reachable s'.
Proof.
  revert s. induction events as [|e events IH]; intros s Hs; simpl.
  - by intros [= <-].
  - destruct (decide (enabled e s)); [|done]. apply IH. by apply reachable_step.
Qed.

(** C5. When [c] is the last subscriber of table [t] in a reachable state,
    its unsubscribe message for [t], and likewise the closing of its
    connection, leave the router with no entry for [t]: the key is removed,
    not left with an empty set. *)
Theorem pruning s c t :
  reachable s → tableSubscriptions s !! t = Some {[c]} →
  (∀ data, type_is data "unsubscribe" → get data "tableId" = Normal (Some (JNum t)) →
     tableSubscriptions (exec (handler (EvMessage c (Normal data))) s) !! t = None) ∧
  tableSubscriptions (exec (handler (EvClose c)) s) !! t = None.
Proof.
  intros Hreach Hl. split.
  - intros data Hty Hid. simpl. unfold exec.
    rewrite (onMessage_unsubscribe c data t s Hty Hid).
    fold (exec (unsubscribe c t) s). rewrite exec_unsubscribe. simpl.
    rewrite lookup_remove_subscriber, decide_True by done. rewrite Hl. unfold pruned.
    rewrite decide_True; [done|]. apply set_eq. intros x. set_unfold. tauto.
  - simpl. rewrite lookup_onClose.
    destruct (inv_reachable s Hreach) as [Hr _].
    destruct (Hr c t) as (ws & Hc & Ht).
    { apply in_router_lookup. exists {[c]}. split; [done|]. by apply elem_of_singleton. }
    rewrite Hc, decide_True by done. rewrite Hl. unfold pruned.
    rewrite decide_True; [done|]. apply set_eq. intros x. set_unfold. tauto.
Qed.

Lemma pruning_witness :
  (∀ data, type_is data "unsubscribe" → get data "tableId" = Normal (Some (JNum (num 42))) →
     tableSubscriptions (exec (handler (EvMessage 1%nat (Normal data))) subscribed_state) !! num 42 = None) ∧
  tableSubscriptions (exec (handler (EvClose 1%nat)) subscribed_state) !! num 42 = None.
Proof.
  apply (pruning subscribed_state 1%nat (num 42)).
  - exists subscribed_trace. vm_compute. reflexivity.
  - vm_compute. reflexivity.
Defined.

(** Empty subscriber sets are never left in the router. *)
Lemma no_empty_entry_reachable s : reachable s → no_empty_entry s.
Proof. intros Hs. by destruct (inv_reachable s Hs). Qed.

Lemma tracked_not_closed_step e s :
  enabled e s → tracked_not_closed s → tracked_not_closed (exec (handler e) s).
Proof.
  intros Hen Hs c' ws' Hc'.
  destruct e as [c|c|c message|c| |t data|t]; simpl in *.
  - unfold exec, onConnection, Js.modify in Hc'. simpl in Hc'.
    destruct (decide (c = c')) as [<-|Hnc].
    + rewrite lookup_insert_eq in Hc'. injection Hc' as <-. by left.
    + rewrite lookup_insert_ne in Hc' by done. by apply (Hs c').
  - unfold exec, onPong, update_client, Js.modify in Hc'. simpl in Hc'.
    destruct (decide (c = c')) as [<-|Hnc].
    + rewrite lookup_alter_eq in Hc'. destruct (clients s !! c) as [ws|] eqn:Hc; [|done].
      injection Hc' as <-. simpl. by apply (Hs c).
    + rewrite lookup_alter_ne in Hc' by done. by apply (Hs c').
  - unfold exec in Hc'.
    destruct (onMessage_cases c message s) as [Heq|[[t Heq]|[t Heq]]];
      rewrite Heq in Hc'; clear Heq.
    + by apply (Hs c').
    + fold (exec (subscribe c t) s) in Hc'. rewrite exec_subscribe in Hc'. simpl in Hc'.
      destruct (decide (c = c')) as [<-|Hnc].
      * rewrite lookup_alter_eq in Hc'. destruct (clients s !! c) as [ws|] eqn:Hc; [|done].
        injection Hc' as <-. simpl. by apply (Hs c).
      * rewrite lookup_alter_ne in Hc' by done. by apply (Hs c').
    + fold (exec (unsubscribe c t) s) in Hc'. rewrite exec_unsubscribe in Hc'. simpl in Hc'.
      destruct (decide (c = c')) as [<-|Hnc].
      * rewrite lookup_alter_eq in Hc'. destruct (clients s !! c) as [ws|] eqn:Hc; [|done].
        injection Hc' as <-. simpl. by apply (Hs c).
      * rewrite lookup_alter_ne in Hc' by done. by apply (Hs c').
  - rewrite exec_onClose in Hc'. simpl in Hc'.
    apply lookup_delete_Some in Hc' as [_ Hc']. by apply (Hs c').
  - rewrite clients_sweep, lookup_fmap in Hc'.
    destruct (clients s !! c') as [ws|] eqn:Hc; [|done]. injection Hc' as <-.
    specialize (Hs c' ws Hc). unfold swept, terminate.
    destruct (isAlive ws); simpl; [done|]. destruct (readyState ws) eqn:Hrs; simpl; auto.
    destruct Hs; congruence.
  - unfold exec in Hc'. rewrite exec_broadcast in Hc'. by apply (Hs c').
  - unfold exec in Hc'. rewrite exec_tableDeleted in Hc'. by apply (Hs c').
Qed.

Lemma tracked_not_closed_reachable s : reachable s → tracked_not_closed s.
Proof.
  intros [events Hrun]. revert s Hrun.
  induction events as [|e events IH] using rev_ind; intros s.
  - intros [= <-] c ws Hc. simpl in Hc. by rewrite lookup_empty in Hc.
  - intros (s0 & Hrun & Hen & ->)%run_snoc. apply tracked_not_closed_step; auto.
Qed.

(** A socket that is marked not alive stays tracked and not alive as long
    as it is neither acknowledged, nor closed, nor swept. *)
Lemma quiet_keeps_not_alive c events s s' ws :
  quiet_for c events → run events s = Some s' →
  clients s !! c = Some ws → isAlive ws = false →
  ∃ ws', clients s' !! c = Some ws' ∧ isAlive ws' = false.
Proof.
  revert s ws. induction events as [|e events IH]; intros s ws Hq Hrun Hc Ha; simpl in Hrun.
  - injection Hrun as <-. eauto.
  - destruct (decide (enabled e s)) as [Hen|]; [|done].
    assert (quiet_for c events) as Hq'.
    { intros e' He'. apply Hq. by apply list_elem_of_further. }
    destruct (Hq e (list_elem_of_here _ _)) as (Hpong & Hclose & Hsweep).
    assert (∃ ws1, clients (exec (handler e) s) !! c = Some ws1 ∧ isAlive ws1 = false)
      as (ws1 & Hc1 & Ha1); [|by eapply IH].
    clear IH Hrun Hq Hq'.
    destruct e as [c0|c0|c0 message|c0| |t data|t]; simpl in *.
    + exists ws. split; [|done]. unfold exec, onConnection, Js.modify. simpl.
      rewrite lookup_insert_ne; [done|]. intros ->. congruence.
    + exists ws. split; [|done]. unfold exec, onPong, update_client, Js.modify. simpl.
      rewrite lookup_alter_ne; [done|]. intros ->. done.
    + unfold exec.
      destruct (onMessage_cases c0 message s) as [->|[[t ->]|[t ->]]].
      * eauto.
      * fold (exec (subscribe c0 t) s). rewrite exec_subscribe. simpl.
        destruct (decide (c0 = c)) as [->|Hnc].
        -- rewrite lookup_alter_eq, Hc. simpl. eauto.
        -- rewrite lookup_alter_ne by done. eauto.
      * fold (exec (unsubscribe c0 t) s). rewrite exec_unsubscribe. simpl.
        destruct (decide (c0 = c)) as [->|Hnc].
        -- rewrite lookup_alter_eq, Hc. simpl. eauto.
        -- rewrite lookup_alter_ne by done. eauto.
    + exists ws. split; [|done]. rewrite exec_onClose. simpl.
      rewrite lookup_delete_ne; [done|]. intros ->. done.
    + done.
    + unfold exec. rewrite exec_broadcast. eauto.
    + unfold exec. rewrite exec_tableDeleted. eauto.
Qed.

(** Closing a socket of a reachable state takes it out of every
    subscriber set. *)
Lemma close_removes_everywhere c s t :
  reachable s → ¬ in_router (exec (onClose c) s) c t.
Proof.
  intros Hs Hin.
  assert (enabled (EvClose c) s ∨ clients s !! c = None) as [Hen|Hnone].
  { simpl. destruct (clients s !! c); eauto. }
  - destruct (inv_reachable _ (reachable_step (EvClose c) s Hs Hen)) as [Hr _].
    destruct (Hr c t Hin) as (ws & Hc & _). simpl in Hc.
    rewrite exec_onClose in Hc. simpl in Hc. by rewrite lookup_delete_eq in Hc.
  - unfold in_router, subscribers_of in Hin. rewrite lookup_onClose, Hnone in Hin.
    destruct (inv_reachable s Hs) as [Hr _].
    destruct (Hr c t Hin) as (ws & Hc & _). congruence.
Qed.

(** C6. A tracked socket that is alive is marked not alive by one round of
    the sweep; if no probe acknowledgment of it arrives before the next
    round, that round terminates it, and its closure leaves it in no
    subscriber set of the router, with no empty entry left behind. *)
Theorem liveness_sweep_termination s c ws events s' :
  reachable s → clients s !! c = Some ws → isAlive ws = true →
  run events (exec sweep s) = Some s' → quiet_for c events →
  isAlive <$> clients (exec sweep s) !! c = Some false ∧
  readyState_of (exec sweep s') c = CLOSING ∧
  clients (exec (onClose c) (exec sweep s')) !! c = None ∧
  (∀ t, ¬ in_router (exec (onClose c) (exec sweep s')) c t) ∧
  no_empty_entry (exec (onClose c) (exec sweep s')).
Proof.
  intros Hs Hc Ha Hrun Hq.
  assert (clients (exec sweep s) !! c = Some (mkWs (readyState ws) false (subscribedTables ws)))
    as Hc1.
  { rewrite clients_sweep, lookup_fmap, Hc. simpl. unfold swept. by rewrite Ha. }
  assert (reachable (exec sweep s)) as Hs1 by (by apply (reachable_step EvPingInterval)).
  assert (reachable s') as Hs' by (by eapply reachable_run).
  assert (reachable (exec sweep s')) as Hs2 by (by apply (reachable_step EvPingInterval)).
  destruct (quiet_keeps_not_alive c events _ s' _ Hq Hrun Hc1 eq_refl) as (ws' & Hc' & Ha').
  split; [by rewrite Hc1|]. split; [|split; [|split]].
  - unfold readyState_of. rewrite clients_sweep, lookup_fmap, Hc'. simpl.
    unfold swept. rewrite Ha'. unfold terminate.
    destruct (tracked_not_closed_reachable s' Hs' c ws' Hc') as [->| ->]; done.
  - rewrite exec_onClose. simpl. apply lookup_delete_eq.
  - intros t. by apply close_removes_everywhere.
  - apply no_empty_entry_reachable.
    assert (enabled (EvClose c) (exec sweep s')) as Hen.
    { simpl. rewrite clients_sweep, lookup_fmap, Hc'. simpl. eauto. }
    by apply (reachable_step (EvClose c)).
Qed.

Lemma liveness_sweep_termination_witness :
  isAlive <$> clients (exec sweep subscribed_state) !! 1%nat = Some false ∧
  readyState_of (exec sweep (exec sweep subscribed_state)) 1%nat = CLOSING ∧
  clients (exec (onClose 1%nat) (exec sweep (exec sweep subscribed_state))) !! 1%nat = None ∧
  (∀ t, ¬ in_router (exec (onClose 1%nat) (exec sweep (exec sweep subscribed_state))) 1%nat t) ∧
  no_empty_entry (exec (onClose 1%nat) (exec sweep (exec sweep subscribed_state))).
Proof.
  apply (liveness_sweep_termination subscribed_state 1%nat
           (mkWs OPEN true {[num 42]}) [] (exec sweep subscribed_state)).
  - exists subscribed_trace. vm_compute. reflexivity.
  - vm_compute. reflexivity.
  - reflexivity.
  - reflexivity.
  - intros e He. by apply elem_of_nil in He.
Defined.

End RealtimeLifecycle.

(** ** Messages, confirmations and fan-out *)

Section RealtimeMessages.
Import Realtime.

(** C3, as stated, fails: a subscribe message whose [tableId] is 1.5 is not
    ignored; the socket is subscribed and a confirmation is sent. *)
Lemma fractional_tableId_is_accepted :
  ¬ tableId_is_integer subscribe_fraction ∧
  onMessage 1%nat (Normal subscribe_fraction) connected_state ≠ (Normal tt, connected_state) ∧
  sent (exec (onMessage 1%nat (Normal subscribe_fraction)) connected_state) ≠ sent connected_state ∧
  in_router (exec (onMessage 1%nat (Normal subscribe_fraction)) connected_state) 1%nat (Q2Qc (3 # 2)).
Proof.
  assert (onMessage 1%nat (Normal subscribe_fraction) connected_state =
          subscribe 1%nat (Q2Qc (3 # 2)) connected_state) as Heq by reflexivity.
  split; [|split; [|split]].
  - intros (n & Hn & Hint). vm_compute in Hn. injection Hn as <-. vm_compute in Hint. done.
  - rewrite Heq. intros Hs. apply (f_equal (λ r, length (sent r.2))) in Hs. vm_compute in Hs. done.
  - unfold exec. rewrite Heq. intros Hs. apply (f_equal length) in Hs. vm_compute in Hs. done.
  - unfold exec. rewrite Heq. fold (exec (subscribe 1%nat (Q2Qc (3 # 2))) connected_state).
    rewrite exec_subscribe. unfold in_router, subscribers_of. simpl.
    rewrite lookup_insert_eq. simpl. apply elem_of_union. left. by apply elem_of_singleton.
Qed.

(** C3, amended: a message whose text is not JSON, or whose type is neither
    'subscribe' nor 'unsubscribe', or whose [tableId] is not a number, leaves
    the socket's subscriptions, the router and every other part of the state
    as they were, sends nothing, and the handler ends normally.  (A
    [tableId] that is a number is accepted whether it is an integer or not.) *)
Theorem malformed_message_ignored c message s :
  malformed message → onMessage c message s = (Normal tt, s).
Proof.
  destruct message as [data|e]; simpl.
  - intros [[Hs Hu]|Hn].
    + by apply onMessage_other_type.
    + by apply onMessage_no_number.
  - intros _. apply onMessage_unparsed.
Qed.

Lemma malformed_message_ignored_witness :
  onMessage 1%nat (Normal (JObj [("type", JStr "subscribe"); ("tableId", JStr "42")])) connected_state
  = (Normal tt, connected_state).
Proof.
  apply (malformed_message_ignored 1%nat
           (Normal (JObj [("type", JStr "subscribe"); ("tableId", JStr "42")])) connected_state).
  simpl. right. intros [n Hn]. vm_compute in Hn. discriminate Hn.
Defined.

(** The handler ends normally on every message. *)
Lemma onMessage_never_throws c message s : ∃ s', onMessage c message s = (Normal tt, s').
Proof.
  pose proof (handler_normal (EvMessage c message) s) as Hn. simpl in Hn.
  destruct (onMessage c message s) as [r s']. simpl in Hn. subst r. eauto.
Qed.

(** C8. A subscribe message with a numeric [tableId] is carried out
    whatever the identifier is (the handler consults no table): the
    router lists the requester for it, a tracked requester has it in its own
    set, and exactly one frame is sent, the confirmation, to the requester. *)
Theorem subscribe_confirms_requester_only c data t s :
  type_is data "subscribe" → get data "tableId" = Normal (Some (JNum t)) →
  ∃ s', onMessage c (Normal data) s = (Normal tt, s') ∧
        sent s' = sent s ++ [(c, TextFrame (subscribed_message t))] ∧
        in_router s' c t ∧
        (is_Some (clients s !! c) → in_local s' c t).
Proof.
  intros Hty Hid. exists (exec (subscribe c t) s).
  rewrite (onMessage_subscribe c data t s Hty Hid). split; [done|].
  rewrite exec_subscribe. simpl. split; [done|]. split.
  - unfold in_router, subscribers_of. simpl. rewrite lookup_insert_eq. simpl.
    apply elem_of_union. left. by apply elem_of_singleton.
  - intros [ws Hc]. unfold in_local. simpl. rewrite lookup_alter_eq, Hc. simpl.
    eexists. split; [done|]. simpl. apply elem_of_union. left. by apply elem_of_singleton.
Qed.

Lemma subscribe_confirms_requester_only_witness :
  ∃ s', onMessage 1%nat (Normal subscribe_42) connected_state = (Normal tt, s') ∧
        sent s' = sent connected_state ++ [(1%nat, TextFrame (subscribed_message (num 42)))] ∧
        in_router s' 1%nat (num 42) ∧
        (is_Some (clients connected_state !! 1%nat) → in_local s' 1%nat (num 42)).
Proof.
  apply (subscribe_confirms_requester_only 1%nat subscribe_42 (num 42) connected_state).
  - reflexivity.
  - reflexivity.
Defined.

(** What one socket receives from a broadcast. *)
Lemma received_app s c new :
  received (mkServer (clients s) (tableSubscriptions s) (sent s ++ new)) c =
  received s c ++ (filter (λ cf, cf.1 = c) new).*2.
Proof. unfold received. simpl. by rewrite filter_app, fmap_app. Qed.

Lemma filter_deliveries (f : Frame) c l :
  NoDup l →
  (filter (λ cf : Conn * Frame, cf.1 = c) ((λ x, (x, f)) <$> l)).*2 =
  if decide (c ∈ l) then [f] else [].
Proof.
  induction 1 as [|x l Hx Hnd IH]; [done|].
  rewrite fmap_cons, filter_cons. simpl.
  destruct (decide (x = c)) as [->|Hne].
  - rewrite decide_True by apply list_elem_of_here. rewrite fmap_cons. simpl.
    rewrite IH. by rewrite decide_False.
  - rewrite IH. destruct (decide (c ∈ l)) as [Hin|Hn].
    + by rewrite decide_True by (by apply list_elem_of_further).
    + rewrite decide_False; [done|]. intros [?|?]%elem_of_cons; [congruence|done].
Qed.

Lemma elem_of_recipients s t c :
  c ∈ recipients s t ↔ c ∈ subscribers_of s t ∧ readyState_of s c = OPEN.
Proof. unfold recipients. rewrite list_elem_of_filter, elem_of_elements. tauto. Qed.

Lemma received_broadcast s t data c :
  received (exec (broadcastTableUpdate t data) s) c =
  received s c ++ if decide (c ∈ subscribers_of s t ∧ readyState_of s c = OPEN)
                  then [TextFrame (update_message t data)] else [].
Proof.
  unfold exec. rewrite exec_broadcast. simpl. rewrite received_app. f_equal.
  unfold deliveries. rewrite filter_deliveries.
  - destruct (decide (c ∈ recipients s t)) as [Hin|Hn].
    + by rewrite decide_True by (by apply elem_of_recipients).
    + rewrite decide_False; [done|]. by rewrite <- elem_of_recipients.
  - unfold recipients. apply NoDup_filter, NoDup_elements.
Qed.

(** C4. When the subscribers of table [T] are [A] and [B], both open,
    together with sockets [idle] that are not open, and [C] is subscribed
    only to another table [U], a broadcast to [T] ends normally and hands
    its message to [A] and to [B], once each, and to no other socket, so
    not to [C]; the sockets that are not open get nothing and stay in the
    subscriber set, the router and the registry being left as they were. *)
Theorem fan_out_correctness s A B C T U (idle : gset Conn) data :
  subscribers_of s T = {[A; B]} ∪ idle →
  readyState_of s A = OPEN → readyState_of s B = OPEN →
  (∀ d, d ∈ idle → readyState_of s d ≠ OPEN) →
  T ≠ U → in_router s C U → (∀ t, in_router s C t → t = U) →
  ∃ s', broadcastTableUpdate T data s = (Normal tt, s') ∧
        (∀ c, received s' c =
              received s c ++ if decide (c = A ∨ c = B)
                              then [TextFrame (update_message T data)] else []) ∧
        received s' C = received s C ∧
        (∀ d, d ∈ idle → received s' d = received s d ∧ d ∈ subscribers_of s' T) ∧
        clients s' = clients s ∧ tableSubscriptions s' = tableSubscriptions s.
Proof.
  intros Hsubs HA HB Hidle HTU HCU Honly.
  exists (exec (broadcastTableUpdate T data) s).
  assert (∀ c, c ∈ subscribers_of s T ∧ readyState_of s c = OPEN ↔ c = A ∨ c = B) as Hiff.
  { intros c. rewrite Hsubs. split.
    - intros [Hin Ho]. set_unfold. destruct Hin as [[->| ->]|Hin]; auto.
      by destruct (Hidle c Hin).
    - intros [-> | ->]; (split; [set_unfold; tauto|done]). }
  assert (∀ c, received (exec (broadcastTableUpdate T data) s) c =
               received s c ++ if decide (c = A ∨ c = B)
                               then [TextFrame (update_message T data)] else []) as Hrecv.
  { intros c. rewrite received_broadcast.
    destruct (decide (c = A ∨ c = B)) as [Hc|Hc].
    - by rewrite decide_True by (by apply Hiff).
    - rewrite decide_False; [done|]. by rewrite Hiff. }
  assert (tableSubscriptions (exec (broadcastTableUpdate T data) s) = tableSubscriptions s) as Hts.
  { unfold exec. by rewrite exec_broadcast. }
  split; [unfold exec; by rewrite exec_broadcast|].
  split; [exact Hrecv|]. split; [|split; [|split]].
  - rewrite Hrecv, decide_False, app_nil_r; [done|].
    intros [-> | ->]; apply HTU, Honly; unfold in_router; rewrite Hsubs; set_unfold; tauto.
  - intros d Hd. split.
    + rewrite Hrecv, decide_False, app_nil_r; [done|].
      intros [-> | ->]; by destruct (Hidle _ Hd).
    + unfold subscribers_of. rewrite Hts. fold (subscribers_of s T). rewrite Hsubs.
      set_unfold. tauto.
  - unfold exec. by rewrite exec_broadcast.
  - exact Hts.
Qed.

Lemma fan_out_correctness_witness :
  ∃ s', broadcastTableUpdate (num 42) [("type", VStr "tableUpdated")] fan_out_state = (Normal tt, s') ∧
        (∀ c, received s' c =
              received fan_out_state c ++
              if decide (c = 1%nat ∨ c = 2%nat)
              then [TextFrame (update_message (num 42) [("type", VStr "tableUpdated")])] else []) ∧
        received s' 3%nat = received fan_out_state 3%nat ∧
        (∀ d, d ∈ ({[4%nat]} : gset Conn) →
              received s' d = received fan_out_state d ∧ d ∈ subscribers_of s' (num 42)) ∧
        clients s' = clients fan_out_state ∧
        tableSubscriptions s' = tableSubscriptions fan_out_state.
Proof.
  apply (fan_out_correctness fan_out_state 1%nat 2%nat 3%nat (num 42) (num 7) {[4%nat]}).
  - vm_compute. reflexivity.
  - vm_compute. reflexivity.
  - vm_compute. reflexivity.
  - intros d Hd. apply elem_of_singleton in Hd. subst d. vm_compute. discriminate.
  - intros Heq. apply Z2Qc_inj in Heq. discriminate Heq.
  - unfold in_router. apply (bool_decide_unpack _). vm_compute. exact I.
  - intros t Hin.
    assert (reachable fan_out_state) as Hreach.
    { exists fan_out_trace. vm_compute. reflexivity. }
    destruct (inv_reachable _ Hreach) as [Hsound _].
    destruct (Hsound 3%nat t Hin) as (ws & Hc & Ht).
    assert (clients fan_out_state !! 3%nat = Some (mkWs OPEN false {[num 7]})) as Hc3.
    { vm_compute. reflexivity. }
    rewrite Hc3 in Hc. injection Hc as <-. simpl in Ht. by apply elem_of_singleton in Ht.
Defined.

(** C9. Subscribing a second time changes neither the registry nor the
    router: both are as after the first time.  A broadcast to the table that
    follows hands its message to the socket once when the socket is open
    (and not at all otherwise), never twice. *)
Theorem subscribe_idempotent c t s data :
  clients (exec (subscribe c t) (exec (subscribe c t) s)) = clients (exec (subscribe c t) s) ∧
  tableSubscriptions (exec (subscribe c t) (exec (subscribe c t) s)) =
    tableSubscriptions (exec (subscribe c t) s) ∧
  received (exec (broadcastTableUpdate t data) (exec (subscribe c t) (exec (subscribe c t) s))) c =
    received (exec (subscribe c t) (exec (subscribe c t) s)) c ++
    if decide (readyState_of s c = OPEN) then [TextFrame (update_message t data)] else [].
Proof.
  assert (subscribers_of (exec (subscribe c t) s) t = {[c]} ∪ subscribers_of s t) as Hsubs.
  { rewrite exec_subscribe. unfold subscribers_of at 1. simpl. by rewrite lookup_insert_eq. }
  assert (clients (exec (subscribe c t) (exec (subscribe c t) s)) = clients (exec (subscribe c t) s))
    as Hclients.
  { rewrite (exec_subscribe c t (exec (subscribe c t) s)). simpl.
    rewrite ?exec_subscribe. simpl. apply map_eq. intros c'.
    destruct (decide (c = c')) as [<-|Hne].
    - rewrite !lookup_alter_eq. destruct (clients s !! c) as [ws|]; [|done]. simpl.
      do 2 f_equal. apply set_eq. intros x. set_unfold. tauto.
    - by rewrite !lookup_alter_ne. }
  assert (tableSubscriptions (exec (subscribe c t) (exec (subscribe c t) s)) =
          tableSubscriptions (exec (subscribe c t) s)) as Hrouter.
  { rewrite (exec_subscribe c t (exec (subscribe c t) s)).
    cbn [tableSubscriptions]. rewrite Hsubs.
    rewrite exec_subscribe. cbn [tableSubscriptions]. rewrite insert_insert_eq. f_equal.
    apply set_eq. intros x. set_unfold. tauto. }
  split; [exact Hclients|]. split; [exact Hrouter|].
  rewrite received_broadcast.
  assert (readyState_of (exec (subscribe c t) (exec (subscribe c t) s)) c = readyState_of s c) as Hrs.
  { unfold readyState_of. rewrite Hclients, exec_subscribe. simpl. rewrite lookup_alter_eq.
    by destruct (clients s !! c). }
  assert (c ∈ subscribers_of (exec (subscribe c t) (exec (subscribe c t) s)) t) as Hin.
  { unfold subscribers_of. rewrite Hrouter. fold (subscribers_of (exec (subscribe c t) s) t).
    rewrite Hsubs. apply elem_of_union. left. by apply elem_of_singleton. }
  rewrite Hrs. destruct (decide (readyState_of s c = OPEN)) as [Ho|Hn].
  - by rewrite decide_True.
  - rewrite decide_False; [done|]. tauto.
Qed.

End RealtimeMessages.

(** ** The Google Sheets fetcher *)

Section Fetcher.
Import Sheets.
Context {S : Type} (world : World).

Lemma read_sheet_pure spreadsheetId apiKey (s : S) :
  (read_sheet world spreadsheetId apiKey s).2 = s.
Proof.
  unfold read_sheet, Js.bind, Js.lift, Js.ret.
  destruct (spreadsheets_values_get world spreadsheetId apiKey) as [values|e]; simpl; [|done].
  destruct (decide (length (default [] values) = 0%nat)); simpl; [done|].
  by destruct (first_row_headers world (default [] values)).
Qed.

(** Whatever happens inside, the outer [catch] turns it into a snapshot. *)
Lemma fetch_returns sheetUrl (s : S) :
  ∃ snapshot : SheetData, fetchGoogleSheetData world sheetUrl s = (Normal snapshot, s).
Proof.
  unfold fetchGoogleSheetData, Js.try_catch, Js.throw, Js.ret.
  destruct (match_sheet_id sheetUrl) as [spreadsheetId|]; [|eauto].
  destruct (decide (default EmptyString (GOOGLE_SHEETS_API_KEY world) = EmptyString)); [eauto|].
  pose proof (read_sheet_pure spreadsheetId (default EmptyString (GOOGLE_SHEETS_API_KEY world)) s) as Hp.
  destruct (read_sheet world spreadsheetId _ s) as [[snapshot|e] s']; simpl in Hp; subst s'.
  - eauto.
  - destruct (has_status e 404); [eauto|]. destruct (has_status e 403); eauto.
Qed.

(** C7. The fetcher ends normally on every URL, in every world, with a
    snapshot of string headers and string rows, and reads nothing else of
    the state; when the URL carries no sheet id, when the API key is
    missing or empty, and when the API call is rejected, the snapshot is
    the in-band description of the error: "Data not found" for status 404,
    "Access denied" for status 403, "Error" for anything else. *)
Theorem fetch_never_raises sheetUrl (s : S) :
  (∃ snapshot : SheetData, fetchGoogleSheetData world sheetUrl s = (Normal snapshot, s)) ∧
  (match_sheet_id sheetUrl = None →
     fetchGoogleSheetData world sheetUrl s = (Normal error_snapshot, s)) ∧
  (default EmptyString (GOOGLE_SHEETS_API_KEY world) = EmptyString →
     fetchGoogleSheetData world sheetUrl s = (Normal error_snapshot, s)) ∧
  (∀ spreadsheetId googleError,
     match_sheet_id sheetUrl = Some spreadsheetId →
     default EmptyString (GOOGLE_SHEETS_API_KEY world) ≠ EmptyString →
     spreadsheets_values_get world spreadsheetId (default EmptyString (GOOGLE_SHEETS_API_KEY world))
       = Throw googleError →
     fetchGoogleSheetData world sheetUrl s =
       (Normal (if has_status googleError 404 then not_found_snapshot
                else if has_status googleError 403 then access_denied_snapshot
                else error_snapshot), s)).
Proof.
  split; [|split; [|split]].
  - apply fetch_returns.
  - intros Hm. unfold fetchGoogleSheetData, Js.try_catch, Js.throw, Js.ret. by rewrite Hm.
  - intros Hk. unfold fetchGoogleSheetData, Js.try_catch, Js.throw, Js.ret.
    destruct (match_sheet_id sheetUrl); [|done]. by rewrite decide_True.
  - intros spreadsheetId googleError Hm Hk Hget.
    unfold fetchGoogleSheetData, Js.try_catch, Js.throw, Js.ret.
    rewrite Hm, decide_False by done.
    unfold read_sheet, Js.bind, Js.lift. rewrite Hget.
    destruct (has_status googleError 404); [done|]. by destruct (has_status googleError 403).
Qed.

End Fetcher.

(** The fetcher on sheets that answer. *)
Example match_sheet_id_of_url :
  Sheets.match_sheet_id sheet_url = Some "1BxiMVs0XRA5nFMdKvBdBZjgmUUqptlbs74OgvE2upms".
Proof. vm_compute. reflexivity. Qed.

Example fetch_header_and_row :
  Sheets.fetchGoogleSheetData
    (sheet_world [Sheets.RowArray [Sheets.CStr "Name"; Sheets.CStr "Qty"; Sheets.CNull];
                  Sheets.RowArray [Sheets.CStr "bolt"; Sheets.CNum (num 3)]])
    sheet_url tt
  = (Normal {| headers := ["Name"; "Qty"; EmptyString]; rows := [["bolt"; "3"; EmptyString]] |}, tt).
Proof. vm_compute. reflexivity. Qed.

Example fetch_headers_only :
  Sheets.fetchGoogleSheetData
    (sheet_world [Sheets.RowArray [Sheets.CStr "Name"; Sheets.CStr "Qty"]]) sheet_url tt
  = (Normal {| headers := ["Name"; "Qty"]; rows := [[EmptyString; EmptyString]] |}, tt).
Proof. vm_compute. reflexivity. Qed.

Example fetch_generic_headers :
  Sheets.fetchGoogleSheetData
    (sheet_world [Sheets.RowArray []; Sheets.RowArray [Sheets.CStr "a"; Sheets.CBool true]])
    sheet_url tt
  = (Normal {| headers := ["Column 1"; "Column 2"]; rows := [["a"; "true"]] |}, tt).
Proof. vm_compute. reflexivity. Qed.

Example fetch_first_row_not_an_array :
  Sheets.fetchGoogleSheetData (sheet_world [Sheets.RowOther true]) sheet_url tt
  = (Normal error_snapshot, tt).
Proof. vm_compute. reflexivity. Qed.

Lemma fetch_never_raises_witness :
  Sheets.fetchGoogleSheetData forbidding_world "not a sheet" tt = (Normal error_snapshot, tt) ∧
  Sheets.fetchGoogleSheetData forbidding_world sheet_url tt = (Normal access_denied_snapshot, tt).
Proof.
  split.
  - destruct (fetch_never_raises forbidding_world "not a sheet" tt) as (_ & Hurl & _ & _).
    apply Hurl. vm_compute. reflexivity.
  - destruct (fetch_never_raises forbidding_world sheet_url tt) as (_ & _ & _ & Hrejected).
    apply (Hrejected "1BxiMVs0XRA5nFMdKvBdBZjgmUUqptlbs74OgvE2upms" (ApiError (Some 403) None)).
    + vm_compute. reflexivity.
    + vm_compute. discriminate.
    + reflexivity.
Defined.

(** ** Saving a column value *)

Section ColumnValues.
Import Storage.

Lemma head_filter_Some {A} (P : A → Prop) `{∀ x, Decision (P x)} (l : list A) x :
  head (filter P l) = Some x → P x ∧ x ∈ l.
Proof.
  induction l as [|y l IH]; [done|]. rewrite filter_cons.
  destruct (decide (P y)) as [Hy|Hy]; simpl.
  - intros [= ->]. split; [done|apply list_elem_of_here].
  - intros Hh. destruct (IH Hh). split; [done|by apply list_elem_of_further].
Qed.

Lemma head_filter_None {A} (P : A → Prop) `{∀ x, Decision (P x)} (l : list A) :
  head (filter P l) = None → ∀ x, x ∈ l → ¬ P x.
Proof.
  induction l as [|y l IH]; [by intros _ x ?%elem_of_nil|]. rewrite filter_cons.
  destruct (decide (P y)) as [Hy|Hy]; simpl; [done|].
  intros Hh x [->|Hx]%elem_of_cons; [done|by apply IH].
Qed.



(** One call of [saveColumnValue] on its own, query by query. *)
Lemma save_unfold insertColumnValue createdAt updatedAt d :
  save insertColumnValue createdAt updatedAt d =
  if decide (int4 (ins_columnId insertColumnValue) ∧ int4 (ins_rowIndex insertColumnValue)) then
    match stored d (ins_columnId insertColumnValue) (ins_rowIndex insertColumnValue) with
    | Some existing =>
        let result := update_returning
                        (λ v, bool_decide (ColumnValue.id v = ColumnValue.id existing))
                        (with_value (ins_value insertColumnValue) updatedAt) (columnValues d) in
        (Normal (head result.2),
         mkDb (tables d) (customColumns d) result.1 (columnValues_id_seq d))
    | None =>
        let id := columnValues_id_seq d + 1 in
        if decide (int4 id) then
          if decide (ins_columnId insertColumnValue ∈ CustomColumn.id <$> customColumns d ∧
                     id ∉ (ColumnValue.id <$> columnValues d)) then
            let row := ColumnValue.mk id (ins_columnId insertColumnValue)
                         (ins_rowIndex insertColumnValue) (ins_value insertColumnValue)
                         (Some createdAt) (Some updatedAt) in
            (Normal (Some row), mkDb (tables d) (customColumns d) (columnValues d ++ [row]) id)
          else (Throw DatabaseError, mkDb (tables d) (customColumns d) (columnValues d) id)
        else (Throw DatabaseError, d)
    end
  else (Throw DatabaseError, d).
Proof.
  unfold save, save_call, saveColumnValue, stored. cbn [alone].
  unfold getColumnValue, integer_param.
  destruct (decide (int4 (ins_columnId insertColumnValue) ∧ int4 (ins_rowIndex insertColumnValue)))
    as [[Hc Hr]|Hn].
  2:{ destruct (decide (int4 (ins_columnId insertColumnValue))); [|reflexivity].
      destruct (decide (int4 (ins_rowIndex insertColumnValue))); [tauto|reflexivity]. }
  destruct (decide (int4 (ins_columnId insertColumnValue))); [|done].
  destruct (decide (int4 (ins_rowIndex insertColumnValue))); [|done].
  unfold Js.bind at 1 2. unfold Js.ret at 1 2. unfold Js.gets at 1. cbn [fst snd].
  destruct (head (filter _ (columnValues d))) as [existing|]; cbn [alone].
  - reflexivity.
  - unfold insert_value, Js.bind at 1. unfold Js.gets at 1. cbn [fst snd].
    destruct (decide (int4 (columnValues_id_seq d + 1))); [|reflexivity].
    destruct (decide (ins_columnId insertColumnValue ∈ CustomColumn.id <$> customColumns d ∧
                      columnValues_id_seq d + 1 ∉ (ColumnValue.id <$> columnValues d)));
      reflexivity.
Qed.


End ColumnValues.

(** ** The routes that resynchronise a table *)

Section Resync.
Import Realtime Sheets Storage Routes.
Context (world : World).

Lemma head_fmap_Some {A B} (f : A → B) (l : list A) x :
  head l = Some x → head (f <$> l) = Some (f x).
Proof. destruct l; simpl; congruence. Qed.

Lemma first_with_key (tables : list Table) tableId userId table :
  head (filter (λ t, Table.id t = tableId ∧ Table.userId t = userId) tables) = Some table →
  ∃ first, head (filter (λ t, bool_decide (Table.id t = tableId) = true) tables) = Some first ∧
           Table.id first = tableId ∧ first ∈ tables.
Proof.
  intros [[Hid _] Hin]%head_filter_Some.
  destruct (head (filter (λ t, bool_decide (Table.id t = tableId) = true) tables)) as [first|] eqn:Hf.
  - apply head_filter_Some in Hf as [Hfid Hfin]. apply bool_decide_eq_true in Hfid. eauto.
  - exfalso. eapply (head_filter_None _ _ Hf table Hin). by apply bool_decide_eq_true.
Qed.

Lemma updated_is_stored (f : Table → Table) (tables : list Table) tableId first :
  head (filter (λ t, bool_decide (Table.id t = tableId) = true) tables) = Some first →
  f first ∈ (λ r, if bool_decide (Table.id r = tableId) then f r else r) <$> tables.
Proof.
  intros [Hid Hin]%head_filter_Some. apply list_elem_of_fmap.
  exists first. by rewrite Hid.
Qed.

(** A broadcast, seen socket by socket. *)
Lemma broadcast_run t data s :
  ∃ s', broadcastTableUpdate t data s = (Normal tt, s') ∧
        broadcast_between s s' t (update_message t data).
Proof.
  eexists. split; [apply exec_broadcast|].
  split; [done|]. split; [done|]. intros c.
  pose proof (received_broadcast s t data c) as Hb.
  unfold exec in Hb. rewrite exec_broadcast in Hb. exact Hb.
Qed.

(** C2.  For a table the requesting user owns, both resync routes first
    persist the new timestamp and then hand each open subscriber of the
    table one message that contains the refreshed snapshot, the current
    custom columns and the updated table record.  Only [GET
    /api/tables/:id/data] with [refresh=true] tags it [dataRefreshed]:
    [POST /api/tables/:id/sync] leaves the tag out of the data, so the type
    of its message is [tableUpdate]. *)
Theorem resync_broadcast now timestamp req a userId tableId table :
  user req = Some userId → params_id req = Some tableId →
  head (filter (λ t, Table.id t = tableId ∧ Table.userId t = userId) (tables (db a))) = Some table →
  ∃ sheetData updatedTable,
    fetchGoogleSheetData world (Table.googleSheetUrl table) a = (Normal sheetData, a) ∧
    Table.id updatedTable = tableId ∧ Table.lastUpdatedAt updatedTable = Some now ∧
    let columns := filter (λ c, CustomColumn.tableId c = tableId) (customColumns (db a)) in
    (query_refresh req = Some "true" →
       ∃ response a' message,
         get_table_data world now req a = (Normal response, a') ∧
         updatedTable ∈ tables (db a') ∧
         broadcast_between (server a) (server a') (num tableId) message ∧
         prop "type" message = VStr "dataRefreshed" ∧
         carries message tableId sheetData columns updatedTable) ∧
    (∃ response a' message,
       post_table_sync world now timestamp req a = (Normal response, a') ∧
       updatedTable ∈ tables (db a') ∧
       broadcast_between (server a) (server a') (num tableId) message ∧
       prop "type" message = VStr "tableUpdate" ∧
       prop "type" message ≠ VStr "dataRefreshed" ∧
       prop "timestamp" message = VDate timestamp ∧
       carries message tableId sheetData columns updatedTable).
Proof.
  intros Huser Hid Hfind.
  destruct (fetch_returns world (Table.googleSheetUrl table) a) as [sheetData Hfetch].
  destruct (first_with_key _ _ _ _ Hfind) as (first & Hfirst & Hfid & Hfin).
  set (patch := {| patch_name := None; patch_googleSheetUrl := None;
                   patch_lastUpdatedAt := Some now |}).
  assert (head (apply_patch patch now <$>
                  filter (λ t, bool_decide (Table.id t = tableId) = true) (tables (db a)))
          = Some (apply_patch patch now first)) as Hupdated.
  { by apply head_fmap_Some. }
  exists sheetData, (apply_patch patch now first).
  split; [exact Hfetch|]. split; [done|]. split; [done|]. cbv zeta. split.
  - intros Hrefresh.
    unfold get_table_data, Js.try_catch, Js.bind at 1.
    rewrite Huser, Hid. cbn [lookup_user_table].
    unfold getUserTable, Js.gets at 1. cbn [fst snd]. rewrite Hfind.
    unfold Js.bind at 1. rewrite Hfetch.
    unfold update_timestamp, updateTable, update_returning, Js.bind, Js.gets, Js.modify, Js.ret.
    cbn [fst snd]. fold patch. rewrite Hupdated.
    unfold getCustomColumns, Js.gets. cbn [fst snd set_db db server customColumns table_value].
    rewrite decide_True by done. unfold realtime. cbn [server].
    match goal with
    | |- context [broadcastTableUpdate ?t ?data ?s] =>
        destruct (broadcast_run t data s) as (s' & -> & Hbetween)
    end.
    cbn [fst snd].
    do 3 eexists. split; [reflexivity|]. cbn [db server tables].
    split; [by apply updated_is_stored|]. split; [exact Hbetween|].
    split; [reflexivity|]. repeat split.
  - unfold post_table_sync, Js.try_catch, Js.bind at 1.
    rewrite Huser, Hid. cbn [lookup_user_table].
    unfold getUserTable, Js.gets at 1. cbn [fst snd]. rewrite Hfind.
    unfold Js.bind at 1. rewrite Hfetch.
    unfold update_timestamp, updateTable, update_returning, Js.bind, Js.gets, Js.modify, Js.ret.
    cbn [fst snd]. fold patch. rewrite Hupdated.
    unfold getCustomColumns, Js.gets. cbn [fst snd set_db db server customColumns table_value].
    unfold realtime. cbn [server].
    match goal with
    | |- context [broadcastTableUpdate ?t ?data ?s] =>
        destruct (broadcast_run t data s) as (s' & -> & Hbetween)
    end.
    cbn [fst snd].
    do 3 eexists. split; [reflexivity|]. cbn [db server tables].
    split; [by apply updated_is_stored|]. split; [exact Hbetween|].
    split; [reflexivity|]. split; [discriminate|]. repeat split.
Qed.

End Resync.

Lemma resync_broadcast_witness :
  ∃ response a' message,
    Routes.post_table_sync forbidding_world 20 21 sync_request sync_app = (Normal response, a') ∧
    Storage.tables (Routes.db a') = [Table.mk 42 7 "Orders" sheet_url JNull (Some 10) (Some 20)] ∧
    Realtime.received (Routes.server a') 1%nat =
      Realtime.received (Routes.server sync_app) 1%nat ++ [Realtime.TextFrame message] ∧
    prop "table" message = VTable (Table.mk 42 7 "Orders" sheet_url JNull (Some 10) (Some 20)) ∧
    prop "type" message = VStr "tableUpdate" ∧
    prop "type" message ≠ VStr "dataRefreshed".
Proof.
  destruct (resync_broadcast forbidding_world 20 21 sync_request sync_app 7 42
              (Table.mk 42 7 "Orders" sheet_url JNull (Some 10) (Some 10))
              eq_refl eq_refl eq_refl)
    as (sheetData & updatedTable & _ & _ & _ & _ & Hsync).
  destruct Hsync as (response & a' & message & Hrun & _ & (_ & _ & Hsent) & Htype & Hnot & _ & _).
  exists response, a', message. split; [exact Hrun|].
  specialize (Hsent 1%nat).
  vm_compute in Hrun. injection Hrun as <- <-.
  split; [reflexivity|]. split; [exact Hsent|].
  split; [|split; [exact Htype|exact Hnot]].
  revert Hsent. vm_compute. intros [= <-]. reflexivity.
Defined.



(** * Further properties *)

(** ** The real-time layer *)

Section RealtimeMore.
Import Realtime.

Lemma tracked_set_unchanged (ws : ExtendedWebSocket) (t : number) :
  t ∉ subscribedTables ws →
  mkWs (readyState ws) (isAlive ws) (subscribedTables ws ∖ {[t]}) = ws.
Proof.
  intros Hn. destruct ws as [rs al tables]. simpl in *. f_equal.
  apply set_eq. intros x. rewrite elem_of_difference, elem_of_singleton.
  split; [tauto|]. intros Hx. split; [done|]. intros ->. done.
Qed.

Lemma pruned_absent c (entry : option (gset Conn)) :
  c ∉ default ∅ entry → entry ≠ Some ∅ → pruned c entry = entry.
Proof.
  unfold pruned. destruct entry as [subs|]; simpl; [|done]. intros Hn Hne.
  assert (subs ∖ {[c]} = subs) as ->.
  { apply set_eq. intros x. rewrite elem_of_difference, elem_of_singleton.
    split; [tauto|]. intros Hx. split; [done|]. intros ->. done. }
  rewrite decide_False; [done|]. congruence.
Qed.

(** X1. In a reachable state, an unsubscribe message for a pair that does
    not exist (the router does not list the socket for the table and the
    socket does not have the table in its own set) changes neither the
    registry nor the router: it only sends the confirmation to the
    requester. *)
Theorem unsubscribe_absent_is_noop s c t data :
  reachable s → ¬ in_router s c t → ¬ in_local s c t →
  type_is data "unsubscribe" → get data "tableId" = Normal (Some (JNum t)) →
  onMessage c (Normal data) s =
  (Normal tt,
   mkServer (clients s) (tableSubscriptions s)
            (sent s ++ [(c, TextFrame (unsubscribed_message t))])).
Proof.
  intros Hreach Hr Hl Hty Hid. rewrite (onMessage_unsubscribe c data t s Hty Hid).
  assert (unsubscribe c t s = (Normal tt, exec (unsubscribe c t) s)) as -> by reflexivity.
  rewrite exec_unsubscribe. do 2 f_equal.
  - apply map_eq. intros c'. destruct (decide (c = c')) as [<-|Hne].
    + rewrite lookup_alter_eq. destruct (clients s !! c) as [ws|] eqn:Hc; [|done]. simpl.
      f_equal. apply tracked_set_unchanged. intros Ht. apply Hl. by exists ws.
    + by rewrite lookup_alter_ne.
  - apply map_eq. intros t'. rewrite lookup_remove_subscriber.
    destruct (decide (t = t')) as [<-|Hne]; [|done].
    apply pruned_absent; [exact Hr|].
    intros He. by apply (no_empty_entry_reachable s Hreach t ∅).
Qed.

Lemma unsubscribe_absent_is_noop_witness :
  onMessage 1%nat (Normal unsubscribe_42) connected_state =
  (Normal tt,
   mkServer (clients connected_state) (tableSubscriptions connected_state)
            (sent connected_state ++ [(1%nat, TextFrame (unsubscribed_message (num 42)))])).
Proof.
  apply (unsubscribe_absent_is_noop connected_state 1%nat (num 42) unsubscribe_42).
  - exists [EvConnection 1%nat]. vm_compute. reflexivity.
  - unfold in_router. apply (bool_decide_unpack _). vm_compute. exact I.
  - intros (ws & Hc & Ht). vm_compute in Hc. injection Hc as <-.
    simpl in Ht. by apply not_elem_of_empty in Ht.
  - reflexivity.
  - reflexivity.
Defined.

(** X2. In a reachable state, subscribing a tracked socket to a table it is
    not subscribed to and then unsubscribing it gives back the registry and
    the router as they were, entry pruned included. *)
Theorem subscribe_unsubscribe_round_trip s c t :
  reachable s → is_Some (clients s !! c) → ¬ in_router s c t → ¬ in_local s c t →
  clients (exec (unsubscribe c t) (exec (subscribe c t) s)) = clients s ∧
  tableSubscriptions (exec (unsubscribe c t) (exec (subscribe c t) s)) = tableSubscriptions s.
Proof.
  intros Hreach [ws Hc] Hr Hl. rewrite exec_unsubscribe, exec_subscribe. simpl. split.
  - apply map_eq. intros c'. destruct (decide (c = c')) as [<-|Hne].
    + rewrite !lookup_alter_eq, Hc. simpl. f_equal.
      destruct ws as [rs al tables]. simpl. f_equal.
      apply set_eq. intros x. rewrite elem_of_difference, elem_of_union, elem_of_singleton.
      split; [tauto|]. intros Hx. split; [tauto|]. intros ->. apply Hl. by exists (mkWs rs al tables).
    + by rewrite !lookup_alter_ne.
  - apply map_eq. intros t'. rewrite lookup_remove_subscriber.
    destruct (decide (t = t')) as [<-|Hne].
    + rewrite lookup_insert_eq. unfold pruned.
      assert (({[c]} ∪ subscribers_of s t) ∖ {[c]} = subscribers_of s t) as ->.
      { apply set_eq. intros x. rewrite elem_of_difference, elem_of_union, elem_of_singleton.
        split; [tauto|]. intros Hx. split; [tauto|]. intros ->. done. }
      unfold subscribers_of. destruct (tableSubscriptions s !! t) as [subs|] eqn:Hs; simpl.
      * rewrite decide_False; [done|]. by apply (no_empty_entry_reachable s Hreach t).
      * by rewrite decide_True.
    + by rewrite lookup_insert_ne.
Qed.

Lemma subscribe_unsubscribe_round_trip_witness :
  clients (exec (unsubscribe 1%nat (num 7)) (exec (subscribe 1%nat (num 7)) subscribed_state))
    = clients subscribed_state ∧
  tableSubscriptions (exec (unsubscribe 1%nat (num 7)) (exec (subscribe 1%nat (num 7)) subscribed_state))
    = tableSubscriptions subscribed_state.
Proof.
  apply (subscribe_unsubscribe_round_trip subscribed_state 1%nat (num 7)).
  - exists subscribed_trace. vm_compute. reflexivity.
  - vm_compute. eauto.
  - unfold in_router. apply (bool_decide_unpack _). vm_compute. exact I.
  - intros (ws & Hc & Ht).
    assert (clients subscribed_state !! 1%nat = Some (mkWs OPEN true {[num 42]})) as Hc1.
    { vm_compute. reflexivity. }
    rewrite Hc1 in Hc. injection Hc as <-. simpl in Ht.
    apply elem_of_singleton, Z2Qc_inj in Ht. discriminate Ht.
Defined.

(** X3. The deletion of a table ends normally, hands the [tableDeleted]
    message once to each open subscriber of the table and to nobody else,
    drops the table's entry whoever is still in it, and leaves the other
    entries and the registry as they were; a broadcast to the table that
    follows reaches nobody. *)
Theorem table_deleted_cleanup s t :
  ∃ s', tableDeleted t s = (Normal tt, s') ∧
        (∀ c, received s' c =
              received s c ++ if decide (c ∈ subscribers_of s t ∧ readyState_of s c = OPEN)
                              then [TextFrame (tableDeleted_message t)] else []) ∧
        tableSubscriptions s' !! t = None ∧
        (∀ t', t' ≠ t → tableSubscriptions s' !! t' = tableSubscriptions s !! t') ∧
        clients s' = clients s ∧
        (∀ data, broadcastTableUpdate t data s' = (Normal tt, s')).
Proof.
  eexists. split; [apply exec_tableDeleted|].
  split; [|split; [|split; [|split]]].
  - intros c.
    pose proof (received_broadcast s t
                  [("type", VStr "tableDeleted"); ("message", VStr "Table was deleted")] c) as Hb.
    unfold exec in Hb. rewrite exec_broadcast in Hb. exact Hb.
  - simpl. apply lookup_delete_eq.
  - intros t' Hne. simpl. by apply lookup_delete_ne.
  - done.
  - intros data. rewrite exec_broadcast. f_equal.
    unfold deliveries, recipients, subscribers_of. simpl. rewrite lookup_delete_eq. simpl.
    rewrite elements_empty, filter_nil. simpl. by rewrite app_nil_r.
Qed.

(** X4. In a reachable state a broadcast for a table reaches only sockets
    that are tracked, open and have the table in their own subscribed set. *)
Theorem broadcast_reaches_only_subscribed s t data c :
  reachable s →
  received (exec (broadcastTableUpdate t data) s) c ≠ received s c →
  ∃ ws, clients s !! c = Some ws ∧ readyState ws = OPEN ∧ t ∈ subscribedTables ws.
Proof.
  intros Hreach Hrecv. rewrite received_broadcast in Hrecv.
  destruct (decide (c ∈ subscribers_of s t ∧ readyState_of s c = OPEN)) as [[Hin Ho]|Hn].
  - destruct (inv_reachable s Hreach) as [Hsound _].
    destruct (Hsound c t Hin) as (ws & Hc & Ht).
    exists ws. split; [done|]. split; [|done].
    unfold readyState_of in Ho. by rewrite Hc in Ho.
  - by rewrite app_nil_r in Hrecv.
Qed.

Lemma broadcast_reaches_only_subscribed_witness :
  ∃ ws, clients subscribed_state !! 1%nat = Some ws ∧ readyState ws = OPEN ∧
        num 42 ∈ subscribedTables ws.
Proof.
  apply (broadcast_reaches_only_subscribed subscribed_state (num 42)
           [("type", VStr "tableUpdated")] 1%nat).
  - exists subscribed_trace. vm_compute. reflexivity.
  - intros Heq. apply (f_equal length) in Heq. vm_compute in Heq. discriminate Heq.
Defined.

(** X5. Once a socket has unsubscribed from a table, a broadcast to that
    table hands it nothing, whatever the state was. *)
Theorem unsubscribed_gets_no_update s c t data :
  received (exec (broadcastTableUpdate t data) (exec (unsubscribe c t) s)) c =
  received (exec (unsubscribe c t) s) c.
Proof.
  rewrite received_broadcast. rewrite decide_False; [by rewrite app_nil_r|].
  intros [Hin _]. unfold subscribers_of in Hin. rewrite exec_unsubscribe in Hin. simpl in Hin.
  rewrite lookup_remove_subscriber, decide_True in Hin by done.
  apply elem_of_pruned in Hin as [Hne _]. done.
Qed.

End RealtimeMore.

(** ** The sweep and the frames a socket gets *)

Section RealtimeFrames.
Import Realtime.

(** The pings of one round of the sweep over the sockets of [l], read in
    the state [s0] the round started from. *)
Lemma sent_sweep_list s0 l s :
  NoDup l → (∀ c, c ∈ l → clients s !! c = clients s0 !! c) →
  sent (exec (forEach l sweep_client) s) =
  sent s ++ ((λ c, (c, PingFrame)) <$>
             filter (λ c, isAlive <$> clients s0 !! c ≠ Some false) l).
Proof.
  intros Hnd. revert s. induction Hnd as [|c l Hnin Hnd IH]; intros s Hsame.
  - simpl. by rewrite app_nil_r.
  - rewrite exec_forEach_cons by apply sweep_client_normal.
    rewrite IH.
    + rewrite exec_sweep_client. simpl. rewrite filter_cons.
      rewrite (Hsame c) by apply list_elem_of_here.
      destruct (decide (isAlive <$> clients s0 !! c = Some false)) as [Hf|Hf].
      * rewrite decide_False by tauto. by rewrite app_nil_r.
      * rewrite decide_True by done. rewrite fmap_cons, <- app_assoc. done.
    + intros c' Hc'. rewrite exec_sweep_client. simpl.
      rewrite lookup_alter_ne by (intros ->; done).
      apply Hsame. by apply list_elem_of_further.
Qed.

Lemma sent_sweep s :
  sent (exec sweep s) =
  sent s ++ ((λ c, (c, PingFrame)) <$>
             filter (λ c, isAlive <$> clients s !! c ≠ Some false) (elements (dom (clients s)))).
Proof.
  unfold sweep. unfold exec at 1. unfold Js.bind, Js.gets. simpl.
  apply (sent_sweep_list s); [apply NoDup_elements|done].
Qed.

Lemma received_sweep s c :
  received (exec sweep s) c = received s c ++ (if decide (alive s c) then [PingFrame] else []).
Proof.
  unfold received. rewrite sent_sweep, filter_app, fmap_app. f_equal.
  rewrite filter_deliveries by apply NoDup_filter, NoDup_elements.
  destruct (decide (alive s c)) as [Hal|Hal]; unfold alive in Hal.
  - rewrite decide_True; [done|].
    apply list_elem_of_filter. split; [by rewrite Hal|].
    apply elem_of_elements, elem_of_dom.
    destruct (clients s !! c); [eauto|done].
  - rewrite decide_False; [done|]. intros Hin.
    apply list_elem_of_filter in Hin as [Hnf Hdom].
    apply elem_of_elements, elem_of_dom in Hdom as [ws Hc].
    rewrite Hc in *. simpl in *. destruct (isAlive ws); [by apply Hal|by apply Hnf].
Qed.

(** X6. One round of the sweep hands exactly one ping to each tracked socket
    that is alive and nothing to any other socket, and leaves the router as
    it was. *)
Theorem sweep_pings_alive s c :
  received (exec sweep s) c = received s c ++ (if decide (alive s c) then [PingFrame] else []) ∧
  tableSubscriptions (exec sweep s) = tableSubscriptions s.
Proof. split; [apply received_sweep|apply tableSubscriptions_sweep]. Qed.

(** Without a closure of the socket and without a sweep, a tracked socket
    that is alive stays tracked and alive, in the same ready state. *)
Lemma undisturbed_keeps_alive c events s s' ws :
  undisturbed c events → run events s = Some s' →
  clients s !! c = Some ws → isAlive ws = true →
  ∃ ws', clients s' !! c = Some ws' ∧ isAlive ws' = true ∧ readyState ws' = readyState ws.
Proof.
  revert s ws. induction events as [|e events IH]; intros s ws Hq Hrun Hc Ha; simpl in Hrun.
  - injection Hrun as <-. eauto.
  - destruct (decide (enabled e s)) as [Hen|]; [|done].
    assert (undisturbed c events) as Hq'.
    { intros e' He'. apply Hq. by apply list_elem_of_further. }
    destruct (Hq e (list_elem_of_here _ _)) as (Hclose & Hsweep).
    assert (∃ ws1, clients (exec (handler e) s) !! c = Some ws1 ∧ isAlive ws1 = true ∧
                   readyState ws1 = readyState ws) as (ws1 & Hc1 & Ha1 & Hr1).
    2:{ destruct (IH _ ws1 Hq' Hrun Hc1 Ha1) as (ws' & ? & ? & ?).
        exists ws'. split; [done|]. split; [done|]. congruence. }
    clear IH Hrun Hq Hq'.
    destruct e as [c0|c0|c0 message|c0| |t data|t]; simpl in *.
    + exists ws. split; [|done]. unfold exec, onConnection, Js.modify. simpl.
      rewrite lookup_insert_ne; [done|]. intros ->. congruence.
    + unfold exec, onPong, update_client, Js.modify. simpl.
      destruct (decide (c0 = c)) as [->|Hnc].
      * rewrite lookup_alter_eq, Hc. simpl. eauto.
      * rewrite lookup_alter_ne by done. eauto.
    + unfold exec.
      destruct (onMessage_cases c0 message s) as [->|[[t ->]|[t ->]]].
      * eauto.
      * fold (exec (subscribe c0 t) s). rewrite exec_subscribe. simpl.
        destruct (decide (c0 = c)) as [->|Hnc].
        -- rewrite lookup_alter_eq, Hc. simpl. eauto.
        -- rewrite lookup_alter_ne by done. eauto.
      * fold (exec (unsubscribe c0 t) s). rewrite exec_unsubscribe. simpl.
        destruct (decide (c0 = c)) as [->|Hnc].
        -- rewrite lookup_alter_eq, Hc. simpl. eauto.
        -- rewrite lookup_alter_ne by done. eauto.
    + exists ws. split; [|done]. rewrite exec_onClose. simpl.
      rewrite lookup_delete_ne; [done|]. intros ->. done.
    + done.
    + unfold exec. rewrite exec_broadcast. eauto.
    + unfold exec. rewrite exec_tableDeleted. eauto.
Qed.

(** X7. A socket whose probe acknowledgment arrives is not terminated by the
    next round of the sweep, whatever else happens in between short of its
    own closure: the round leaves its ready state as it was when the
    acknowledgment came, marks it, and hands it a new ping. *)
Theorem answered_probe_survives s c events s' :
  is_Some (clients s !! c) →
  run events (exec (onPong c) s) = Some s' → undisturbed c events →
  readyState_of (exec sweep s') c = readyState_of s c ∧
  isAlive <$> clients (exec sweep s') !! c = Some false ∧
  received (exec sweep s') c = received s' c ++ [PingFrame].
Proof.
  intros [ws Hc] Hrun Hq.
  assert (clients (exec (onPong c) s) !! c = Some (mkWs (readyState ws) true (subscribedTables ws)))
    as Hc1.
  { unfold exec, onPong, update_client, Js.modify. simpl. by rewrite lookup_alter_eq, Hc. }
  destruct (undisturbed_keeps_alive c events _ s' _ Hq Hrun Hc1 eq_refl) as (ws' & Hc' & Ha' & Hr').
  simpl in Hr'. split; [|split].
  - unfold readyState_of. rewrite clients_sweep, lookup_fmap, Hc', Hc. simpl.
    unfold swept. by rewrite Ha'.
  - rewrite clients_sweep, lookup_fmap, Hc'. simpl. unfold swept. by rewrite Ha'.
  - rewrite received_sweep.
    destruct (decide (alive s' c)) as [|Hn]; [done|].
    destruct Hn. unfold alive. by rewrite Hc', <- Ha'.
Qed.

End RealtimeFrames.

(** ** Closed sockets, and the tag of a broadcast *)

Section RealtimeEnvelope.
Import Realtime.

Lemma received_other s c c' f :
  c' ≠ c →
  received (mkServer (clients s) (tableSubscriptions s) (sent s ++ [(c', f)])) c = received s c.
Proof.
  intros Hne. rewrite received_app. rewrite filter_cons, decide_False by done.
  rewrite filter_nil. simpl. by rewrite app_nil_r.
Qed.

(** One event that is not the connection of [c] hands nothing to [c] when
    [c] is not tracked, and leaves it so. *)
Lemma untracked_step c e s :
  clients s !! c = None → enabled e s → e ≠ EvConnection c →
  clients (exec (handler e) s) !! c = None ∧ received (exec (handler e) s) c = received s c.
Proof.
  intros Hc Hen Hne.
  destruct e as [c0|c0|c0 message|c0| |t data|t]; simpl in *.
  - unfold exec, onConnection, Js.modify. simpl. split; [|done].
    rewrite lookup_insert_ne; [done|]. congruence.
  - unfold exec, onPong, update_client, Js.modify. simpl. split; [|done].
    rewrite lookup_alter_ne; [done|]. intros ->. rewrite Hc in Hen. by destruct Hen.
  - assert (c0 ≠ c) as Hnc by (intros ->; rewrite Hc in Hen; by destruct Hen).
    unfold exec.
    destruct (onMessage_cases c0 message s) as [->|[[t ->]|[t ->]]]; [done| |].
    + fold (exec (subscribe c0 t) s). rewrite exec_subscribe. split.
      * simpl. by rewrite lookup_alter_ne.
      * unfold received. simpl. rewrite filter_app, filter_cons, decide_False by done.
        rewrite filter_nil. by rewrite app_nil_r.
    + fold (exec (unsubscribe c0 t) s). rewrite exec_unsubscribe. split.
      * simpl. by rewrite lookup_alter_ne.
      * unfold received. simpl. rewrite filter_app, filter_cons, decide_False by done.
        rewrite filter_nil. by rewrite app_nil_r.
  - rewrite exec_onClose. simpl. split; [|done].
    destruct (decide (c0 = c)) as [->|Hnc]; [apply lookup_delete_eq|].
    by rewrite lookup_delete_ne.
  - split.
    + by rewrite clients_sweep, lookup_fmap, Hc.
    + rewrite received_sweep. destruct (decide (alive s c)) as [Hal|]; [|by rewrite app_nil_r].
      unfold alive in Hal. by rewrite Hc in Hal.
  - split; [unfold exec; by rewrite exec_broadcast|].
    rewrite received_broadcast, decide_False; [by rewrite app_nil_r|].
    intros [_ Ho]. unfold readyState_of in Ho. by rewrite Hc in Ho.
  - split; [unfold exec; by rewrite exec_tableDeleted|].
    pose proof (received_broadcast s t
                  [("type", VStr "tableDeleted"); ("message", VStr "Table was deleted")] c) as Hb.
    unfold exec in *. rewrite exec_broadcast in Hb. rewrite exec_tableDeleted.
    unfold received in *. simpl in *. rewrite Hb, decide_False; [by rewrite app_nil_r|].
    intros [_ Ho]. unfold readyState_of in Ho. by rewrite Hc in Ho.
Qed.

Lemma untracked_run c events s s' :
  clients s !! c = None → run events s = Some s' → EvConnection c ∉ events →
  clients s' !! c = None ∧ received s' c = received s c.
Proof.
  revert s. induction events as [|e events IH]; intros s Hc Hrun Hnot; simpl in Hrun.
  - by injection Hrun as <-.
  - destruct (decide (enabled e s)) as [Hen|]; [|done].
    destruct (untracked_step c e s Hc Hen) as [Hc1 Hr1].
    { intros ->. apply Hnot, list_elem_of_here. }
    destruct (IH _ Hc1 Hrun) as [Hc' Hr'].
    { intros Hin. by apply Hnot, list_elem_of_further. }
    split; [done|congruence].
Qed.

(** X8. Once a socket has closed, nothing is handed to it any more, whatever
    events follow: no confirmation, no ping and no broadcast, even for a
    table whose entry still lists it. *)
Theorem closed_socket_receives_nothing s c events s' :
  run events (exec (onClose c) s) = Some s' → EvConnection c ∉ events →
  received s' c = received s c ∧ clients s' !! c = None.
Proof.
  intros Hrun Hnot.
  destruct (untracked_run c events (exec (onClose c) s) s') as [Hc Hr]; [|done|done|].
  - rewrite exec_onClose. simpl. apply lookup_delete_eq.
  - split; [|done]. rewrite Hr. by rewrite exec_onClose.
Qed.

(** Object spread, property by property. *)
Lemma prop_set_prop k k' v o :
  prop k (set_prop k' v o) = if decide (k' = k) then v else prop k o.
Proof.
  induction o as [|[k0 v0] o IH]; simpl.
  - destruct (decide (k' = k)); done.
  - destruct (decide (k0 = k')) as [->|Hne]; simpl.
    + destruct (decide (k' = k)); done.
    + destruct (decide (k0 = k)) as [->|Hnk].
      * by rewrite decide_False.
      * exact IH.
Qed.

Lemma last_binding_from k (found : option Value) data :
  foldl (λ found kv, if decide (kv.1 = k) then Some kv.2 else found) found data =
  match last_binding k data with Some v => Some v | None => found end.
Proof.
  unfold last_binding. revert found.
  induction data as [|[k0 v0] data IH]; intros found; simpl; [done|].
  rewrite IH. rewrite (IH (if decide (k0 = k) then Some v0 else None)).
  destruct (foldl _ None data); [done|]. by destruct (decide (k0 = k)).
Qed.

Lemma prop_spread k o data :
  prop k (spread o data) = default (prop k o) (last_binding k data).
Proof.
  unfold spread. revert o. induction data as [|[k0 v0] data IH]; intros o; simpl; [done|].
  rewrite IH, prop_set_prop. unfold last_binding at 2. simpl.
  rewrite last_binding_from.
  destruct (last_binding k data); [done|]. simpl. by destruct (decide (k0 = k)).
Qed.

Lemma keys_set_prop k v o : NoDup o.*1 → NoDup (set_prop k v o).*1 ∧
  ∀ k', k' ∈ (set_prop k v o).*1 ↔ k' = k ∨ k' ∈ o.*1.
Proof.
  induction o as [|[k0 v0] o IH]; simpl; intros Hnd.
  - split; [apply NoDup_singleton|]. intros k'. rewrite list_elem_of_singleton, elem_of_nil. tauto.
  - apply NoDup_cons in Hnd as [Hk0 Hnd]. destruct (IH Hnd) as [IH1 IH2].
    destruct (decide (k0 = k)) as [->|Hne]; simpl.
    + split; [by apply NoDup_cons|]. intros k'. rewrite !elem_of_cons. tauto.
    + split.
      * apply NoDup_cons. split; [|done]. rewrite IH2. intros [?|?]; done.
      * intros k'. rewrite !elem_of_cons, IH2. tauto.
Qed.

Lemma keys_spread o data : NoDup o.*1 → NoDup (spread o data).*1.
Proof.
  unfold spread. revert o. induction data as [|[k0 v0] data IH]; intros o Hnd; simpl; [done|].
  apply IH. by apply keys_set_prop.
Qed.

Lemma prop_absent k (o : JsObject) : k ∉ o.*1 → prop k o = VUndefined.
Proof.
  induction o as [|[k0 v0] o IH]; simpl; [done|]. intros Hn.
  apply not_elem_of_cons in Hn as [Hne Hn]. rewrite decide_False by done. by apply IH.
Qed.

Lemma prop_stringify k (o : JsObject) : NoDup o.*1 → prop k (JSON_stringify o) = prop k o.
Proof.
  unfold JSON_stringify. induction o as [|[k0 v0] o IH]; simpl; [done|]. intros Hnd.
  apply NoDup_cons in Hnd as [Hk0 Hnd]. rewrite filter_cons. simpl.
  destruct (decide (is_undefined v0 = false)) as [Hv|Hv]; simpl.
  - destruct (decide (k0 = k)); [done|]. by apply IH.
  - rewrite IH by done. destruct (decide (k0 = k)) as [->|Hne]; [|done].
    rewrite prop_absent by done. by destruct v0.
Qed.

(** X9. The message of a broadcast takes its type from the data: the last
    [type] of the data replaces the outer [tableUpdate], which is what the
    clients see only when the data carry no [type]; the same holds for the
    [tableId]. *)
Theorem update_message_tags t data :
  prop "type" (update_message t data) = default (VStr "tableUpdate") (last_binding "type" data) ∧
  prop "tableId" (update_message t data) = default (VNum t) (last_binding "tableId" data).
Proof.
  assert (NoDup [("type", VStr "tableUpdate"); ("tableId", VNum t)].*1) as Hnd.
  { simpl. apply NoDup_cons. split; [|apply NoDup_singleton].
    rewrite list_elem_of_singleton. discriminate. }
  unfold update_message. split.
  - rewrite prop_stringify by (by apply keys_spread). by rewrite prop_spread.
  - rewrite prop_stringify by (by apply keys_spread). by rewrite prop_spread.
Qed.

End RealtimeEnvelope.

Lemma answered_probe_survives_witness :
  Realtime.readyState_of (Realtime.exec Realtime.sweep (Realtime.exec (Realtime.onPong 1%nat) probed_state)) 1%nat
    = Realtime.readyState_of probed_state 1%nat ∧
  Realtime.isAlive <$>
    Realtime.clients (Realtime.exec Realtime.sweep (Realtime.exec (Realtime.onPong 1%nat) probed_state)) !! 1%nat
    = Some false ∧
  Realtime.received (Realtime.exec Realtime.sweep (Realtime.exec (Realtime.onPong 1%nat) probed_state)) 1%nat
    = Realtime.received (Realtime.exec (Realtime.onPong 1%nat) probed_state) 1%nat ++ [Realtime.PingFrame].
Proof.
  apply (answered_probe_survives probed_state 1%nat []).
  - vm_compute. eauto.
  - reflexivity.
  - intros e He. by apply elem_of_nil in He.
Defined.

Lemma closed_socket_receives_nothing_witness :
  Realtime.received
    (Realtime.exec (Realtime.broadcastTableUpdate (num 42) [("type", VStr "tableUpdated")])
       (Realtime.exec (Realtime.onClose 1%nat) fan_out_state)) 1%nat
    = Realtime.received fan_out_state 1%nat ∧
  Realtime.clients
    (Realtime.exec (Realtime.broadcastTableUpdate (num 42) [("type", VStr "tableUpdated")])
       (Realtime.exec (Realtime.onClose 1%nat) fan_out_state)) !! 1%nat = None.
Proof.
  apply (closed_socket_receives_nothing fan_out_state 1%nat
           [Realtime.EvBroadcast (num 42) [("type", VStr "tableUpdated")]]).
  - reflexivity.
  - intros Hin. apply list_elem_of_singleton in Hin. discriminate Hin.
Defined.

(** ** The shape of a snapshot and of a sheet id *)

Section FetcherShape.
Import Sheets.

Lemma append_cons x (a b : string) : String x a +:+ b = String x (a +:+ b).
Proof. reflexivity. Qed.

Lemma append_empty_r (a : string) : a +:+ EmptyString = a.
Proof. induction a as [|x a IH]; [done|]. by rewrite append_cons, IH. Qed.

Lemma append_assoc' (a b c : string) : (a +:+ b) +:+ c = a +:+ (b +:+ c).
Proof. induction a as [|x a IH]; [done|]. by rewrite !append_cons, IH. Qed.

Lemma length_append (a b : string) :
  String.length (a +:+ b) = (String.length a + String.length b)%nat.
Proof. induction a as [|x a IH]; [done|]. rewrite append_cons. simpl. by rewrite IH. Qed.

Lemma all_in_class_append (a b : string) :
  all_in_class (a +:+ b) = all_in_class a && all_in_class b.
Proof.
  induction a as [|x a IH]; [done|]. rewrite append_cons. simpl. rewrite IH. by rewrite andb_assoc.
Qed.

(** What a match of the pattern is, whatever has been read before it. *)
Lemma match_from_spec rest run before id :
  all_in_class run = true → match_from run rest = Some id →
  (25 ≤ String.length id)%nat ∧ all_in_class id = true ∧
  ∃ before' after, before +:+ run +:+ rest = before' +:+ id +:+ after.
Proof.
  revert run before. induction rest as [|a rest IH]; intros run before Hrun; cbn [match_from].
  - destruct (25 <=? String.length run)%nat eqn:Hlen; [|done]. intros [= <-].
    apply Nat.leb_le in Hlen. split; [done|]. split; [done|]. by exists before, EmptyString.
  - destruct (word_or_hyphen a) eqn:Ha.
    + intros Hm.
      destruct (IH (run +:+ String a EmptyString) before) as (Hl & Hc & before' & after & Heq);
        [|done|].
      { rewrite all_in_class_append, Hrun. simpl. by rewrite Ha. }
      split; [done|]. split; [done|]. exists before', after.
      rewrite <- Heq. by rewrite (append_assoc' run).
    + destruct (25 <=? String.length run)%nat eqn:Hlen.
      * intros [= <-]. apply Nat.leb_le in Hlen. split; [done|]. split; [done|].
        by exists before, (String a rest).
      * intros Hm.
        destruct (IH EmptyString (before +:+ run +:+ String a EmptyString)) as
          (Hl & Hc & before' & after & Heq); [done|done|].
        split; [done|]. split; [done|]. exists before', after.
        rewrite <- Heq. by rewrite !append_assoc'.
Qed.

(** A text that is too short for the pattern has no match. *)
Lemma match_from_short rest run :
  (String.length run + String.length rest < 25)%nat → match_from run rest = None.
Proof.
  revert run. induction rest as [|a rest IH]; intros run Hlen;
    cbn [match_from String.length] in *.
  - destruct (25 <=? String.length run)%nat eqn:Hl; [|done]. apply Nat.leb_le in Hl. lia.
  - destruct (word_or_hyphen a).
    + apply IH. rewrite length_append. cbn [String.length]. lia.
    + destruct (25 <=? String.length run)%nat eqn:Hl.
      * apply Nat.leb_le in Hl. lia.
      * apply IH. cbn [String.length]. lia.
Qed.

(** X10. The sheet id taken from a URL is a piece of the URL of at least 25
    characters, all of them letters, digits, underscores or hyphens; a URL
    of fewer than 25 characters has no sheet id and is answered with the
    [Error] snapshot, whatever the world. *)
Theorem sheet_id_shape {S} world sheetUrl (s : S) :
  (∀ id, match_sheet_id sheetUrl = Some id →
     (25 ≤ String.length id)%nat ∧ all_in_class id = true ∧
     ∃ before after, sheetUrl = before +:+ id +:+ after) ∧
  ((String.length sheetUrl < 25)%nat →
     fetchGoogleSheetData world sheetUrl s = (Normal error_snapshot, s)).
Proof.
  split.
  - intros id Hm. apply (match_from_spec sheetUrl EmptyString EmptyString id); done.
  - intros Hlen. unfold fetchGoogleSheetData, Js.try_catch, Js.throw, Js.ret.
    unfold match_sheet_id. by rewrite match_from_short.
Qed.

Lemma length_data_row world headers row :
  (length headers ≤ length (data_row world headers row))%nat.
Proof.
  destruct row as [cells|truthy]; simpl.
  - rewrite length_fmap, length_seq. lia.
  - by rewrite length_replicate.
Qed.

(** The shape of what the inner [try] returns. *)
Lemma read_sheet_shape {S} world spreadsheetId apiKey (s s' : S) snapshot :
  read_sheet world spreadsheetId apiKey s = (Normal snapshot, s') →
  rows_cover_headers snapshot ∧ (headers snapshot ≠ [] → rows snapshot ≠ []).
Proof.
  unfold read_sheet, Js.bind, Js.lift, Js.ret.
  destruct (spreadsheets_values_get world spreadsheetId apiKey) as [values|e]; simpl; [|done].
  destruct (decide (length (default [] values) = 0%nat)); simpl.
  { intros [= <- _]. split; [by apply Forall_nil|done]. }
  destruct (first_row_headers world (default [] values)) as [first|e]; [|done].
  intros [= <- _]. unfold rows_cover_headers. simpl.
  set (hs := if decide (length first = 0%nat)
             then first ++ generic_headers (maxColumns (default [] values)) else first).
  assert (Forall (λ row, (length hs ≤ length row)%nat) (data_row world hs <$> drop 1 (default [] values)))
    as Hrows.
  { apply Forall_fmap, Forall_forall. intros row _. simpl. apply length_data_row. }
  destruct (decide (length (data_row world hs <$> drop 1 (default [] values)) = 0%nat ∧
                    (0 < length hs)%nat)) as [[Hz Hp]|Hn].
  - split.
    + apply Forall_app. split; [done|]. apply Forall_singleton. by rewrite length_replicate.
    + intros _ Hnil. by apply app_eq_nil in Hnil as [_ ?].
  - split; [done|]. intros Hhs Hnil. apply Hn. split; [by rewrite Hnil|].
    destruct hs; [done|simpl; lia].
Qed.

Lemma fetch_shape {S} world sheetUrl (s : S) :
  ∃ snapshot, fetchGoogleSheetData world sheetUrl s = (Normal snapshot, s) ∧
              rows_cover_headers snapshot ∧ (headers snapshot ≠ [] → rows snapshot ≠ []).
Proof.
  assert (∀ label note, rows_cover_headers {| headers := [label]; rows := [[note]] |} ∧
            (headers {| headers := [label]; rows := [[note]] |} ≠ [] →
             rows {| headers := [label]; rows := [[note]] |} ≠ [])) as Hnote.
  { intros label note. split; [|done]. apply Forall_singleton. simpl. lia. }
  unfold fetchGoogleSheetData, Js.try_catch, Js.throw, Js.ret.
  destruct (match_sheet_id sheetUrl) as [spreadsheetId|]; [|eauto].
  destruct (decide (default EmptyString (GOOGLE_SHEETS_API_KEY world) = EmptyString)); [eauto|].
  pose proof (read_sheet_pure world spreadsheetId
                (default EmptyString (GOOGLE_SHEETS_API_KEY world)) s) as Hp.
  destruct (read_sheet world spreadsheetId _ s) as [[snapshot|e] s'] eqn:Hread;
    simpl in Hp; subst s'.
  - exists snapshot. split; [done|]. by eapply read_sheet_shape.
  - destruct (has_status e 404); [eauto|]. destruct (has_status e 403); eauto.
Qed.

(** X11. Every snapshot the fetcher returns, from the sheet or as an error
    description, has in each of its rows at least as many cells as it has
    headers. *)
Theorem snapshot_rows_cover_headers {S} world sheetUrl (s : S) :
  ∃ snapshot, fetchGoogleSheetData world sheetUrl s = (Normal snapshot, s) ∧
              rows_cover_headers snapshot.
Proof. destruct (fetch_shape world sheetUrl s) as (snapshot & ? & ? & _). eauto. Qed.

(** X12. A snapshot that has headers has at least one row: a sheet with a
    header row only is given one row of empty cells. *)
Theorem snapshot_headers_have_a_row {S} world sheetUrl (s : S) :
  ∃ snapshot, fetchGoogleSheetData world sheetUrl s = (Normal snapshot, s) ∧
              (headers snapshot ≠ [] → rows snapshot ≠ []).
Proof. destruct (fetch_shape world sheetUrl s) as (snapshot & ? & _ & ?). eauto. Qed.

End FetcherShape.

Lemma sheet_id_shape_witness :
  (25 ≤ String.length "1BxiMVs0XRA5nFMdKvBdBZjgmUUqptlbs74OgvE2upms")%nat ∧
  Sheets.fetchGoogleSheetData forbidding_world "docs.google.com/x" tt = (Normal error_snapshot, tt).
Proof.
  destruct (sheet_id_shape forbidding_world sheet_url tt) as [Hid _].
  destruct (sheet_id_shape forbidding_world "docs.google.com/x" tt) as [_ Hshort].
  split.
  - apply (Hid "1BxiMVs0XRA5nFMdKvBdBZjgmUUqptlbs74OgvE2upms"). vm_compute. reflexivity.
  - apply Hshort. vm_compute. lia.
Defined.

(** ** The store: values, tables and their dependants *)

Section StoreMore.
Import Storage StorageOps.

Lemma filter_fmap_fixed {A} (P : A → Prop) `{∀ x, Decision (P x)} (g : A → A) (l : list A) :
  (∀ r, r ∈ l → (P (g r) ↔ P r) ∧ (P r → g r = r)) →
  filter P (g <$> l) = filter P l.
Proof.
  induction l as [|x l IH]; intros Hg; [done|].
  rewrite fmap_cons, !filter_cons.
  destruct (Hg x (list_elem_of_here _ _)) as [Hiff Hfix].
  rewrite IH by (intros r Hr; apply Hg; by apply list_elem_of_further).
  destruct (decide (P x)) as [Hx|Hx].
  - rewrite decide_True by (by apply Hiff). by rewrite Hfix.
  - rewrite decide_False; [done|]. by rewrite Hiff.
Qed.

(** X13. On a store with the serial key, [saveColumnValue] for one cell leaves
    what is stored for every other cell as it was, and does not touch the
    tables and the custom columns. *)
Theorem saveColumnValue_other_cells d insertColumnValue createdAt updatedAt columnId rowIndex :
  serial_key d →
  (columnId, rowIndex) ≠ (ins_columnId insertColumnValue, ins_rowIndex insertColumnValue) →
  stored (save insertColumnValue createdAt updatedAt d).2 columnId rowIndex
    = stored d columnId rowIndex ∧
  tables (save insertColumnValue createdAt updatedAt d).2 = tables d ∧
  customColumns (save insertColumnValue createdAt updatedAt d).2 = customColumns d.
Proof.
  intros [_ Hkey] Hother. rewrite save_unfold. unfold stored.
  destruct (decide (int4 (ins_columnId insertColumnValue) ∧ int4 (ins_rowIndex insertColumnValue)));
    [|done].
  set (P := λ v : ColumnValue, ColumnValue.columnId v = ins_columnId insertColumnValue ∧
                               ColumnValue.rowIndex v = ins_rowIndex insertColumnValue).
  destruct (head (filter P (columnValues d))) as [existing|] eqn:Hfind; cbv zeta; cbn [fst snd].
  - split; [|done]. cbn [columnValues]. unfold update_returning. cbn [fst].
    apply head_filter_Some in Hfind as [[Hcol Hrow] Hin].
    f_equal. apply filter_fmap_fixed. intros r Hr. split.
    + by destruct (bool_decide (ColumnValue.id r = ColumnValue.id existing)).
    + intros [Hc Hrw].
      destruct (bool_decide (ColumnValue.id r = ColumnValue.id existing)) eqn:Hid; [|done].
      apply bool_decide_eq_true in Hid.
      apply list_elem_of_lookup in Hr as [i Hi]. apply list_elem_of_lookup in Hin as [j Hj].
      assert (i = j) as -> by eauto. assert (r = existing) as -> by congruence.
      destruct Hother. congruence.
  - destruct (decide (int4 (columnValues_id_seq d + 1))); [|done].
    destruct (decide (ins_columnId insertColumnValue ∈ CustomColumn.id <$> customColumns d ∧
                      columnValues_id_seq d + 1 ∉ (ColumnValue.id <$> columnValues d)));
      cbn [fst snd]; [|done].
    split; [|done]. cbn [columnValues]. rewrite filter_app, filter_cons. simpl.
    rewrite decide_False.
    + by rewrite filter_nil, app_nil_r.
    + intros [Hc Hrw]. destruct Hother. congruence.
Qed.










End StoreMore.



Lemma serial_key_two_tables : Storage.serial_key two_tables_db.
Proof.
  split.
  - intros v Hv. simpl in Hv. in_list Hv; simpl; lia.
  - intros [|[|i]] [|[|j]] v w Hi Hj; simpl in *; try done; intros; simplify_eq.
Qed.

Lemma saveColumnValue_other_cells_witness :
  stored (Storage.save {| ins_columnId := 5; ins_rowIndex := 3; ins_value := "done" |} 20 20
            two_tables_db).2 6 0
    = stored two_tables_db 6 0 ∧
  Storage.tables (Storage.save {| ins_columnId := 5; ins_rowIndex := 3; ins_value := "done" |} 20 20
                    two_tables_db).2 = Storage.tables two_tables_db ∧
  Storage.customColumns (Storage.save {| ins_columnId := 5; ins_rowIndex := 3; ins_value := "done" |}
                           20 20 two_tables_db).2 = Storage.customColumns two_tables_db.
Proof.
  apply (saveColumnValue_other_cells two_tables_db
           {| ins_columnId := 5; ins_rowIndex := 3; ins_value := "done" |} 20 20 6 0).
  - apply serial_key_two_tables.
  - simpl. intros Heq. injection Heq as Hc Hr. discriminate Hc.
Defined.





(** ** The routes: who may read and write what, and who is told *)

Section RoutesMore.
Import Realtime Sheets Storage StorageOps Routes.

Lemma elem_of_innerJoin {A B} (on : A → B → bool) (l : list A) (r : list B) a b :
  (a, b) ∈ innerJoin on l r ↔ a ∈ l ∧ b ∈ r ∧ on a b = true.
Proof.
  unfold innerJoin. rewrite list_elem_of_bind. split.
  - intros (a' & Hin & Ha). apply list_elem_of_fmap in Hin as (b' & [= -> ->] & Hb).
    apply list_elem_of_filter in Hb as [? ?]. done.
  - intros (Ha & Hb & Hon). exists a. split; [|done].
    apply list_elem_of_fmap. exists b. split; [done|]. by apply list_elem_of_filter.
Qed.

(** [getUserCustomColumn] answers with a column of the user or with
    nothing, and with nothing only when the user has no column of that id. *)
Lemma column_of_user_Some d columnId userId c :
  column_of_user d columnId userId = Some c →
  CustomColumn.id c = columnId ∧ user_has_column d userId c.
Proof.
  unfold column_of_user. intros Hc.
  destruct (head _) as [[c' t]|] eqn:Hh; [|done]. injection Hc as ->.
  apply head_filter_Some in Hh as [[Hid Hu] Hin]. simpl in *.
  apply elem_of_innerJoin in Hin as (Hc & Ht & Hon). apply bool_decide_eq_true in Hon.
  split; [done|]. split; [done|]. exists t. done.
Qed.

Lemma column_of_user_None d columnId userId c :
  column_of_user d columnId userId = None →
  CustomColumn.id c = columnId → ¬ user_has_column d userId c.
Proof.
  unfold column_of_user. intros Hnone Hid (Hc & t & Ht & Htid & Hu).
  destruct (head _) as [ct|] eqn:Hh; [done|].
  eapply (head_filter_None _ _ Hh (c, t)).
  - apply elem_of_innerJoin. split; [done|]. split; [done|]. by apply bool_decide_eq_true.
  - done.
Qed.




(** X18. A resynchronisation asked for by anyone but the owner of the table
    changes nothing: nothing is fetched into the store, no timestamp is
    written and nothing is sent.  Without a user both routes answer 401, and
    without a table of that id that belongs to the user they answer 404.
    With an id that is [NaN] or out of the range of [integer] the lookup
    throws, in the route and again in its [catch] block, so that the handler
    throws and no answer is sent (the block answers 401 first when the id of
    the user is 0). *)
Theorem resync_requires_owner world now timestamp (req : Routes.Request) a :
  table_of_request (db a) (Routes.user req) (Routes.params_id req) = None →
  let outcome :=
    match Routes.user req, Routes.params_id req with
    | None, _ => Normal not_authenticated
    | Some _, Some _ => Normal table_not_found
    | Some userId, None =>
        if decide (userId = 0) then Normal not_authenticated else Throw DatabaseError
    end in
  get_table_data world now req a = (outcome, a) ∧
  post_table_sync world now timestamp req a = (outcome, a).
Proof.
  unfold table_of_request, get_table_data, post_table_sync, Js.try_catch, lookup_user_table,
    answer_after_error.
  destruct (Routes.user req) as [userId|]; [|done].
  destruct (Routes.params_id req) as [tableId|].
  - intros Hnone. unfold Js.bind, getUserTable, Js.gets. cbn [fst snd]. by rewrite Hnone.
  - intros _. cbv zeta. unfold Js.bind, Js.throw. cbn [fst snd].
    destruct (decide (userId = 0)) as [->|Hne]; [done|].
    by destruct userId.
Qed.


End RoutesMore.

(** ** The routes of the column values *)

Section ValueRoutes.
Import Realtime Sheets Storage StorageOps Routes.

Lemma saveColumnValue_app ins createdAt updatedAt (a : App) :
  alone (saveColumnValue db set_db ins createdAt updatedAt) a =
  ((save ins createdAt updatedAt (db a)).1, mkApp (save ins createdAt updatedAt (db a)).2 (server a)).
Proof.
  rewrite save_unfold. unfold saveColumnValue, stored. cbn [alone].
  unfold getColumnValue, integer_param.
  destruct (decide (int4 (ins_columnId ins))) as [Hc|Hc];
    destruct (decide (int4 (ins_rowIndex ins))) as [Hr|Hr];
    destruct (decide (int4 (ins_columnId ins) ∧ int4 (ins_rowIndex ins))) as [?|Hn];
    try tauto; try (by destruct a).
  unfold Js.bind, Js.ret, Js.gets. cbn [fst snd].
  destruct (head (filter _ (columnValues (db a)))) as [existing|]; cbn [alone].
  - reflexivity.
  - unfold insert_value, Js.bind, Js.gets, Js.modify, Js.ret, Js.throw. cbn [fst snd]. cbv zeta.
    destruct (decide (int4 (columnValues_id_seq (db a) + 1))); [|by destruct a].
    destruct (decide (ins_columnId ins ∈ CustomColumn.id <$> customColumns (db a) ∧
                      columnValues_id_seq (db a) + 1 ∉ (ColumnValue.id <$> columnValues (db a))));
      reflexivity.
Qed.




Lemma save_keeps_tables ins createdAt updatedAt d :
  tables (save ins createdAt updatedAt d).2 = tables d ∧
  customColumns (save ins createdAt updatedAt d).2 = customColumns d.
Proof.
  rewrite save_unfold.
  destruct (decide (int4 (ins_columnId ins) ∧ int4 (ins_rowIndex ins))); [|done].
  destruct (stored d (ins_columnId ins) (ins_rowIndex ins)); cbv zeta; [done|].
  destruct (decide (int4 (columnValues_id_seq d + 1))); [|done].
  by destruct (decide (ins_columnId ins ∈ CustomColumn.id <$> customColumns d ∧
                       columnValues_id_seq d + 1 ∉ (ColumnValue.id <$> columnValues d))).
Qed.

(** A value of another column than the saved one stays as it is. *)
Lemma save_keeps_value ins createdAt updatedAt d v :
  serial_key d → v ∈ columnValues d → ColumnValue.columnId v ≠ ins_columnId ins →
  v ∈ columnValues (save ins createdAt updatedAt d).2.
Proof.
  intros [_ Hkey] Hv Hne. rewrite save_unfold.
  destruct (decide (int4 (ins_columnId ins) ∧ int4 (ins_rowIndex ins))); [|done].
  unfold stored.
  destruct (head (filter _ (columnValues d))) as [existing|] eqn:Hfind;
    cbv zeta; cbn [fst snd columnValues].
  - apply head_filter_Some in Hfind as [[Hcol _] Hin].
    unfold update_returning. cbn [fst]. apply list_elem_of_fmap. exists v. split; [|done].
    rewrite bool_decide_eq_false_2; [done|]. intros Hid.
    apply list_elem_of_lookup in Hv as [i Hi]. apply list_elem_of_lookup in Hin as [j Hj].
    assert (i = j) as -> by eauto. congruence.
  - destruct (decide (int4 (columnValues_id_seq d + 1))); [|done].
    destruct (decide (ins_columnId ins ∈ CustomColumn.id <$> customColumns d ∧
                      columnValues_id_seq d + 1 ∉ (ColumnValue.id <$> columnValues d)));
      cbn [columnValues]; [|done].
    apply elem_of_app. by left.
Qed.

(** The sheet data a saved value is broadcast with. *)
Lemma post_sheetData world (table : option Table) (a : App) :
  ∃ sheetData,
    match table with
    | Some table =>
        if decide (Table.googleSheetUrl table = EmptyString) then Js.ret None
        else let* fetched := fetchGoogleSheetData world (Table.googleSheetUrl table) in
             Js.ret (Some fetched)
    | None => Js.ret None
    end a = (Normal sheetData, a).
Proof.
  destruct table as [table|]; [|by exists None].
  destruct (decide (Table.googleSheetUrl table = EmptyString)); [by exists None|].
  destruct (fetch_returns world (Table.googleSheetUrl table) a) as [sd Hsd].
  exists (Some sd). unfold Js.bind. by rewrite Hsd.
Qed.

(** A column of the requester has an id the database knows. *)
Lemma column_of_user_stored d columnId userId column :
  column_of_user d columnId userId = Some column →
  columnId ∈ CustomColumn.id <$> customColumns d.
Proof.
  intros (<- & Hin & _)%column_of_user_Some. apply list_elem_of_fmap. eauto.
Qed.

(** [POST /api/columns/values] from the saving on: what the route answers
    and what it leaves follow what [saveColumnValue] does. *)
Lemma post_column_value_run world createdAt updatedAt (req : RoutesOps.Request) a
    userId columnId rowIndex value c r column :
  RoutesOps.user req = Some userId →
  RoutesOps.body_columnId req = Some columnId →
  RoutesOps.body_rowIndex req = Some rowIndex →
  RoutesOps.body_value req = Some value →
  RoutesOps.integer_of columnId = Some c → RoutesOps.integer_of rowIndex = Some r →
  column_of_user (db a) c userId = Some column →
  let ins := {| ins_columnId := c; ins_rowIndex := r; ins_value := value |} in
  ∃ sheetData,
    RoutesOps.post_column_value world createdAt updatedAt req a =
    match (save ins createdAt updatedAt (db a)).1 with
    | Normal columnValue =>
        (Normal match columnValue with
                | Some columnValue =>
                    {| RoutesOps.status := 201; RoutesOps.body := RoutesOps.OneValue columnValue |}
                | None => {| RoutesOps.status := 201; RoutesOps.body := RoutesOps.Message [] |}
                end,
         mkApp (save ins createdAt updatedAt (db a)).2
               (exec (broadcastTableUpdate (num (CustomColumn.tableId column))
                        [("type", VStr "columnValueUpdated"); ("columnId", VNum columnId);
                         ("rowIndex", VNum rowIndex); ("value", VStr value);
                         ("customColumns",
                          VColumns (filter (λ x, CustomColumn.tableId x = CustomColumn.tableId column)
                                           (customColumns (db a))));
                         ("sheetData", RoutesOps.sheetData_value sheetData)])
                     (server a)))
    | Throw e =>
        (Normal (RoutesOps.failure "Failed to save column value" e),
         mkApp (save ins createdAt updatedAt (db a)).2 (server a))
    end.
Proof.
  intros Huser Hcol Hrow Hval Hc Hr Hcolumn ins.
  destruct (save_keeps_tables ins createdAt updatedAt (db a)) as [Htables Hcolumns].
  unfold RoutesOps.post_column_value, Js.try_catch.
  rewrite Huser, Hcol, Hrow, Hval, Hc, Hr.
  unfold Js.bind at 1. unfold getUserCustomColumn at 1, Js.gets at 1. cbn [fst snd].
  fold (column_of_user (db a) c userId). rewrite Hcolumn.
  unfold Js.bind at 1. fold ins. rewrite saveColumnValue_app.
  destruct ((save ins createdAt updatedAt (db a)).1) as [columnValue|e].
  2:{ by exists None. }
  unfold Js.bind at 1. unfold getUserTable at 1, Js.gets at 1. cbn [fst snd db].
  unfold Js.bind at 1. unfold getCustomColumns at 1, Js.gets at 1. cbn [fst snd db].
  rewrite Htables, Hcolumns.
  set (a1 := mkApp (save ins createdAt updatedAt (db a)).2 (server a)).
  set (table := head (filter (λ t, Table.id t = CustomColumn.tableId column ∧ Table.userId t = userId)
                             (tables (db a)))).
  destruct (post_sheetData world table a1) as [sheetData Hsheet].
  exists sheetData.
  unfold Js.bind at 1. rewrite Hsheet.
  unfold Js.bind, realtime, Js.ret, exec. rewrite !exec_broadcast. cbn [fst snd a1 db server].
  by destruct columnValue.
Qed.


(** The store after [POST /api/columns/values]: as it was, or as
    [saveColumnValue] leaves it for a column of the requester. *)
Lemma post_column_value_db world createdAt updatedAt (req : RoutesOps.Request) a :
  db (RoutesOps.post_column_value world createdAt updatedAt req a).2 = db a ∨
  ∃ userId columnId rowIndex value column,
    RoutesOps.user req = Some userId ∧
    column_of_user (db a) columnId userId = Some column ∧
    db (RoutesOps.post_column_value world createdAt updatedAt req a).2 =
      (save {| ins_columnId := columnId; ins_rowIndex := rowIndex; ins_value := value |}
            createdAt updatedAt (db a)).2.
Proof.
  destruct (RoutesOps.user req) as [userId|] eqn:Huser;
    [|left; unfold RoutesOps.post_column_value, Js.try_catch; by rewrite Huser].
  destruct (RoutesOps.body_columnId req) as [columnId|] eqn:Hcol;
    [|left; unfold RoutesOps.post_column_value, Js.try_catch; by rewrite Huser, Hcol].
  destruct (RoutesOps.body_rowIndex req) as [rowIndex|] eqn:Hrow;
    [|left; unfold RoutesOps.post_column_value, Js.try_catch; by rewrite Huser, Hcol, Hrow].
  destruct (RoutesOps.body_value req) as [value|] eqn:Hval;
    [|left; unfold RoutesOps.post_column_value, Js.try_catch; by rewrite Huser, Hcol, Hrow, Hval].
  destruct (RoutesOps.integer_of columnId) as [c|] eqn:Hc.
  2:{ left. unfold RoutesOps.post_column_value, Js.try_catch.
      by rewrite Huser, Hcol, Hrow, Hval, Hc. }
  destruct (column_of_user (db a) c userId) as [column|] eqn:Hcolumn.
  2:{ left. unfold RoutesOps.post_column_value, Js.try_catch. rewrite Huser, Hcol, Hrow, Hval, Hc.
      unfold Js.bind at 1. unfold getUserCustomColumn at 1, Js.gets at 1. cbn [fst snd].
      fold (column_of_user (db a) c userId). by rewrite Hcolumn. }
  destruct (RoutesOps.integer_of rowIndex) as [r|] eqn:Hr.
  2:{ left. unfold RoutesOps.post_column_value, Js.try_catch.
      rewrite Huser, Hcol, Hrow, Hval, Hc, Hr.
      unfold Js.bind at 1. unfold getUserCustomColumn at 1, Js.gets at 1. cbn [fst snd].
      fold (column_of_user (db a) c userId). by rewrite Hcolumn. }
  right. exists userId, c, r, value, column. split; [done|]. split; [done|].
  destruct (post_column_value_run world createdAt updatedAt req a _ _ _ _ _ _ _
              Huser Hcol Hrow Hval Hc Hr Hcolumn) as [sheetData ->].
  by destruct ((save _ createdAt updatedAt (db a)).1).
Qed.

Lemma take_1_head {A} (l : list A) : take 1 l = match head l with Some x => [x] | None => [] end.
Proof. by destruct l. Qed.

(** [PATCH /api/columns/values/:id] on a value in a column of the requester. *)
Lemma patch_column_value_run updatedAt (req : RoutesOps.Request) a
    userId valueId value found column :
  RoutesOps.user req = Some userId → RoutesOps.params_id req = Some valueId →
  RoutesOps.body_value req = Some value →
  head (filter (λ v, ColumnValue.id v = valueId) (columnValues (db a))) = Some found →
  column_of_user (db a) (ColumnValue.columnId found) userId = Some column →
  ∃ updated,
    RoutesOps.patch_column_value updatedAt req a =
      (Normal {| RoutesOps.status := 200; RoutesOps.body := RoutesOps.OneValue updated |},
       mkApp (update_value valueId value updatedAt (db a)).2 (server a)) ∧
    (update_value valueId value updatedAt (db a)).1 = Normal (Some updated) ∧
    ColumnValue.id updated = valueId ∧ ColumnValue.value updated = value ∧
    updated ∈ columnValues (update_value valueId value updatedAt (db a)).2.
Proof.
  intros Huser Hid Hval Hfound Hcolumn.
  unfold RoutesOps.patch_column_value, Js.try_catch. rewrite Huser, Hval, Hid.
  unfold Js.bind at 1. unfold RoutesOps.value_by_id at 1, Js.gets at 1. cbn [fst snd].
  rewrite take_1_head, Hfound.
  unfold Js.bind at 1. unfold getUserCustomColumn at 1, Js.gets at 1. cbn [fst snd].
  fold (column_of_user (db a) (ColumnValue.columnId found) userId). rewrite Hcolumn.
  apply head_filter_Some in Hfound as [Hfid Hin].
  assert (∃ x l, filter (λ v, bool_decide (ColumnValue.id v = valueId) = true) (columnValues (db a))
                 = x :: l ∧ ColumnValue.id x = valueId ∧ x ∈ columnValues (db a))
    as (x & l & Hf & Hxid & Hx).
  { destruct (filter (λ v, bool_decide (ColumnValue.id v = valueId) = true) (columnValues (db a)))
      as [|x l] eqn:Hf.
    - assert (found ∈ filter (λ v, bool_decide (ColumnValue.id v = valueId) = true)
                             (columnValues (db a))) as Hex
        by (apply list_elem_of_filter; split; [by apply bool_decide_eq_true|done]).
      rewrite Hf in Hex. by apply elem_of_nil in Hex.
    - assert (x ∈ filter (λ v, bool_decide (ColumnValue.id v = valueId) = true)
                         (columnValues (db a))) as Hex by (rewrite Hf; apply list_elem_of_here).
      apply list_elem_of_filter in Hex as [Hxid Hx]. apply bool_decide_eq_true in Hxid. eauto. }
  unfold update_value, updateColumnValue, set_columnValues, update_returning, set_db.
  unfold Js.bind, Js.gets, Js.modify, Js.ret. cbn [fst snd db]. rewrite Hf. cbn [fmap list_fmap head].
  eexists. split; [reflexivity|]. cbn [db server columnValues fst snd].
  split; [done|]. split; [done|]. split; [done|].
  apply list_elem_of_fmap. exists x. split; [|done]. by rewrite bool_decide_eq_true_2.
Qed.

(** The state after [PATCH /api/columns/values/:id]: as it was, or updated
    under the id of a value in a column of the requester. *)
Lemma patch_column_value_db updatedAt (req : RoutesOps.Request) a :
  (RoutesOps.patch_column_value updatedAt req a).2 = a ∨
  ∃ userId valueId value found column,
    RoutesOps.user req = Some userId ∧
    found ∈ columnValues (db a) ∧ ColumnValue.id found = valueId ∧
    column_of_user (db a) (ColumnValue.columnId found) userId = Some column ∧
    (RoutesOps.patch_column_value updatedAt req a).2 =
      mkApp (update_value valueId value updatedAt (db a)).2 (server a).
Proof.
  destruct (RoutesOps.user req) as [userId|] eqn:Huser;
    [|left; unfold RoutesOps.patch_column_value, Js.try_catch; by rewrite Huser].
  destruct (RoutesOps.body_value req) as [value|] eqn:Hval;
    [|left; unfold RoutesOps.patch_column_value, Js.try_catch; by rewrite Huser, Hval].
  destruct (RoutesOps.params_id req) as [valueId|] eqn:Hid;
    [|left; unfold RoutesOps.patch_column_value, Js.try_catch; by rewrite Huser, Hval, Hid].
  destruct (head (filter (λ v, ColumnValue.id v = valueId) (columnValues (db a))))
    as [found|] eqn:Hfound.
  - destruct (column_of_user (db a) (ColumnValue.columnId found) userId) as [column|] eqn:Hcolumn.
    + right. exists userId, valueId, value, found, column.
      destruct (patch_column_value_run updatedAt req a _ _ _ _ _ Huser Hid Hval Hfound Hcolumn)
        as (updated & -> & _).
      apply head_filter_Some in Hfound as [? ?]. done.
    + left. unfold RoutesOps.patch_column_value, Js.try_catch. rewrite Huser, Hval, Hid.
      unfold Js.bind at 1. unfold RoutesOps.value_by_id at 1, Js.gets at 1. cbn [fst snd].
      rewrite take_1_head, Hfound.
      unfold Js.bind at 1. unfold getUserCustomColumn at 1, Js.gets at 1. cbn [fst snd].
      fold (column_of_user (db a) (ColumnValue.columnId found) userId). by rewrite Hcolumn.
  - left. unfold RoutesOps.patch_column_value, Js.try_catch. rewrite Huser, Hval, Hid.
    unfold Js.bind at 1. unfold RoutesOps.value_by_id at 1, Js.gets at 1. cbn [fst snd].
    by rewrite take_1_head, Hfound.
Qed.

(** [DELETE /api/columns/values/:id] on a value in a column of the requester. *)
Lemma delete_column_value_run (req : RoutesOps.Request) a userId valueId found column :
  RoutesOps.user req = Some userId → RoutesOps.params_id req = Some valueId →
  head (filter (λ v, ColumnValue.id v = valueId) (columnValues (db a))) = Some found →
  column_of_user (db a) (ColumnValue.columnId found) userId = Some column →
  RoutesOps.delete_column_value req a =
    (Normal {| RoutesOps.status := 200; RoutesOps.body := RoutesOps.Success true |},
     mkApp (mkDb (tables (db a)) (customColumns (db a))
              (filter (λ v, bool_decide (ColumnValue.id v = valueId) = false) (columnValues (db a)))
              (columnValues_id_seq (db a)))
           (server a)).
Proof.
  intros Huser Hid Hfound Hcolumn.
  unfold RoutesOps.delete_column_value, Js.try_catch. rewrite Huser, Hid.
  unfold Js.bind at 1. unfold RoutesOps.value_by_id at 1, Js.gets at 1. cbn [fst snd].
  rewrite take_1_head, Hfound.
  unfold Js.bind at 1. unfold getUserCustomColumn at 1, Js.gets at 1. cbn [fst snd].
  fold (column_of_user (db a) (ColumnValue.columnId found) userId). rewrite Hcolumn.
  reflexivity.
Qed.

(** The state after [DELETE /api/columns/values/:id]. *)
Lemma delete_column_value_db (req : RoutesOps.Request) a :
  (RoutesOps.delete_column_value req a).2 = a ∨
  ∃ userId valueId found column,
    RoutesOps.user req = Some userId ∧
    found ∈ columnValues (db a) ∧ ColumnValue.id found = valueId ∧
    column_of_user (db a) (ColumnValue.columnId found) userId = Some column ∧
    (RoutesOps.delete_column_value req a).2 =
      mkApp (mkDb (tables (db a)) (customColumns (db a))
               (filter (λ v, bool_decide (ColumnValue.id v = valueId) = false) (columnValues (db a)))
               (columnValues_id_seq (db a)))
            (server a).
Proof.
  destruct (RoutesOps.user req) as [userId|] eqn:Huser;
    [|left; unfold RoutesOps.delete_column_value, Js.try_catch; by rewrite Huser].
  destruct (RoutesOps.params_id req) as [valueId|] eqn:Hid.
  2:{ left. unfold RoutesOps.delete_column_value, Js.try_catch. by rewrite Huser, Hid. }
  destruct (head (filter (λ v, ColumnValue.id v = valueId) (columnValues (db a))))
    as [found|] eqn:Hfound.
  - destruct (column_of_user (db a) (ColumnValue.columnId found) userId) as [column|] eqn:Hcolumn.
    + right. exists userId, valueId, found, column.
      rewrite (delete_column_value_run req a _ _ _ _ Huser Hid Hfound Hcolumn).
      apply head_filter_Some in Hfound as [? ?]. done.
    + left. unfold RoutesOps.delete_column_value, Js.try_catch. rewrite Huser, Hid.
      unfold Js.bind at 1. unfold RoutesOps.value_by_id at 1, Js.gets at 1. cbn [fst snd].
      rewrite take_1_head, Hfound.
      unfold Js.bind at 1. unfold getUserCustomColumn at 1, Js.gets at 1. cbn [fst snd].
      fold (column_of_user (db a) (ColumnValue.columnId found) userId). by rewrite Hcolumn.
  - left. unfold RoutesOps.delete_column_value, Js.try_catch. rewrite Huser, Hid.
    unfold Js.bind at 1. unfold RoutesOps.value_by_id at 1, Js.gets at 1. cbn [fst snd].
    by rewrite take_1_head, Hfound.
Qed.

(** X21. None of the three routes that write column values changes a value
    of a column the requester has no access to: on a store with the serial
    key, a stored value whose column [getUserCustomColumn] does not give to
    the requester is still stored, unchanged, after [POST
    /api/columns/values], after [PATCH /api/columns/values/:id] and after
    [DELETE /api/columns/values/:id], whatever the request says. *)
Theorem value_writes_stay_in_own_columns world createdAt updatedAt (req : RoutesOps.Request) a v :
  serial_key (db a) → v ∈ columnValues (db a) →
  (∀ userId, RoutesOps.user req = Some userId →
     column_of_user (db a) (ColumnValue.columnId v) userId = None) →
  v ∈ columnValues (db (RoutesOps.post_column_value world createdAt updatedAt req a).2) ∧
  v ∈ columnValues (db (RoutesOps.patch_column_value updatedAt req a).2) ∧
  v ∈ columnValues (db (RoutesOps.delete_column_value req a).2).
Proof.
  intros Hserial Hv Hforeign. split; [|split].
  - destruct (post_column_value_db world createdAt updatedAt req a)
      as [->|(userId & columnId & rowIndex & value & column & Huser & Hcolumn & ->)]; [done|].
    apply save_keeps_value; [done|done|]. simpl. intros Heq.
    specialize (Hforeign userId Huser). rewrite Heq in Hforeign. congruence.
  - destruct (patch_column_value_db updatedAt req a)
      as [->|(userId & valueId & value & found & column & Huser & Hin & Hid & Hcolumn & ->)];
      [done|].
    cbn [db]. unfold update_value, updateColumnValue, set_columnValues, update_returning.
    unfold Js.bind, Js.gets, Js.modify, Js.ret. cbn [fst snd columnValues].
    apply list_elem_of_fmap. exists v. split; [|done].
    rewrite bool_decide_eq_false_2; [done|]. intros Hvid.
    destruct Hserial as [_ Hkey].
    apply list_elem_of_lookup in Hv as [i Hi]. apply list_elem_of_lookup in Hin as [j Hj].
    assert (i = j) as -> by (eapply Hkey; eauto; congruence).
    assert (v = found) as -> by congruence.
    specialize (Hforeign userId Huser). congruence.
  - destruct (delete_column_value_db req a)
      as [->|(userId & valueId & found & column & Huser & Hin & Hid & Hcolumn & ->)]; [done|].
    cbn [db columnValues]. apply list_elem_of_filter. split; [|done].
    apply bool_decide_eq_false. intros Hvid.
    destruct Hserial as [_ Hkey].
    apply list_elem_of_lookup in Hv as [i Hi]. apply list_elem_of_lookup in Hin as [j Hj].
    assert (i = j) as -> by (eapply Hkey; eauto; congruence).
    assert (v = found) as -> by congruence.
    specialize (Hforeign userId Huser). congruence.
Qed.



End ValueRoutes.

(** ** The routes that read column values *)

Section ValueReads.
Import Realtime Sheets Storage StorageOps Routes.

Lemma elem_of_values_with_owner d v c t :
  ((v, c), t) ∈ values_with_owner d ↔
  v ∈ columnValues d ∧ c ∈ customColumns d ∧ t ∈ tables d ∧
  ColumnValue.columnId v = CustomColumn.id c ∧ CustomColumn.tableId c = Table.id t.
Proof.
  unfold values_with_owner. rewrite !elem_of_innerJoin, !bool_decide_eq_true. simpl. tauto.
Qed.

(** The values [getUserColumnValues] gives for a column of the user. *)
Lemma user_column_values d columnId userId column v :
  column_of_user d columnId userId = Some column →
  v ∈ (λ r : ColumnValue * CustomColumn * Table, r.1.1) <$>
      filter (λ r, ColumnValue.columnId r.1.1 = columnId ∧ Table.userId r.2 = userId)
             (values_with_owner d) ↔
  v ∈ columnValues d ∧ ColumnValue.columnId v = columnId.
Proof.
  intros Hcolumn. apply column_of_user_Some in Hcolumn as (Hid & Hc & t & Ht & Htid & Hu).
  rewrite list_elem_of_fmap. split.
  - intros ([[v' c'] t'] & -> & Hr). apply list_elem_of_filter in Hr as [[Hcol _] Hr].
    apply elem_of_values_with_owner in Hr. simpl in *. tauto.
  - intros [Hv Hcol]. exists ((v, column), t). split; [done|].
    apply list_elem_of_filter. split; [done|].
    apply elem_of_values_with_owner. repeat split; congruence.
Qed.

(** X24. [GET /api/columns/:columnId/values] reads and never writes.  With
    a [columnId] that is [NaN] or out of the range of [integer] the lookup of
    the column throws and the route answers 500.  For a column
    [getUserCustomColumn] gives to the requester it answers 200 with stored
    values only, and a stored value is among them exactly when it is a value
    of that column; for any other column id it answers 404 and hands out no
    value. *)
Theorem get_column_values_of_own_column (req : RoutesOps.Request) a userId :
  RoutesOps.user req = Some userId →
  match RoutesOps.params_columnId req with
  | None =>
      RoutesOps.get_column_values req a =
        (Normal (RoutesOps.failure "Failed to fetch column values" DatabaseError), a)
  | Some columnId =>
      match column_of_user (db a) columnId userId with
      | Some _ =>
          ∃ vs, RoutesOps.get_column_values req a =
                  (Normal {| RoutesOps.status := 200; RoutesOps.body := RoutesOps.Values vs |}, a) ∧
                ∀ v, v ∈ vs ↔ v ∈ columnValues (db a) ∧ ColumnValue.columnId v = columnId
      | None =>
          RoutesOps.get_column_values req a =
            (Normal (RoutesOps.message 404 "message"
                       "Column not found or you don't have access to it"), a)
      end
  end.
Proof.
  intros Huser.
  destruct (RoutesOps.params_columnId req) as [columnId|] eqn:Hid.
  2:{ unfold RoutesOps.get_column_values, Js.try_catch. by rewrite Huser, Hid. }
  destruct (column_of_user (db a) columnId userId) as [column|] eqn:Hcolumn.
  - eexists. split.
    + unfold RoutesOps.get_column_values, Js.try_catch. rewrite Huser, Hid.
      unfold Js.bind at 1. unfold getUserCustomColumn at 1, Js.gets at 1. cbn [fst snd].
      fold (column_of_user (db a) columnId userId). rewrite Hcolumn.
      reflexivity.
    + intros v. cbn [fst snd]. by apply (user_column_values _ _ _ column).
  - unfold RoutesOps.get_column_values, Js.try_catch. rewrite Huser, Hid.
    unfold Js.bind at 1. unfold getUserCustomColumn at 1, Js.gets at 1. cbn [fst snd].
    fold (column_of_user (db a) columnId userId). by rewrite Hcolumn.
Qed.

(** X25. [GET /api/columns/:columnId/values/:rowIndex] reads and never
    writes.  When the [columnId] or the [rowIndex] is [NaN] it answers 400.
    When the [columnId] is out of the range of [integer] the lookup of the
    column throws and it answers 500; when the requester has no column of
    that id it answers 404.  For a column of the requester, a [rowIndex] out
    of range makes the lookup of the value throw (500); otherwise the route
    answers 200: with a stored value of that column and row when there is
    one, and with the placeholder [{ columnId, rowIndex, value: "" }] of
    the request only when no value is stored for the cell. *)
Theorem get_column_value_of_own_cell (req : RoutesOps.Request) a userId :
  RoutesOps.user req = Some userId →
  let failed := RoutesOps.message 500 "error" "Failed to fetch column value" in
  match RoutesOps.parsed_columnId req, RoutesOps.parsed_rowIndex req with
  | Some columnId, Some rowIndex =>
      if decide (int4 columnId) then
        match column_of_user (db a) columnId userId with
        | None =>
            RoutesOps.get_column_value req a =
              (Normal (RoutesOps.message 404 "error"
                         "Column not found or you don't have access to it"), a)
        | Some _ =>
            if decide (int4 rowIndex) then
              ∃ body, RoutesOps.get_column_value req a =
                        (Normal {| RoutesOps.status := 200; RoutesOps.body := body |}, a) ∧
                      match body with
                      | RoutesOps.OneValue v =>
                          v ∈ columnValues (db a) ∧ ColumnValue.columnId v = columnId ∧
                          ColumnValue.rowIndex v = rowIndex
                      | RoutesOps.EmptyValue c r =>
                          c = columnId ∧ r = rowIndex ∧
                          ∀ v, v ∈ columnValues (db a) →
                               ¬ (ColumnValue.columnId v = columnId ∧
                                  ColumnValue.rowIndex v = rowIndex)
                      | _ => False
                      end
            else RoutesOps.get_column_value req a = (Normal failed, a)
        end
      else RoutesOps.get_column_value req a = (Normal failed, a)
  | _, _ =>
      RoutesOps.get_column_value req a =
        (Normal (RoutesOps.message 400 "error" "Invalid column ID or row index"), a)
  end.
Proof.
  intros Huser failed.
  destruct (RoutesOps.parsed_columnId req) as [columnId|] eqn:Hid.
  2:{ unfold RoutesOps.get_column_value, Js.try_catch. by rewrite Huser, Hid. }
  destruct (RoutesOps.parsed_rowIndex req) as [rowIndex|] eqn:Hrow.
  2:{ unfold RoutesOps.get_column_value, Js.try_catch. by rewrite Huser, Hid, Hrow. }
  destruct (decide (int4 columnId)) as [Hc|Hc].
  2:{ unfold RoutesOps.get_column_value, Js.try_catch. rewrite Huser, Hid, Hrow.
      unfold integer_param. rewrite (decide_False (P := int4 columnId)) by done. reflexivity. }
  assert (∀ k : option CustomColumn → Js.M App RoutesOps.Response,
            (let* column := integer_param columnId ;;; getUserCustomColumn db columnId userId in
                k column) a = k (column_of_user (db a) columnId userId) a) as Hlookup.
  { intros k. unfold integer_param. rewrite (decide_True (P := int4 columnId)) by done.
    reflexivity. }
  destruct (column_of_user (db a) columnId userId) as [column|] eqn:Hcolumn.
  2:{ unfold RoutesOps.get_column_value, Js.try_catch. rewrite Huser, Hid, Hrow.
      by rewrite Hlookup. }
  destruct (decide (int4 rowIndex)) as [Hr|Hr].
  2:{ unfold RoutesOps.get_column_value, Js.try_catch. rewrite Huser, Hid, Hrow.
      rewrite Hlookup. unfold integer_param.
      rewrite (decide_False (P := int4 rowIndex)) by done. reflexivity. }
  assert (∀ k : option ColumnValue → Js.M App RoutesOps.Response,
            (let* value := integer_param rowIndex ;;;
                              getUserColumnValue db columnId rowIndex userId in
                k value) a =
               k ((λ r : ColumnValue * CustomColumn * Table, r.1.1) <$>
                  head (filter (λ r : ColumnValue * CustomColumn * Table,
                                  ColumnValue.columnId r.1.1 = columnId ∧
                                  ColumnValue.rowIndex r.1.1 = rowIndex ∧ Table.userId r.2 = userId)
                               (values_with_owner (db a)))) a) as Hvalue.
  { intros k. unfold integer_param. rewrite (decide_True (P := int4 rowIndex)) by done.
    reflexivity. }
  destruct (head (filter (λ r : ColumnValue * CustomColumn * Table,
                            ColumnValue.columnId r.1.1 = columnId ∧
                            ColumnValue.rowIndex r.1.1 = rowIndex ∧ Table.userId r.2 = userId)
                         (values_with_owner (db a)))) as [[[v c] t]|] eqn:Hhead.
  - exists (RoutesOps.OneValue v). split.
    + unfold RoutesOps.get_column_value, Js.try_catch. rewrite Huser, Hid, Hrow.
      rewrite Hlookup, Hvalue. reflexivity.
    + apply head_filter_Some in Hhead as [(Hvc & Hvr & _) Hin].
      apply elem_of_values_with_owner in Hin. simpl in *. tauto.
  - exists (RoutesOps.EmptyValue columnId rowIndex). split.
    + unfold RoutesOps.get_column_value, Js.try_catch. rewrite Huser, Hid, Hrow.
      rewrite Hlookup, Hvalue. reflexivity.
    + split; [done|]. split; [done|]. intros v Hv [Hvc Hvr].
      apply column_of_user_Some in Hcolumn as (Hcid & Hcol & t & Ht & Htid & Hu).
      eapply (head_filter_None _ _ Hhead ((v, column), t)).
      * apply elem_of_values_with_owner. repeat split; congruence.
      * done.
Qed.

End ValueReads.

(** ** The routes on the store of two users *)

Section RouteExamples.
Import Realtime Sheets Storage StorageOps Routes.

Lemma resync_requires_owner_witness :
  get_table_data forbidding_world 20 foreign_request two_tables_app =
    (Normal table_not_found, two_tables_app) ∧
  post_table_sync forbidding_world 20 21 foreign_request two_tables_app =
    (Normal table_not_found, two_tables_app).
Proof.
  apply (resync_requires_owner forbidding_world 20 21 foreign_request two_tables_app).
  reflexivity.
Defined.



Lemma value_writes_stay_in_own_columns_witness :
  ColumnValue.mk 2 6 0 "soon" (Some 15) (Some 15) ∈
    columnValues (db (RoutesOps.post_column_value forbidding_world 20 20 (value_request 2 6 0)
                        two_tables_app).2) ∧
  ColumnValue.mk 2 6 0 "soon" (Some 15) (Some 15) ∈
    columnValues (db (RoutesOps.patch_column_value 20 (value_request 2 6 0) two_tables_app).2) ∧
  ColumnValue.mk 2 6 0 "soon" (Some 15) (Some 15) ∈
    columnValues (db (RoutesOps.delete_column_value (value_request 2 6 0) two_tables_app).2).
Proof.
  apply (value_writes_stay_in_own_columns forbidding_world 20 20 (value_request 2 6 0)
           two_tables_app (ColumnValue.mk 2 6 0 "soon" (Some 15) (Some 15))).
  - apply serial_key_two_tables.
  - apply list_elem_of_further, list_elem_of_here.
  - intros userId Huser. injection Huser as <-. reflexivity.
Defined.



Lemma get_column_values_of_own_column_witness :
  (∃ vs, RoutesOps.get_column_values (value_request 1 5 3) two_tables_app =
           (Normal {| RoutesOps.status := 200; RoutesOps.body := RoutesOps.Values vs |},
            two_tables_app) ∧
         ∀ v, v ∈ vs ↔ v ∈ columnValues (db two_tables_app) ∧ ColumnValue.columnId v = 5) ∧
  RoutesOps.get_column_values (value_request 2 6 0) two_tables_app =
    (Normal (RoutesOps.message 404 "message" "Column not found or you don't have access to it"),
     two_tables_app) ∧
  RoutesOps.get_column_values (value_request 1 4294967296 0) two_tables_app =
    (Normal (RoutesOps.failure "Failed to fetch column values" DatabaseError), two_tables_app).
Proof.
  split; [|split].
  - apply (get_column_values_of_own_column (value_request 1 5 3) two_tables_app 7); reflexivity.
  - apply (get_column_values_of_own_column (value_request 2 6 0) two_tables_app 7); reflexivity.
  - apply (get_column_values_of_own_column (value_request 1 4294967296 0) two_tables_app 7);
      reflexivity.
Defined.

Lemma get_column_value_of_own_cell_witness :
  RoutesOps.get_column_value (value_request 1 5 3) two_tables_app =
    (Normal {| RoutesOps.status := 200;
               RoutesOps.body := RoutesOps.OneValue (ColumnValue.mk 1 5 3 "todo" (Some 14) (Some 14)) |},
     two_tables_app) ∧
  RoutesOps.get_column_value (value_request 1 5 4) two_tables_app =
    (Normal {| RoutesOps.status := 200; RoutesOps.body := RoutesOps.EmptyValue 5 4 |},
     two_tables_app) ∧
  RoutesOps.get_column_value (value_request 1 5 4294967296) two_tables_app =
    (Normal (RoutesOps.message 500 "error" "Failed to fetch column value"), two_tables_app).
Proof.
  split; [|split].
  - destruct (get_column_value_of_own_cell (value_request 1 5 3) two_tables_app 7 eq_refl)
      as (body & Hrun & _).
    rewrite Hrun. vm_compute in Hrun. injection Hrun as <-. reflexivity.
  - destruct (get_column_value_of_own_cell (value_request 1 5 4) two_tables_app 7 eq_refl)
      as (body & Hrun & _).
    rewrite Hrun. vm_compute in Hrun. injection Hrun as <-. reflexivity.
  - apply (get_column_value_of_own_cell (value_request 1 5 4294967296) two_tables_app 7 eq_refl).
Defined.

End RouteExamples.
